(** * A line-delimited JSON-RPC tool server and its agent client

    Shallow embedding of

      - [server/src/index copy.ts]: the tool server (its catalogs, tools and
        per-line request dispatch),
      - [client/src/client.ts] and [client/src/client_open_ai.ts]: the [send]
        primitive, the bootstrap sequence and the tool-invocation loop,

    followed by the properties of the request/response correlation and of
    the loop guard. *)

From Stdlib Require Import ZArith List String Ascii Bool Arith Lia Sorted.
From Stdlib Require Import DecimalString.
Import ListNotations.

Local Open Scope string_scope.
Set Warnings "-register-all".
Local Open Scope list_scope.

(** ** JavaScript values

    Everything the programs exchange is untyped JSON data ([any] in the
    sources), so one type of run-time values serves both programs.  [JUndef]
    is JavaScript's [undefined]; numbers are the integers (the programs only
    count identifiers and copy prices and codes), so data that holds a
    fraction, or an integer that is not below 2^53 in magnitude and so may
    not print as its digits, is outside the model; a string has one [ascii]
    per code unit, so it stands for a string whose code units are all below
    U+0100 (module [Wide] goes beyond them where lower-casing does); an
    object is its list of own properties in insertion order, looked up by
    first match. *)

Inductive value : Type :=
| JUndef
| JNull
| JBool (b : bool)
| JNum (z : Z)
| JStr (s : string)
| JArr (items : list value)
| JObj (fields : list (string * value)).

(** Errors a computation can throw. *)
Inductive exn : Type :=
| TypeError      (* property of null or undefined, call of a non-function *)
| SyntaxError    (* JSON.parse on text that is not JSON *)
| CompletionError. (* the completion API call failed *)

Definition res (A : Type) : Type := (exn + A)%type.

Definition ok {A} (a : A) : res A := inr a.
Definition throw {A} (e : exn) : res A := inl e.
Definition rbind {A B} (m : res A) (k : A -> res B) : res B :=
  match m with inl e => inl e | inr a => k a end.

Declare Scope res_scope.
Delimit Scope res_scope with res.
Notation "x <- m ;; k" := (rbind m (fun x => k))
  (at level 61, m at next level, right associativity) : res_scope.

Module JS.

Fixpoint lookup (k : string) (fields : list (string * value)) : value :=
    match fields with
    | [] => JUndef
    | (k', v) :: rest => if String.eqb k' k then v else lookup k rest
    end.

Definition has_own (k : string) (fields : list (string * value)) : bool :=
    existsb (fun kv => String.eqb (fst kv) k) fields.

(** [v.k]: a TypeError on [undefined] and [null], [undefined] where the
      property is missing. *)
Definition prop (v : value) (k : string) : res value :=
    match v with
    | JUndef | JNull => throw TypeError
    | JObj fields => ok (lookup k fields)
    | JArr items =>
        if String.eqb k "length" then ok (JNum (Z.of_nat (List.length items)))
        else ok JUndef
    | JStr s =>
        if String.eqb k "length" then ok (JNum (Z.of_nat (String.length s)))
        else ok JUndef
    | _ => ok JUndef
    end.

(** [v?.k] *)
Definition opt_prop (v : value) (k : string) : res value :=
    match v with
    | JUndef | JNull => ok JUndef
    | _ => prop v k
    end.

(** [v[0]] *)
Definition first (v : value) : res value :=
    match v with
    | JUndef | JNull => throw TypeError
    | JArr items => ok (hd JUndef items)
    | JStr (String c _) => ok (JStr (String c EmptyString))
    | JObj fields => ok (lookup "0" fields)
    | _ => ok JUndef
    end.

Definition truthy (v : value) : bool :=
    match v with
    | JUndef | JNull => false
    | JBool b => b
    | JNum z => negb (Z.eqb z 0)
    | JStr s => negb (String.eqb s "")
    | JArr _ | JObj _ => true
    end.

(** [a || b] *)
Definition or (a b : value) : value := if truthy a then a else b.

(** [v === "lit"] *)
Definition is_str (v : value) (lit : string) : bool :=
    match v with
    | JStr s => String.eqb s lit
    | _ => false
    end.

Definition num_to_string (z : Z) : string :=
    NilZero.string_of_int (Z.to_int z).

Definition join (sep : string) (l : list string) : string :=
    String.concat sep l.

(** ToString, as applied by template literals and by [Array.join].  An
      object prints as [[object Object]]; when parsed data carries an own
      property named [toString] that property shadows the method and the
      conversion is a TypeError. *)
Fixpoint to_string (v : value) : res string :=
    match v with
    | JUndef => ok "undefined"
    | JNull => ok "null"
    | JBool true => ok "true"
    | JBool false => ok "false"
    | JNum z => ok (num_to_string z)
    | JStr s => ok s
    | JArr items =>
        let fix go (l : list value) : res (list string) :=
          match l with
          | [] => ok []
          | x :: r =>
              match
                match x with
                | JUndef | JNull => ok ""
                | _ => to_string x
                end
              with
              | inl e => inl e
              | inr s => match go r with
                         | inl e => inl e
                         | inr ss => ok (s :: ss)
                         end
              end
          end in
        match go items with
        | inl e => inl e
        | inr ss => ok (join "," ss)
        end
    | JObj fields =>
        if has_own "toString" fields then throw TypeError
        else ok "[object Object]"
    end.

(** What [for (const x of v)] goes through: the elements of an array, the
      characters of a string; nothing else here is iterable. *)
Definition iterate (v : value) : res (list value) :=
    match v with
    | JArr items => ok items
    | JStr s => ok (map (fun c => JStr (String c "")) (list_ascii_of_string s))
    | _ => throw TypeError
    end.

(** [Array.prototype.join] on an array of values. *)
Fixpoint join_values (sep : string) (l : list value) : res string :=
    match l with
    | [] => ok ""
    | x :: r =>
        match
          match x with
          | JUndef | JNull => ok ""
          | _ => to_string x
          end
        with
        | inl e => inl e
        | inr s =>
            match r with
            | [] => ok s
            | _ => match join_values sep r with
                   | inl e => inl e
                   | inr t => ok (s ++ sep ++ t)%string
                   end
            end
        end
    end.

End JS.

(** ** JSON text and transport lines *)

Module JSON.

Definition hex_digit (n : nat) : ascii :=
    nth n (list_ascii_of_string "0123456789abcdef") "0"%char.

Definition dquote : ascii := "034"%char.
Definition backslash : ascii := "092"%char.

Definition esc (c : ascii) : string := String backslash (String c "").

(** Escaping inside a string literal, as [JSON.stringify] writes it. *)
Definition escape_char (c : ascii) : string :=
    let n := nat_of_ascii c in
    if Nat.eqb n 34 then esc dquote
    else if Nat.eqb n 92 then esc backslash
    else if Nat.eqb n 8 then esc "b"
    else if Nat.eqb n 9 then esc "t"
    else if Nat.eqb n 10 then esc "n"
    else if Nat.eqb n 12 then esc "f"
    else if Nat.eqb n 13 then esc "r"
    else if Nat.ltb n 32 then
      (esc "u" ++ "00"
         ++ String (hex_digit (n / 16)) (String (hex_digit (n mod 16)) ""))%string
    else String c "".

Fixpoint escape (s : string) : string :=
    match s with
    | EmptyString => ""
    | String c r => (escape_char c ++ escape r)%string
    end.

Definition quote (s : string) : string :=
    (String dquote (escape s) ++ String dquote "")%string.

(** The text of a defined value.  Inside an array [undefined] is written
      [null]; inside an object a property whose value is [undefined] is
      left out. *)
Fixpoint text (v : value) : string :=
    match v with
    | JUndef | JNull => "null"
    | JBool true => "true"
    | JBool false => "false"
    | JNum z => JS.num_to_string z
    | JStr s => quote s
    | JArr items =>
        let fix go (l : list value) : list string :=
          match l with
          | [] => []
          | x :: r => text x :: go r
          end in
        ("[" ++ JS.join "," (go items) ++ "]")%string
    | JObj fields =>
        let fix go (l : list (string * value)) : list string :=
          match l with
          | [] => []
          | (k, JUndef) :: r => go r
          | (k, x) :: r => (quote k ++ ":" ++ text x)%string :: go r
          end in
        ("{" ++ JS.join "," (go fields) ++ "}")%string
    end.

(** [JSON.stringify(v)]: a string, or [undefined] for [undefined]. *)
Definition stringify (v : value) : value :=
    match v with
    | JUndef => JUndef
    | _ => JStr (text v)
    end.

(** What a reader gets back from the text [stringify] wrote: the same
      document with the [undefined] parts gone. *)
Fixpoint wire (v : value) : value :=
    match v with
    | JUndef => JNull
    | JArr items => JArr (map wire items)
    | JObj fields =>
        let fix go (l : list (string * value)) : list (string * value) :=
          match l with
          | [] => []
          | (k, JUndef) :: r => go r
          | (k, x) :: r => (k, wire x) :: go r
          end in
        JObj (go fields)
    | _ => v
    end.

End JSON.

(** A line on the transport is represented by what [JSON.parse] makes of it:
    [Json j] is the line holding the JSON text of document [j]; [Text s] is
    other text printed by one [console.log], which does not begin a JSON
    document, so that [JSON.parse] throws a SyntaxError on the line it
    starts. *)
Inductive line : Type :=
| Json (j : value)
| Text (s : string).

Definition parse_line (l : line) : res value :=
  match l with
  | Json j => ok j
  | Text _ => throw SyntaxError
  end.

(** [console.log(JSON.stringify(doc))] *)
Definition write_json (doc : value) : line := Json (JSON.wire doc).

(** ** The tool server ([server/src/index copy.ts]) *)

(** A server-side computation writes lines to standard output and then
    returns or throws. *)
Definition proc (A : Type) : Type := (list line * res A)%type.

Definition pret {A} (a : A) : proc A := ([], ok a).
Definition pbind {A B} (m : proc A) (k : A -> proc B) : proc B :=
  match m with
  | (o, inl e) => (o, inl e)
  | (o, inr a) => let (o', r) := k a in (o ++ o', r)
  end.
Definition plift {A} (r : res A) : proc A := ([], r).
Definition console_log (l : line) : proc unit := ([l], ok tt).
Definition pwhen (b : bool) (m : proc unit) : proc unit :=
  if b then m else pret tt.

Declare Scope proc_scope.
Delimit Scope proc_scope with proc.
Notation "x <- m ;; k" := (pbind m (fun x => k))
  (at level 61, m at next level, right associativity) : proc_scope.
Notation "m ;; k" := (pbind m (fun _ => k))
  (at level 61, right associativity) : proc_scope.

Module Server.

Definition serverInfo : value :=
    JObj [("name", JStr "Coffee Shop Server"); ("version", JStr "1.0.0")].

Record Drink := { name : string; price : Z; description : string }.

Definition drink_value (d : Drink) : value :=
    JObj [("name", JStr (name d)); ("price", JNum (price d));
          ("description", JStr (description d))].

Record Resource := {
    uri : string;
    resource_name : string;
    get : list Drink -> value
  }.

Record Tool := {
    tool_name : string;
    tool_description : string;
    inputSchema : value;
    execute : list Drink -> value -> proc value
  }.

(** The module-level arrays of the process. *)
Record store := {
    drinks : list Drink;
    resources : list Resource;
    tools : list Tool
  }.

Definition the_drinks : list Drink :=
    [ {| name := "Latte"; price := 5;
         description :=
           "A latte is a coffee drink made with espresso and steamed milk." |};
      {| name := "Mocha"; price := 6;
         description :=
           "A mocha is a coffee drink made with espresso and chocolate." |};
      {| name := "Flat White"; price := 7;
         description :=
           "A flat white is a coffee drink made with espresso and steamed milk." |} ].

Definition menu : Resource :=
    {| uri := "menu://app";
       resource_name := "menu";
       get := fun ds =>
         JObj [("contents",
                JArr [JObj [("uri", JStr "menu://app");
                            ("text", JSON.stringify (JArr (map drink_value ds)))]])] |}.

Definition sendResponse (id result : value) : proc unit :=
    console_log
      (write_json (JObj [("result", result); ("jsonrpc", JStr "2.0"); ("id", id)])).

Definition text_content (text : value) : value :=
    JObj [("content", JArr [JObj [("type", JStr "text"); ("text", text)]])].

Definition getDrinkNames : Tool :=
    {| tool_name := "getDrinkNames";
       tool_description := "Get the names of the drinks in the shop";
       inputSchema := JObj [("type", JStr "object"); ("properties", JObj [])];
       execute := fun ds _ =>
         pret (text_content
                 (JSON.stringify
                    (JObj [("names", JArr (map (fun d => JStr (name d)) ds))]))) |}.

(** [String.prototype.toLowerCase] on the code units of the model, those
      below U+0100: there it maps one unit to one, the capitals of [A-Z]
      and of U+00C0 to U+00DE to their small letters.  [Wide.toLowerCase]
      has the units beyond for which that is not so. *)
Definition lower_char (c : ascii) : ascii :=
    let n := nat_of_ascii c in
    if (Nat.leb 65 n && Nat.leb n 90)
       || (Nat.leb 192 n && Nat.leb n 222 && negb (Nat.eqb n 215))
    then ascii_of_nat (n + 32) else c.

Fixpoint toLowerCase (s : string) : string :=
    match s with
    | EmptyString => EmptyString
    | String c r => String (lower_char c) (toLowerCase r)
    end.

(** A character the class [[a-z0-9]] matches under the [i] flag. *)
Definition alnum (c : ascii) : bool :=
    let n := nat_of_ascii c in
    (Nat.leb 48 n && Nat.leb n 57) || (Nat.leb 65 n && Nat.leb n 90)
    || (Nat.leb 97 n && Nat.leb n 122).

(** [s.replace(/[^a-z0-9]/gi, "")] *)
Fixpoint strip (s : string) : string :=
    match s with
    | EmptyString => EmptyString
    | String c r => if alnum c then String c (strip r) else strip r
    end.

(** [(str || "").toLowerCase().replace(...)]: a truthy value that is not a
      string has no [toLowerCase]. *)
Definition normalize (str : value) : res string :=
    match JS.or str (JStr "") with
    | JStr s => ok (strip (toLowerCase s))
    | _ => throw TypeError
    end.

(** What [console.log] prints for an argument: a string as it is, other
      values as ToString gives them (the only ones that reach it here are
      the falsy primitives). *)
Definition show (v : value) : string :=
    match JS.to_string v with
    | inr s => s
    | inl _ => "[object Object]"
    end.

Definition normalized_name (d : Drink) : string :=
    strip (toLowerCase (name d)).

(** [for (const drink of drinks) console.log(...)] *)
Definition log_each (f : Drink -> line) (ds : list Drink) : proc unit :=
    (map f ds, ok tt).

Definition getDrinkInfo : Tool :=
    {| tool_name := "getDrinkInfo";
       tool_description := "Get more info about the drink";
       inputSchema :=
         JObj [("type", JStr "object");
               ("properties", JObj [("name", JObj [("type", JStr "string")])]);
               ("required", JArr [JStr "name"])];
       execute := fun ds args =>
         (arg <- plift (JS.prop args "name") ;;
          inputName <- plift (normalize arg) ;;
          console_log (Text ("Raw input: " ++ show arg)%string) ;;
          console_log (Text ("Normalized input: " ++ inputName)%string) ;;
          log_each
            (fun d => Text ("Raw drink name: " ++ name d ++ " Normalized: "
                              ++ normalized_name d)%string) ds ;;
          let drink := find (fun d => String.eqb (normalized_name d) inputName) ds in
          let content :=
            match drink with
            | Some d => JSON.stringify (drink_value d)
            | None => JSON.stringify (JObj [("error", JStr "Drink not found")])
            end in
          pret (text_content content))%proc |}.

Definition initial_store : store :=
    {| drinks := the_drinks;
       resources := [menu];
       tools := [getDrinkNames; getDrinkInfo] |}.

(** [Array.prototype.find] with a callback that can throw. *)
Fixpoint findM {A} (p : A -> res bool) (l : list A) : res (option A) :=
    match l with
    | [] => ok None
    | a :: r =>
        match p a with
        | inl e => inl e
        | inr true => ok (Some a)
        | inr false => findM p r
        end
    end.

Definition tool_entry (t : Tool) : value :=
    JObj [("name", JStr (tool_name t));
          ("description", JStr (tool_description t));
          ("inputSchema", inputSchema t)].

Definition resource_entry (r : Resource) : value :=
    JObj [("uri", JStr (uri r)); ("name", JStr (resource_name r))].

Definition initialize_result : value :=
    JObj [("protocolVersion", JStr "2025-03-26");
          ("capabilities",
           JObj [("tools", JObj [("listChanged", JBool true)]);
                 ("resources", JObj [("listChanged", JBool true)])]);
          ("serverInfo", serverInfo)].

Definition tool_not_found (id name : value) : proc unit :=
    (shown <- plift (JS.to_string name) ;;
     sendResponse id
       (JObj [("error",
               JObj [("code", JNum (-32602));
                     ("message",
                      JStr ("MCP error -32602: Tool " ++ shown ++ " not found")%string)])]))%proc.

Definition resource_not_found (id : value) : proc unit :=
    sendResponse id
      (JObj [("error",
              JObj [("code", JNum (-32602));
                    ("message", JStr "Resource not found")])]).

(** The body of the [try] block for a parsed line, one [if] after the
      other. *)
Definition dispatch (st : store) (json : value) : proc unit :=
    (* [json.jsonrpc] throws exactly when [json] is null or undefined; after
       it every read of [json.method] and [json.id] yields the same value,
       so each is read once. *)
    (jsonrpc <- plift (JS.prop json "jsonrpc") ;;
     method <- plift (JS.prop json "method") ;;
     id <- plift (JS.prop json "id") ;;
     pwhen (JS.is_str jsonrpc "2.0")
       (pwhen (JS.is_str method "initialize")
          (sendResponse id initialize_result)) ;;
     pwhen (JS.is_str method "tools/list")
       (sendResponse id (JObj [("tools", JArr (map tool_entry (tools st)))])) ;;
     pwhen (JS.is_str method "tools/call")
       (tool <- plift (findM (fun t =>
                  (params <- JS.prop json "params" ;;
                   n <- JS.prop params "name" ;;
                   ok (JS.is_str n (tool_name t)))%res) (tools st)) ;;
        match tool with
        | Some t =>
            params <- plift (JS.prop json "params") ;;
            args <- plift (JS.prop params "arguments") ;;
            toolResponse <- execute t (drinks st) args ;;
            sendResponse id toolResponse
        | None =>
            params <- plift (JS.prop json "params") ;;
            n <- plift (JS.prop params "name") ;;
            tool_not_found id n
        end) ;;
     pwhen (JS.is_str method "resources/list")
       (sendResponse id
          (JObj [("resources", JArr (map resource_entry (resources st)))])) ;;
     pwhen (JS.is_str method "resources/read")
       (params <- plift (JS.prop json "params") ;;
        u <- plift (JS.prop params "uri") ;;
        match find (fun r => JS.is_str u (uri r)) (resources st) with
        | Some r => sendResponse id (get r (drinks st))
        | None => resource_not_found id
        end) ;;
     pwhen (JS.is_str method "ping") (sendResponse id (JObj [])))%proc.

(** What handling one input line leaves behind: the lines on standard
      output and what [console.error] reported. *)
Record output := { stdout : list line; stderr : list exn }.

Definition on_line (st : store) (l : line) : output :=
    match parse_line l with
    | inl e => {| stdout := []; stderr := [e] |}
    | inr json =>
        match dispatch st json with
        | (o, inl e) => {| stdout := o; stderr := [e] |}
        | (o, inr _) => {| stdout := o; stderr := [] |}
        end
    end.

(** One iteration of [for await (const line of rl)]. *)
Definition step (st : store) (l : line) : store * list line :=
    (st, stdout (on_line st l)).

(** The methods [dispatch] has a branch for. *)
Definition handled : list string :=
    ["initialize"; "tools/list"; "tools/call"; "resources/list";
     "resources/read"; "ping"].

Fixpoint main (st : store) (input : list line) : store * list output :=
    match input with
    | [] => (st, [])
    | l :: rest =>
        let o := on_line st l in
        let (st', os) := main st rest in
        (st', o :: os)
    end.

End Server.

(** ** The client ([client/src/client_open_ai.ts], [client/src/client.ts]) *)

(** The request document [send] serialises. *)
Definition request (id : value) (method : string) (params : value) : value :=
  JObj [("jsonrpc", JStr "2.0"); ("method", JStr method);
        ("params", params); ("id", id)].

(** A property of the document a request line carries. *)
Definition member (k : string) (v : value) : list (string * value) :=
  match v with
  | JUndef => []
  | _ => [(k, JSON.wire v)]
  end.

(** The document [sendResponse] writes. *)
Definition response (id result : value) : value :=
  JSON.wire (JObj [("result", result); ("jsonrpc", JStr "2.0"); ("id", id)]).

(** What the client prints with [console.log], by the values printed. *)
Inductive event : Type :=
| Answer (promptResult : string)
| Requesting (name args : value)
| ToolResult (toolResultString : value)
| FollowUp (promptResult : value)
| Said (text : value).

Inductive outcome (A : Type) : Type :=
| Done (a : A)      (* the computation returned *)
| Threw (e : exn)   (* it threw, nothing in [main] catches *)
| Blocked           (* it awaits a reply line that never comes *)
| OutOfFuel.        (* the model ran out of loop iterations *)
Arguments Done {A} a.
Arguments Threw {A} e.
Arguments Blocked {A}.
Arguments OutOfFuel {A}.

Module Client.
Section Session.

(** The remote process, by its reaction to each line written to its
      standard input; the completion client, by its answer to the
      conversations sent so far (newest first); [JSON.parse] on text. *)
Variable R : Type.
Variable remote : R -> line -> R * list line.
Variable callAI : list (list value) -> res value.
Variable JSON_parse : string -> option value.

Record world := {
    lastId : nat;
    srv : R;
    pipe : list line;          (* written by the remote, not yet read *)
    sent : list line;          (* written to the remote, oldest first *)
    received : list line;      (* read from the remote, oldest first *)
    asked : list (list value); (* conversations sent for completion, newest first *)
    console : list event       (* printed, oldest first *)
  }.

Definition M (A : Type) : Type := world -> outcome A * world.

Definition ret {A} (a : A) : M A := fun w => (Done a, w).
Definition bind {A B} (m : M A) (k : A -> M B) : M B :=
    fun w =>
      match m w with
      | (Done a, w') => k a w'
      | (Threw e, w') => (Threw e, w')
      | (Blocked, w') => (Blocked, w')
      | (OutOfFuel, w') => (OutOfFuel, w')
      end.
Definition lift {A} (r : res A) : M A :=
    fun w => match r with inl e => (Threw e, w) | inr a => (Done a, w) end.
Definition print (e : event) : M unit :=
    fun w =>
      (Done tt,
       {| lastId := lastId w; srv := srv w; pipe := pipe w; sent := sent w;
          received := received w; asked := asked w;
          console := console w ++ [e] |}).

Declare Scope client_scope.
Delimit Scope client_scope with client.
Notation "x <- m ;; k" := (bind m (fun x => k))
    (at level 61, m at next level, right associativity) : client_scope.
Notation "m ;; k" := (bind m (fun _ => k))
    (at level 61, right associativity) : client_scope.

(** [lastId++] *)
Definition next_id : M value :=
  fun w =>
    (Done (JNum (Z.of_nat (lastId w))),
     {| lastId := S (lastId w); srv := srv w; pipe := pipe w; sent := sent w;
        received := received w; asked := asked w; console := console w |}).

(** [serverProcess.stdin.write(line)]: the remote reacts to the line, and
    what it prints queues up behind what is still unread.  (A line that
    reaches [readline] while no question is pending is not kept by Node; the
    queue is exact as long as the remote prints at most one line for a
    request, and in any case for the first line read after a write into an
    empty queue, which is all the properties below rely on.) *)
Definition write (l : line) : M unit :=
  fun w =>
    let (srv', outs) := remote (srv w) l in
    (Done tt,
     {| lastId := lastId w; srv := srv'; pipe := pipe w ++ outs;
        sent := sent w ++ [l]; received := received w; asked := asked w;
        console := console w |}).

(** [await rl.question("")]: the next line of the remote's output. *)
Definition question : M line :=
  fun w =>
    match pipe w with
    | [] => (Blocked, w)
    | l :: rest =>
        (Done l,
         {| lastId := lastId w; srv := srv w; pipe := rest; sent := sent w;
            received := received w ++ [l]; asked := asked w;
            console := console w |})
    end.

(** [send]: write the request and, unless it is a notification, read one
    line and return the [result] of what it parses to. *)
Definition send (method : string) (params : value) (isNotification : bool)
  : M value :=
  (id <- (if isNotification then ret JUndef else next_id) ;;
   write (write_json (request id method params)) ;;
   if isNotification then ret JUndef
   else
     json <- question ;;
     lift (doc <- parse_line json ;; JS.prop doc "result")%res)%client.

(** One [send] after the other, with what each returned. *)
Fixpoint sends (script : list (string * value * bool)) : M (list value) :=
  match script with
  | [] => ret []
  | (method, params, isNotification) :: rest =>
      (v <- send method params isNotification ;;
       vs <- sends rest ;;
       ret (v :: vs))%client
  end.

(** [callAIWithTools(messages)]; the catalog it passes along is fixed for
      the session and belongs to the completion client here. *)
Definition callAIWithTools (messages : list value) : M value :=
    fun w =>
      lift (callAI (messages :: asked w))
        {| lastId := lastId w; srv := srv w; pipe := pipe w; sent := sent w;
           received := received w; asked := messages :: asked w;
           console := console w |}.

(** *** Bootstrap *)

Record catalog := {
    serverInfo : value;
    tools : value;
    resources : value
  }.

Definition empty_meta : value :=
    JObj [("_meta", JObj [("progressToken", JNum 1)])].

Definition bootstrap : M catalog :=
    (r <- send "initialize"
            (JObj [("protocolVersion", JStr "2025-03-26");
                   ("capabilities", JObj []);
                   ("clientInfo",
                    JObj [("name", JStr "diy-client"); ("version", JStr "0.1.0")])])
            false ;;
     info <- lift (JS.prop r "serverInfo") ;;
     capabilities <- lift (JS.prop r "capabilities") ;;
     send "notifications/initialized" (JObj []) true ;;
     declared_tools <- lift (JS.prop capabilities "tools") ;;
     tl <- (if JS.truthy declared_tools
            then (r <- send "tools/list" empty_meta false ;;
                  lift (JS.prop r "tools"))
            else ret (JArr [])) ;;
     declared_resources <- lift (JS.prop capabilities "resources") ;;
     rs <- (if JS.truthy declared_resources
            then (r <- send "resources/list" empty_meta false ;;
                  lift (JS.prop r "resources"))
            else ret (JArr [])) ;;
     (* intro(`Connected to ${serverInfo.name} v${serverInfo.version}`) *)
     n <- lift (JS.prop info "name") ;;
     v <- lift (JS.prop info "version") ;;
     lift (JS.to_string n) ;;
     lift (JS.to_string v) ;;
     ret {| serverInfo := info; tools := tl; resources := rs |})%client.

(** *** The tool-invocation loop of [client_open_ai.ts] *)

Record conversation := {
    messages : list value;
    toolCallHistory : list value;
    toolCallRepeatCount : nat;
    lastToolCallSignature : string
  }.

Definition systemPrompt : value :=
    JObj [("role", JStr "system");
          ("content",
           JStr "You are a helpful coffee shop assistant. When asked for recommendations, use the available drink information and make a judgment. Do not repeatedly request the same information. After you have all drink details, always answer the user's question directly. If you already have all drink info, do not call tools again.")].

Definition user_message (content : string) : value :=
    JObj [("role", JStr "user"); ("content", JStr content)].

Definition assistant_message (tool_calls : list value) : value :=
    JObj [("role", JStr "assistant"); ("content", JNull);
          ("tool_calls", JArr tool_calls)].

Definition tool_message (tool_call_id content : value) : value :=
    JObj [("role", JStr "tool"); ("tool_call_id", tool_call_id);
          ("content", content)].

Fixpoint mapM {A B} (f : A -> res B) (l : list A) : res (list B) :=
    match l with
    | [] => ok []
    | a :: r =>
        match f a with
        | inl e => inl e
        | inr b => match mapM f r with
                   | inl e => inl e
                   | inr bs => ok (b :: bs)
                   end
        end
    end.

(** [{ id: tc.id, type: tc.type, function: tc.function }] *)
Definition tool_call_entry (tc : value) : res value :=
    (id <- JS.prop tc "id" ;;
     ty <- JS.prop tc "type" ;;
     fn <- JS.prop tc "function" ;;
     ok (JObj [("id", id); ("type", ty); ("function", fn)]))%res.

(** [tc.function?.name || tc.name] *)
Definition call_name (tc : value) : res value :=
    (fn <- JS.prop tc "function" ;;
     n <- JS.opt_prop fn "name" ;;
     alt <- JS.prop tc "name" ;;
     ok (JS.or n alt))%res.

(** [tc.function?.arguments || tc.input] *)
Definition call_arguments (tc : value) : res value :=
    (fn <- JS.prop tc "function" ;;
     a <- JS.opt_prop fn "arguments" ;;
     alt <- JS.prop tc "input" ;;
     ok (JS.or a alt))%res.

Definition signature_part (tc : value) : res string :=
    (n <- call_name tc ;;
     ns <- JS.to_string n ;;
     a <- call_arguments tc ;;
     sa <- JS.to_string a ;;
     ok (ns ++ ":" ++ sa)%string)%res.

Definition toolCallSignature (results : list value) : res string :=
    (parts <- mapM signature_part results ;;
     ok (JS.join "|" parts))%res.

(** The text of a tool result as it goes into the conversation: the
      [name: $price - description] line when the text parses to something
      with those three, the text itself otherwise and on any exception. *)
Definition toolResultString (text : value) : value :=
    match
      (s <- JS.to_string text ;;
       match JSON_parse s with
       | None => throw SyntaxError
       | Some parsed =>
           if JS.truthy parsed then
             n <- JS.prop parsed "name" ;;
             if JS.truthy n then
               p <- JS.prop parsed "price" ;;
               if JS.truthy p then
                 d <- JS.prop parsed "description" ;;
                 if JS.truthy d then
                   ns <- JS.to_string n ;;
                   ps <- JS.to_string p ;;
                   ds <- JS.to_string d ;;
                   ok (JStr (ns ++ ": $" ++ ps ++ " - " ++ ds)%string)
                 else ok text
               else ok text
             else ok text
           else ok text
       end)%res
    with
    | inl _ => text
    | inr v => v
    end.

Definition is_tool_call (ty : value) : bool :=
    JS.is_str ty "function" || JS.is_str ty "tool_use".

(** The body of [for (const toolCall of results)]. *)
Definition run_tool_call (c : conversation) (toolCall : value)
    : M conversation :=
    (ty <- lift (JS.prop toolCall "type") ;;
     if is_tool_call ty then
       n <- lift (call_name toolCall) ;;
       lift (JS.to_string n) ;;
       a <- lift (call_arguments toolCall) ;;
       print (Requesting n a) ;;
       r <- send "tools/call" (JObj [("name", n); ("arguments", a)]) false ;;
       content <- lift (JS.prop r "content") ;;
       item <- lift (JS.first content) ;;
       text <- lift (JS.prop item "text") ;;
       let s := toolResultString text in
       print (ToolResult s) ;;
       id <- lift (JS.prop toolCall "id") ;;
       ret {| messages := messages c ++ [tool_message id s];
              toolCallHistory := toolCallHistory c ++ [s];
              toolCallRepeatCount := toolCallRepeatCount c;
              lastToolCallSignature := lastToolCallSignature c |}
     else ret c)%client.

Fixpoint run_tool_calls (c : conversation) (results : list value)
    : M conversation :=
    match results with
    | [] => ret c
    | toolCall :: rest =>
        (c' <- run_tool_call c toolCall ;; run_tool_calls c' rest)%client
    end.

Definition newline : string := String "010"%char "".

Definition summary_message (summary : string) : value :=
    user_message
      ("You have already received all drink information. Here is a summary:"
         ++ newline ++ summary ++ newline
         ++ "Please answer the user's question directly.")%string.

(** The array the loop works on: [promptResult] itself or [[promptResult]]. *)
Definition results_of (promptResult : value) : list value :=
    match promptResult with
    | JArr items => items
    | _ => [promptResult]
    end.

(** Lines 325 to 338: the signature of this turn against the last one. *)
Definition note_signature (c : conversation) (toolCallSignature : string)
    (messages' : list value) : conversation :=
    if String.eqb toolCallSignature (lastToolCallSignature c)
    then {| messages := messages';
            toolCallHistory := toolCallHistory c;
            toolCallRepeatCount := S (toolCallRepeatCount c);
            lastToolCallSignature := lastToolCallSignature c |}
    else {| messages := messages';
            toolCallHistory := toolCallHistory c;
            toolCallRepeatCount := 0;
            lastToolCallSignature := toolCallSignature |}.

Definition with_message (c : conversation) (m : value) : conversation :=
    {| messages := messages c ++ [m];
       toolCallHistory := toolCallHistory c;
       toolCallRepeatCount := toolCallRepeatCount c;
       lastToolCallSignature := lastToolCallSignature c |}.

(** How the loop was left.  [counts] is a history variable of the model:
      the value of [toolCallRepeatCount] at each test of the guard, in
      order. *)
Record final := {
    conv : conversation;
    promptResult : value;
    finalAnswerGiven : bool;
    counts : list nat
  }.

Definition out_of_fuel {A} : M A := fun w => (OutOfFuel, w).

(** The bootstrap sequence run [n] times over in one session. *)
Fixpoint bootstraps (n : nat) : M (list catalog) :=
  match n with
  | O => ret []
  | S k =>
      (c <- bootstrap ;;
       cs <- bootstraps k ;;
       ret (c :: cs))%client
  end.

(** How an iteration of [while (!finalAnswerGiven)] ends: with the state
      for the next one, or out of the loop. *)
Inductive next : Type :=
  | Again (c : conversation) (promptResult : value) (seen : list nat)
  | Break (f : final).

(** Lines 339 to 352, the guard has fired: summarise the tool results, ask
    once more and leave the loop with whatever comes back. *)
Definition force_answer (c1 : conversation) (seen' : list nat) : M next :=
  (summary <- lift (JS.join_values newline (toolCallHistory c1)) ;;
   let c2 := with_message c1 (summary_message summary) in
   r <- callAIWithTools (messages c2) ;;
   match r with
   | JStr s =>
       print (Answer s) ;;
       ret (Break {| conv := c2; promptResult := r;
                     finalAnswerGiven := true; counts := seen' |})
   | _ =>
       ret (Break {| conv := c2; promptResult := r;
                     finalAnswerGiven := false; counts := seen' |})
   end)%client.

(** Lines 354 to 401: execute the tool calls of the turn, then ask again. *)
Definition invoke_all (c1 : conversation) (results : list value)
  (seen' : list nat) : M next :=
  (c2 <- run_tool_calls c1 results ;;
   r <- callAIWithTools (messages c2) ;;
   print (FollowUp r) ;;
   ret (Again c2 r seen'))%client.

(** The body of the loop. *)
Definition turn (c : conversation) (promptResult : value) (seen : list nat)
  : M next :=
  match promptResult with
  | JStr s =>
      (print (Answer s) ;;
       ret (Break {| conv := c; promptResult := promptResult;
                     finalAnswerGiven := true; counts := seen |}))%client
  | _ =>
      let results := results_of promptResult in
      (entries <- lift (mapM tool_call_entry results) ;;
       sig <- lift (toolCallSignature results) ;;
       let c1 :=
         note_signature c sig (messages c ++ [assistant_message entries]) in
       let seen' := seen ++ [toolCallRepeatCount c1] in
       if Nat.leb 2 (toolCallRepeatCount c1)
       then force_answer c1 seen'
       else invoke_all c1 results seen')%client
  end.

(** [while (!finalAnswerGiven)], at most [fuel] iterations. *)
Fixpoint loop (fuel : nat) (c : conversation) (promptResult : value)
    (seen : list nat) : M final :=
    match fuel with
    | O => out_of_fuel
    | S fuel' =>
        (n <- turn c promptResult seen ;;
         match n with
         | Again c' r seen' => loop fuel' c' r seen'
         | Break f => ret f
         end)%client
    end.

(** The [ai] action for one question. *)
Definition ask (fuel : nat) (prompt : string) : M final :=
    let messages := [systemPrompt; user_message prompt] in
    (r <- callAIWithTools messages ;;
     loop fuel
       {| messages := messages; toolCallHistory := [];
          toolCallRepeatCount := 0; lastToolCallSignature := "" |}
       r [])%client.

(** *** The [ai] action of [client.ts]

    The completion API of this client returns a list of content blocks.
    There is no loop: the text blocks are printed, and when the last block
    is a [tool_use] that one tool is called and the conversation is sent
    once more. *)

Definition assistant_blocks (content : value) : value :=
    JObj [("role", JStr "assistant"); ("content", content)].

Definition tool_result_message (tool_use_id content : value) : value :=
    JObj [("role", JStr "user");
          ("content",
           JArr [JObj [("type", JStr "tool_result");
                       ("tool_use_id", tool_use_id);
                       ("content", content)]])].

(** [for (const tool of blocks) if (tool.type === "text") console.log(tool.text)] *)
Fixpoint print_texts (blocks : list value) : M unit :=
    match blocks with
    | [] => ret tt
    | tool :: rest =>
        (ty <- lift (JS.prop tool "type") ;;
         (if JS.is_str ty "text"
          then (t <- lift (JS.prop tool "text") ;; print (Said t))
          else ret tt) ;;
         print_texts rest)%client
    end.

(** Lines 209 to 258 of [client.ts]; the result is [messages] as the
      action leaves it. *)
Definition ask_once (prompt : string) : M (list value) :=
    let messages := [user_message prompt] in
    (promptResult <- callAIWithTools messages ;;
     let messages := messages ++ [assistant_blocks promptResult] in
     blocks <- lift (JS.iterate promptResult) ;;
     print_texts blocks ;;
     (* promptResult[promptResult.length - 1] *)
     let toolUse := List.last blocks JUndef in
     ty <- lift (JS.prop toolUse "type") ;;
     if JS.is_str ty "tool_use" then
       n <- lift (JS.prop toolUse "name") ;;
       lift (JS.to_string n) ;;
       input <- lift (JS.prop toolUse "input") ;;
       print (Requesting n input) ;;
       r <- send "tools/call" (JObj [("name", n); ("arguments", input)]) false ;;
       content <- lift (JS.prop r "content") ;;
       id <- lift (JS.prop toolUse "id") ;;
       item <- lift (JS.first content) ;;
       text <- lift (JS.prop item "text") ;;
       let messages := messages ++ [tool_result_message id text] in
       followupResult <- callAIWithTools messages ;;
       followups <- lift (JS.iterate followupResult) ;;
       print_texts followups ;;
       ret messages
     else ret messages)%client.

End Session.

Arguments lastId {R} w.
Arguments srv {R} w.
Arguments pipe {R} w.
Arguments sent {R} w.
Arguments received {R} w.
Arguments asked {R} w.
Arguments console {R} w.
Arguments Build_world {R} lastId srv pipe sent received asked console.
Arguments next_id {R} w.
Arguments write {R} remote l w.
Arguments question {R} w.
Arguments send {R} remote method params isNotification w.
Arguments sends {R} remote script w.
Arguments callAIWithTools {R} callAI messages w.
Arguments bootstrap {R} remote w.
Arguments bootstraps {R} remote n w.
Arguments run_tool_call {R} remote JSON_parse c toolCall w.
Arguments run_tool_calls {R} remote JSON_parse c results w.
Arguments force_answer {R} callAI c1 seen' w.
Arguments invoke_all {R} remote callAI JSON_parse c1 results seen' w.
Arguments turn {R} remote callAI JSON_parse c promptResult seen w.
Arguments loop {R} remote callAI JSON_parse fuel c promptResult seen w.
Arguments out_of_fuel {R A} w.
Arguments ask {R} remote callAI JSON_parse fuel prompt w.
Arguments print_texts {R} blocks w.
Arguments ask_once {R} remote callAI prompt w.
Arguments ret {R A} a w.
Arguments bind {R A B} m k w.
Arguments lift {R A} r w.
Arguments print {R} e w.

End Client.

(** ** Name matching as the documentation words it

    Two names match when they are equal without regard to case once every
    character that is not a letter or a digit has been removed from both. *)

Module Spec.

Definition is_digit (c : ascii) : bool :=
  let n := nat_of_ascii c in Nat.leb 48 n && Nat.leb n 57.

Definition is_upper (c : ascii) : bool :=
  let n := nat_of_ascii c in Nat.leb 65 n && Nat.leb n 90.

Definition is_lower (c : ascii) : bool :=
  let n := nat_of_ascii c in Nat.leb 97 n && Nat.leb n 122.

Definition alphanumeric (c : ascii) : bool :=
  is_digit c || is_upper c || is_lower c.

Definition fold_case (c : ascii) : ascii :=
  if is_upper c then ascii_of_nat (nat_of_ascii c + 32) else c.

Fixpoint alphanumerics (s : string) : string :=
  match s with
  | EmptyString => EmptyString
  | String c r =>
      if alphanumeric c then String c (alphanumerics r) else alphanumerics r
  end.

Fixpoint equal_ignoring_case (a b : string) : bool :=
  match a, b with
  | EmptyString, EmptyString => true
  | String x a', String y b' =>
      Ascii.eqb (fold_case x) (fold_case y) && equal_ignoring_case a' b'
  | _, _ => false
  end.

Definition same_name (a b : string) : bool :=
  equal_ignoring_case (alphanumerics a) (alphanumerics b).

Fixpoint map_string (f : ascii -> ascii) (s : string) : string :=
  match s with
  | EmptyString => EmptyString
  | String c r => String (f c) (map_string f r)
  end.

(** The text [getDrinkInfo] is to answer for a name: the record of the
    first drink the name matches, or the not-found document. *)
Definition not_found_text : value :=
  JSON.stringify (JObj [("error", JStr "Drink not found")]).

Definition lookup_text (ds : list Server.Drink) (s : string) : value :=
  match find (fun d => same_name (Server.name d) s) ds with
  | Some d => JSON.stringify (Server.drink_value d)
  | None => not_found_text
  end.


(** The two texts as they appear on the wire. *)
Definition not_found_literal : string :=
  ("{" ++ JSON.quote "error" ++ ":" ++ JSON.quote "Drink not found" ++ "}")%string.


End Spec.

(** The line a call writes, and the one a notification writes. *)
Definition call_line (id : nat) (method : string) (params : value) : line :=
  write_json (request (JNum (Z.of_nat id)) method params).

Definition notification_line (method : string) (params : value) : line :=
  write_json (request JUndef method params).

(** A session that has not sent anything yet. *)
Definition fresh {R : Type} (s : R) : Client.world R :=
  {| Client.lastId := 0; Client.srv := s; Client.pipe := [];
     Client.sent := []; Client.received := []; Client.asked := [];
     Client.console := [] |}.

(** The identifier a line carries, when it carries an integer one. *)
Definition id_of (l : line) : option Z :=
  match l with
  | Json doc =>
      match JS.prop doc "id" with
      | inr (JNum z) => Some z
      | _ => None
      end
  | Text _ => None
  end.

Fixpoint ids_of (ls : list line) : list Z :=
  match ls with
  | [] => []
  | l :: rest =>
      match id_of l with
      | Some z => z :: ids_of rest
      | None => ids_of rest
      end
  end.

(** A script of calls only. *)
Definition calls (requests : list (string * value)) : list (string * value * bool) :=
  map (fun r => (fst r, snd r, false)) requests.

Fixpoint call_lines (id : nat) (requests : list (string * value)) : list line :=
  match requests with
  | [] => []
  | (method, params) :: rest =>
      call_line id method params :: call_lines (S id) rest
  end.

(** The requests written, the lines read and the values returned match up
    one to one: each line read is a response envelope with the identifier
    of the request written, and the value returned is its [result]. *)
Inductive Correlated : list line -> list line -> list value -> Prop :=
| Correlated_nil : Correlated [] [] []
| Correlated_cons (l : line) (doc v : value) (id : Z)
    (ls rs : list line) (vs : list value) :
    id_of l = Some id ->
    JS.prop doc "id" = ok (JNum id) ->
    JS.prop doc "result" = ok v ->
    Correlated ls rs vs ->
    Correlated (l :: ls) (Json doc :: rs) (v :: vs).

(** A request the server answers with exactly one line of JSON. *)
Definition answered (st : Server.store) (r : string * value) : Prop :=
  forall id, exists doc,
    Server.stdout (Server.on_line st (call_line id (fst r) (snd r))) = [Json doc].

(** A remote that answers every line with a JSON-RPC error envelope. *)
Definition refusing (s : unit) (l : line) : unit * list line :=
  (s, [Json (JObj [("jsonrpc", JStr "2.0"); ("id", JNum 0);
                   ("error", JObj [("code", JNum (-32601));
                                   ("message", JStr "Method not found")])])]).

(** Every JSON line among [o] is a response with identifier [id]. *)
Definition echoes (id : value) (o : list line) : Prop :=
  Forall (fun l => match l with
                   | Json doc => exists r, doc = response id r
                   | Text _ => True
                   end) o.

(** What the server's output for one request line looks like to a reader of
    lines: nothing, a single document, or text first. *)
Definition single_reply (o : list line) : Prop :=
  match o with
  | [] => True
  | Json _ :: rest => rest = []
  | Text _ :: _ => True
  end.

(** The identifiers sent so far are 0, 1, 2, ... up to [lastId], in the
    order they were sent. *)
Definition numbered {R : Type} (w : Client.world R) : Prop :=
  ids_of (Client.sent w) = map Z.of_nat (seq 0 (Client.lastId w)).

(** The catalogs a store gives rise to, as the client reads them. *)
Definition catalog_of (st : Server.store) : Client.catalog :=
  {| Client.serverInfo := Server.serverInfo;
     Client.tools :=
       JArr (map JSON.wire (map Server.tool_entry (Server.tools st)));
     Client.resources :=
       JArr (map JSON.wire (map Server.resource_entry (Server.resources st))) |}.

(** A remote whose second answer comes behind a line that is not JSON. *)
Definition garbled (n : nat) (l : line) : nat * list line :=
  (S n,
   match n with
   | O => [Json (response (JNum 0) (JObj []))]
   | _ => [Text "oops"; Json (response (JNum (Z.of_nat n)) (JObj []))]
   end).

Definition sample_requests : list (string * value) :=
  [("initialize", JObj []);
   ("tools/list", JObj []);
   ("tools/call", JObj [("name", JStr "getDrinkNames"); ("arguments", JObj [])]);
   ("ping", JObj [])].

(** ** Vocabulary for the tool-invocation loop *)

Definition get_or_undefined (r : res value) : value :=
  match r with
  | inr v => v
  | inl _ => JUndef
  end.

(** An item of a turn the loop invokes: its [type] is [function] or
    [tool_use]. *)
Definition callable (tc : value) : bool :=
  match JS.prop tc "type" with
  | inr ty => Client.is_tool_call ty
  | inl _ => false
  end.

(** The [params] of the [tools/call] the loop issues for an item, and the
    identifier of the item. *)
Definition call_params (tc : value) : value :=
  JObj [("name", get_or_undefined (Client.call_name tc));
        ("arguments", get_or_undefined (Client.call_arguments tc))].

Definition call_id (tc : value) : value := get_or_undefined (JS.prop tc "id").

Definition planned_calls (results : list value) : list value :=
  map call_params (filter callable results).

Definition invocations (ps : list value) : list (string * value) :=
  map (fun p => ("tools/call", p)) ps.

(** Between [w] and [w'] the client wrote exactly the [tools/call] requests
    with parameters [ps], in this order. *)
Definition trace {R : Type} (w w' : Client.world R) (ps : list value) : Prop :=
  Client.sent w' = Client.sent w ++ call_lines (Client.lastId w) (invocations ps)
  /\ Client.lastId w' = Client.lastId w + List.length ps.

Definition prefix {A : Type} (l1 l2 : list A) : Prop :=
  exists rest, l2 = l1 ++ rest.

(** The text of the first content item of a reply line. *)
Definition reply_text (l : line) : res value :=
  (doc <- parse_line l ;;
   r <- JS.prop doc "result" ;;
   content <- JS.prop r "content" ;;
   item <- JS.first content ;;
   JS.prop item "text")%res.

(** A remote that, in every state satisfying [ready], answers a
    [tools/call] with parameters [p] under whatever identifier with a single
    line whose first content item carries a string, and stays [ready]. *)
Definition answers_with_text {R : Type} (remote : R -> line -> R * list line)
  (ready : R -> Prop) (p : value) : Prop :=
  forall s id, ready s ->
    exists s' reply t,
      remote s (call_line id "tools/call" p) = (s', [reply])
      /\ reply_text reply = ok (JStr t)
      /\ ready s'.

(** What a reply line contributes to the conversation. *)
Definition result_string (JSON_parse : string -> option value) (l : line) : value :=
  Client.toolResultString JSON_parse (get_or_undefined (reply_text l)).

(** The tool-role messages for the items invoked and the lines read for
    them. *)
Definition tool_messages (JSON_parse : string -> option value)
  (items : list value) (replies : list line) : list value :=
  map (fun x => Client.tool_message (call_id (fst x))
                  (result_string JSON_parse (snd x)))
      (combine items replies).

(** The for-loop over a turn's items went through: one line was read for
    each item invoked, and each contributed its result string to the
    history and a tool-role message with the item's identifier to the
    conversation, in order. *)
Definition tool_calls_done {R : Type} (JSON_parse : string -> option value)
  (c c' : Client.conversation) (w w' : Client.world R) (items : list value)
  : Prop :=
  exists replies,
    Client.received w' = Client.received w ++ replies
    /\ List.length replies = List.length items
    /\ Client.toolCallHistory c'
       = Client.toolCallHistory c ++ map (result_string JSON_parse) replies
    /\ Client.messages c'
       = Client.messages c ++ tool_messages JSON_parse items replies
    /\ Client.toolCallRepeatCount c' = Client.toolCallRepeatCount c
    /\ Client.lastToolCallSignature c' = Client.lastToolCallSignature c.

(** An item whose part of the signature can be computed: it has a name and
    arguments that convert to strings. *)
Definition well_formed (tc : value) : Prop :=
  exists s, Client.signature_part tc = ok s.

Definition string_reply (l : line) : Prop :=
  exists t, reply_text l = ok (JStr t).

Definition is_string (v : value) : Prop := exists s, v = JStr s.

(** A completion that is not the final text. *)
Definition not_text (v : value) : Prop := forall s, v <> JStr s.

Definition is_text (v : value) : bool :=
  match v with
  | JStr _ => true
  | _ => false
  end.

(** The world once a conversation has been sent for completion, and once an
    event has been printed. *)
Definition asked_more {R : Type} (w : Client.world R) (messages : list value)
  : Client.world R :=
  {| Client.lastId := Client.lastId w; Client.srv := Client.srv w;
     Client.pipe := Client.pipe w; Client.sent := Client.sent w;
     Client.received := Client.received w;
     Client.asked := messages :: Client.asked w;
     Client.console := Client.console w |}.

Definition printed {R : Type} (w : Client.world R) (e : event) : Client.world R :=
  {| Client.lastId := Client.lastId w; Client.srv := Client.srv w;
     Client.pipe := Client.pipe w; Client.sent := Client.sent w;
     Client.received := Client.received w; Client.asked := Client.asked w;
     Client.console := Client.console w ++ [e] |}.

(** The final answer goes to the console when it is text. *)
Definition announced {R : Type} (w : Client.world R) (r : value) : Client.world R :=
  match r with
  | JStr s => printed w (Answer s)
  | _ => w
  end.

(** The loop was left through the guard: the repeat count had reached 2,
    the conversation ends with the assistant message of the turn, which
    holds [entries], and the
    synthetic user message summarising the tool results so far, that
    conversation is the last one sent for completion, and what came back is
    the result, final whether it is text or not. *)
Definition forced_stop {R : Type} (callAI : list (list value) -> res value)
  (entries : list value) (f : Client.final) (w' : Client.world R) : Prop :=
  Client.toolCallRepeatCount (Client.conv f) = 2
  /\ (exists before summary,
        Client.messages (Client.conv f)
        = before ++ [Client.assistant_message entries;
                     Client.summary_message summary]
        /\ JS.join_values Client.newline (Client.toolCallHistory (Client.conv f))
           = ok summary)
  /\ (exists earlier,
        Client.asked w' = Client.messages (Client.conv f) :: earlier
        /\ callAI (Client.messages (Client.conv f) :: earlier)
           = ok (Client.promptResult f))
  /\ Client.finalAnswerGiven f = is_text (Client.promptResult f).

(** The remote answers the calls of [results], the completion client always
    answers, nothing is waiting to be read, and the history so far holds
    strings. *)
Definition cooperative {R : Type} (remote : R -> line -> R * list line)
  (callAI : list (list value) -> res value) (ready : R -> Prop)
  (results : list value) (c : Client.conversation) (w : Client.world R) : Prop :=
  Client.pipe w = []
  /\ ready (Client.srv w)
  /\ Forall is_string (Client.toolCallHistory c)
  /\ (forall p, In p (planned_calls results) -> answers_with_text remote ready p)
  /\ (forall log, exists r, callAI log = ok r).

(** The [params] of the [tools/call] that [client.ts] issues for a
    [tool_use] block. *)
Definition tool_use_params (toolUse : value) : value :=
  JObj [("name", get_or_undefined (JS.prop toolUse "name"));
        ("arguments", get_or_undefined (JS.prop toolUse "input"))].

(** The conversation a question starts with. *)
Definition initial_messages (prompt : string) : list value :=
  [Client.systemPrompt; Client.user_message prompt].

Definition initial_conversation (prompt : string) : Client.conversation :=
  {| Client.messages := initial_messages prompt;
     Client.toolCallHistory := [];
     Client.toolCallRepeatCount := 0;
     Client.lastToolCallSignature := "" |}.

(** The calls of a whole script of turns, in order. *)
Definition scripted_calls (script : list value) : list value :=
  List.concat (map (fun r => planned_calls (Client.results_of r)) script).

(** Each turn of a script with its signature. *)
Definition signatures_of (script : list value) (sigs : list string) : Prop :=
  Forall2 (fun r sig => Client.toolCallSignature (Client.results_of r) = ok sig)
    script sigs.

(** ** A decoder for JSON text

    The loop's properties hold for every [JSON_parse]; this one
    instantiates them.  It reads JSON whose numbers are integers, whose
    escapes stay below code unit 256 and whose objects have no keys that are
    array indices (those [JSON.parse] would list first); the sample
    sessions give it no other text. *)

Module Decoder.

Definition is_space (c : ascii) : bool :=
  let n := nat_of_ascii c in
  Nat.eqb n 32 || Nat.eqb n 9 || Nat.eqb n 10 || Nat.eqb n 13.

Fixpoint skip (s : string) : string :=
  match s with
  | String c r => if is_space c then skip r else s
  | EmptyString => s
  end.

Definition digit (c : ascii) : option Z :=
  let n := nat_of_ascii c in
  if Nat.leb 48 n && Nat.leb n 57 then Some (Z.of_nat (n - 48)) else None.

Definition hex (c : ascii) : option nat :=
  let n := nat_of_ascii c in
  if Nat.leb 48 n && Nat.leb n 57 then Some (n - 48)
  else if Nat.leb 97 n && Nat.leb n 102 then Some (n - 87)
  else if Nat.leb 65 n && Nat.leb n 70 then Some (n - 55)
  else None.

Fixpoint digits (s : string) (acc : Z) : Z * string :=
  match s with
  | String c r =>
      match digit c with
      | Some d => digits r (10 * acc + d)
      | None => (acc, s)
      end
  | EmptyString => (acc, s)
  end.

(** No fraction and no exponent may follow. *)
Definition integer_end (s : string) : bool :=
  match s with
  | String c _ =>
      let n := nat_of_ascii c in
      negb (Nat.eqb n 46 || Nat.eqb n 101 || Nat.eqb n 69)
  | EmptyString => true
  end.

Definition starts_with_digit (s : string) : bool :=
  match s with
  | String c _ => match digit c with Some _ => true | None => false end
  | EmptyString => false
  end.

(** Digits without a leading zero, or a single zero. *)
Definition natural (s : string) : option (Z * string) :=
  match s with
  | String c r =>
      match digit c with
      | Some d =>
          if Z.eqb d 0 && starts_with_digit r then None
          else
            let (z, rest) := digits r d in
            if integer_end rest then Some (z, rest) else None
      | None => None
      end
  | EmptyString => None
  end.

(** The characters of a string literal behind its opening quote. *)
Fixpoint literal (s : string) : option (string * string) :=
  match s with
  | EmptyString => None
  | String c r =>
      let n := nat_of_ascii c in
      if Nat.eqb n 34 then Some (EmptyString, r)
      else if Nat.ltb n 32 then None
      else if Nat.eqb n 92 then
        match r with
        | String e r' =>
            let m := nat_of_ascii e in
            let plain (x : ascii) :=
              match literal r' with
              | Some (t, rest) => Some (String x t, rest)
              | None => None
              end in
            if Nat.eqb m 34 || Nat.eqb m 92 || Nat.eqb m 47 then plain e
            else if Nat.eqb m 98 then plain (ascii_of_nat 8)
            else if Nat.eqb m 102 then plain (ascii_of_nat 12)
            else if Nat.eqb m 110 then plain (ascii_of_nat 10)
            else if Nat.eqb m 114 then plain (ascii_of_nat 13)
            else if Nat.eqb m 116 then plain (ascii_of_nat 9)
            else if Nat.eqb m 117 then
              match r' with
              | String h1 (String h2 (String h3 (String h4 r''))) =>
                  match hex h1, hex h2, hex h3, hex h4 with
                  | Some 0, Some 0, Some a, Some b =>
                      match literal r'' with
                      | Some (t, rest) =>
                          Some (String (ascii_of_nat (16 * a + b)) t, rest)
                      | None => None
                      end
                  | _, _, _, _ => None
                  end
              | _ => None
              end
            else None
        | EmptyString => None
        end
      else
        match literal r with
        | Some (t, rest) => Some (String c t, rest)
        | None => None
        end
  end.

(** A later member of the same name replaces the earlier one in place. *)
Fixpoint set_field (k : string) (v : value) (fields : list (string * value))
  : list (string * value) :=
  match fields with
  | [] => [(k, v)]
  | (k', v') :: rest =>
      if String.eqb k' k then (k, v) :: rest else (k', v') :: set_field k v rest
  end.

Definition keyword (word : string) (v : value) (s : string)
  : option (value * string) :=
  if String.prefix word s
  then Some (v, String.substring (String.length word)
                  (String.length s - String.length word) s)
  else None.

Fixpoint parse (fuel : nat) (s : string) : option (value * string) :=
  match fuel with
  | O => None
  | S fuel' =>
      match skip s with
      | EmptyString => None
      | String c r =>
          let n := nat_of_ascii c in
          if Nat.eqb n 123 then
            match skip r with
            | String c' r' =>
                if Nat.eqb (nat_of_ascii c') 125 then Some (JObj [], r')
                else
                  match members fuel' (skip r) [] with
                  | Some (fields, rest) => Some (JObj fields, rest)
                  | None => None
                  end
            | EmptyString => None
            end
          else if Nat.eqb n 91 then
            match skip r with
            | String c' r' =>
                if Nat.eqb (nat_of_ascii c') 93 then Some (JArr [], r')
                else
                  match elements fuel' r with
                  | Some (items, rest) => Some (JArr items, rest)
                  | None => None
                  end
            | EmptyString => None
            end
          else if Nat.eqb n 34 then
            match literal r with
            | Some (t, rest) => Some (JStr t, rest)
            | None => None
            end
          else if Nat.eqb n 45 then
            match natural r with
            | Some (z, rest) => Some (JNum (- z), rest)
            | None => None
            end
          else if Nat.eqb n 116 then keyword "true" (JBool true) (String c r)
          else if Nat.eqb n 102 then keyword "false" (JBool false) (String c r)
          else if Nat.eqb n 110 then keyword "null" JNull (String c r)
          else
            match natural (String c r) with
            | Some (z, rest) => Some (JNum z, rest)
            | None => None
            end
      end
  end

with elements (fuel : nat) (s : string) : option (list value * string) :=
  match fuel with
  | O => None
  | S fuel' =>
      match parse fuel' s with
      | Some (v, rest) =>
          match skip rest with
          | String c r =>
              let n := nat_of_ascii c in
              if Nat.eqb n 93 then Some ([v], r)
              else if Nat.eqb n 44 then
                match elements fuel' r with
                | Some (vs, rest') => Some (v :: vs, rest')
                | None => None
                end
              else None
          | EmptyString => None
          end
      | None => None
      end
  end

with members (fuel : nat) (s : string) (acc : list (string * value))
  : option (list (string * value) * string) :=
  match fuel with
  | O => None
  | S fuel' =>
      match s with
      | String q r =>
          if Nat.eqb (nat_of_ascii q) 34 then
            match literal r with
            | Some (k, rest) =>
                match skip rest with
                | String colon rest1 =>
                    if Nat.eqb (nat_of_ascii colon) 58 then
                      match parse fuel' rest1 with
                      | Some (v, rest2) =>
                          let acc' := set_field k v acc in
                          match skip rest2 with
                          | String c r' =>
                              let n := nat_of_ascii c in
                              if Nat.eqb n 125 then Some (acc', r')
                              else if Nat.eqb n 44
                              then members fuel' (skip r') acc'
                              else None
                          | EmptyString => None
                          end
                      | None => None
                      end
                    else None
                | EmptyString => None
                end
            | None => None
            end
          else None
      | EmptyString => None
      end
  end.

Definition JSON_parse (s : string) : option value :=
  match parse (2 * String.length s + 2) s with
  | Some (v, rest) =>
      match skip rest with
      | EmptyString => Some v
      | _ => None
      end
  | None => None
  end.

End Decoder.

(** ** Sample sessions *)

Module Sample.

(** Tool-call items as the completion API returns them. *)
Definition tool_call (id name arguments : string) : value :=
  JObj [("id", JStr id); ("type", JStr "function");
        ("function", JObj [("name", JStr name); ("arguments", JStr arguments)])].

Definition names_call : value := tool_call "call_1" "getDrinkNames" "{}".
Definition names_again : value := tool_call "call_2" "getDrinkNames" "{ }".
Definition text_item : value :=
  JObj [("type", JStr "text"); ("text", JStr "Let me look that up.")].

Definition question : string := "What kinds of drinks do you have?".
Definition answer : string := "We offer Latte, Mocha and Flat White.".

(** A completion client that keeps asking for the same tool call. *)
Definition stubborn (log : list (list value)) : res value :=
  ok (JArr [names_call]).

(** A completion client that plays a script, then answers. *)
Definition script : list value := [JArr [names_call]; JArr [text_item; names_again]].

Definition scripted (log : list (list value)) : res value :=
  ok (nth (List.length log - 1) script (JStr answer)).

(** A completion client that answers at once. *)
Definition direct (log : list (list value)) : res value := ok (JStr answer).

(** Content blocks as the completion API of [client.ts] returns them, and a
    completion client that asks for two tools at once, then answers. *)
Definition tool_use (id name : string) (input : value) : value :=
  JObj [("type", JStr "tool_use"); ("id", JStr id); ("name", JStr name);
        ("input", input)].

Definition two_uses : value :=
  JArr [text_item;
        tool_use "toolu_1" "getDrinkNames" (JObj []);
        tool_use "toolu_2" "getDrinkNames" (JObj [("all", JBool true)])].

Definition eager (log : list (list value)) : res value :=
  match log with
  | [_] => ok two_uses
  | _ => ok (JArr [JObj [("type", JStr "text"); ("text", JStr answer)]])
  end.

(** The server of the repository with its lists as they are at start. *)
Definition at_start (st : Server.store) : Prop := st = Server.initial_store.

End Sample.

(** ** More of the server, the client and the completion call

    The vocabulary and the models of the code that the second part of the
    properties is about. *)

(** The result of [resources/read] for the menu, and the object the server
    sends for a resource it does not have. *)
Definition menu_contents : value :=
  JObj [("contents",
         JArr [JObj [("uri", JStr "menu://app");
                     ("text",
                      JStr (JSON.text
                              (JArr (map Server.drink_value Server.the_drinks))))]])].

Definition resource_error : value :=
  JObj [("error",
         JObj [("code", JNum (-32602)); ("message", JStr "Resource not found")])].

(** What handling a request comes to: it fails with nothing written, it is
    passed over, or it is answered once, after the debug text if any. *)
Inductive handled_as (json : value) : proc unit -> Prop :=
| Failed (e : exn) : handled_as json ([], inl e)
| Ignored : handled_as json ([], ok tt)
| Answered (debug : list string) (id r : value) :
    JS.prop json "id" = ok id ->
    handled_as json (map Text debug ++ [Json (response id r)], ok tt).

(** The parameters of the [initialize] call. *)
Definition handshake : value :=
  JObj [("protocolVersion", JStr "2025-03-26");
        ("capabilities", JObj []);
        ("clientInfo",
         JObj [("name", JStr "diy-client"); ("version", JStr "0.1.0")])].

(** A remote that answers every line with the given [result]. *)
Definition answering (result : value) (s : unit) (l : line) : unit * list line :=
  (s, [Json (JObj [("result", result); ("jsonrpc", JStr "2.0"); ("id", JNum 0)])]).

(** A value that has properties: neither [undefined] nor [null]. *)
Definition has_properties (v : value) : Prop := v <> JUndef /\ v <> JNull.

(** No entry of the list is followed by two more like it. *)
Fixpoint no_three_in_a_row (l : list string) : Prop :=
  match l with
  | [] => True
  | a :: t =>
      match t with
      | b :: c :: _ => ~ (a = b /\ b = c)
      | _ => True
      end /\ no_three_in_a_row t
  end.

(** The guard's two counters against the signatures still to come. *)
Definition within_guard (c : Client.conversation) (sigs : list string) : Prop :=
  (Client.toolCallRepeatCount c = 0
   /\ no_three_in_a_row (Client.lastToolCallSignature c :: sigs))
  \/ (Client.toolCallRepeatCount c = 1
      /\ no_three_in_a_row
           (Client.lastToolCallSignature c :: Client.lastToolCallSignature c :: sigs)).

(** ** Own property keys

    [Object.keys] and the object spread list the own properties of a value:
    the array indices in ascending order first, then the other keys in the
    order they were created. *)

Module Keys.

Definition digit_of (c : ascii) : option N :=
  let n := nat_of_ascii c in
  if Nat.leb 48 n && Nat.leb n 57 then Some (N.of_nat (n - 48)) else None.

Fixpoint number_of (s : string) (acc : N) : option N :=
  match s with
  | EmptyString => Some acc
  | String c r =>
      match digit_of c with
      | Some d => number_of r (10 * acc + d)
      | None => None
      end
  end.

(** An array index: the canonical decimal text of an integer below
    [2^32 - 1]. *)
Definition array_index (k : string) : option N :=
  match k with
  | EmptyString => None
  | String c r =>
      if Ascii.eqb c "0"
      then match r with EmptyString => Some 0%N | _ => None end
      else match number_of k 0 with
           | Some n => if N.ltb n 4294967295 then Some n else None
           | None => None
           end
  end.

Fixpoint insert_index (n : N) (k : string) (l : list (N * string))
  : list (N * string) :=
  match l with
  | [] => [(n, k)]
  | (m, j) :: r =>
      if N.leb n m then (n, k) :: l else (m, j) :: insert_index n k r
  end.

(** The keys of a property list, each once, where it first occurs. *)
Fixpoint first_of_each (ks seen : list string) : list string :=
  match ks with
  | [] => []
  | k :: r =>
      if existsb (String.eqb k) seen then first_of_each r seen
      else k :: first_of_each r (k :: seen)
  end.

Definition is_index (k : string) : bool :=
  match array_index k with Some _ => true | None => false end.

Definition own_keys (fields : list (string * value)) : list string :=
  let ks := first_of_each (map fst fields) [] in
  let indices :=
    fold_right (fun k acc => match array_index k with
                             | Some n => insert_index n k acc
                             | None => acc
                             end) [] ks in
  map snd indices ++ filter (fun k => negb (is_index k)) ks.

Definition index_keys (n : nat) : list string :=
  map (fun i => JS.num_to_string (Z.of_nat i)) (seq 0 n).

(** [Object.keys(v)] *)
Definition keys (v : value) : res (list string) :=
  match v with
  | JUndef | JNull => throw TypeError
  | JObj fields => ok (own_keys fields)
  | JArr items => ok (index_keys (List.length items))
  | JStr s => ok (index_keys (String.length s))
  | _ => ok []
  end.

(** [v[k]] for an own key [k] of [v]. *)
Definition element (v : value) (k : string) : value :=
  match v with
  | JObj fields => JS.lookup k fields
  | JArr items =>
      match array_index k with
      | Some n => nth (N.to_nat n) items JUndef
      | None => JUndef
      end
  | JStr s =>
      match array_index k with
      | Some n => match String.get (N.to_nat n) s with
                  | Some c => JStr (String c "")
                  | None => JUndef
                  end
      | None => JUndef
      end
  | _ => JUndef
  end.

(** [fields[k] = v] on a property list. *)
Fixpoint set_own (k : string) (v : value) (fields : list (string * value))
  : list (string * value) :=
  match fields with
  | [] => [(k, v)]
  | (k', v') :: r =>
      if String.eqb k' k then (k, v) :: r else (k', v') :: set_own k v r
  end.

(** The properties of an object in the order [JSON.stringify] writes them. *)
Definition ordered (fields : list (string * value)) : list (string * value) :=
  map (fun k => (k, JS.lookup k fields)) (own_keys fields).

(** [{...target, ...source}]: [undefined] and [null] spread to nothing. *)
Definition spread (target : list (string * value)) (source : value)
  : list (string * value) :=
  match keys source with
  | inl _ => ordered target
  | inr ks =>
      ordered (fold_left (fun acc k => set_own k (element source k) acc) ks target)
  end.

End Keys.

(** ** The [tool] and [resource] actions and [dumpContent]

    These are the same in [client.ts] and [client_open_ai.ts].  The user is
    the two prompts: [select], which gives back the value of the option
    picked, and [text], which gives back what was typed; each gives nothing
    when the user cancels, and the program exits. *)

Inductive finished : Type :=
| Returned   (* the action ran to its end *)
| Exited.    (* [process.exit(0)] after a cancelled prompt *)

Module Actions.
Section Session.

Variable R : Type.
Variable remote : R -> line -> R * list line.
Variable JSON_parse : string -> option value.
Variable select : string -> list (value * value) -> option value.
Variable text : string -> option value.

Notation "x <- m ;; k" := (Client.bind m (fun x => k))
  (at level 61, m at next level, right associativity).
Notation "m ;; k" := (Client.bind m (fun _ => k))
  (at level 61, right associativity).

(** [JSON.parse(line.text)], with what it can throw. *)
Definition parsed_text (line : value) : res value :=
  (t <- JS.prop line "text" ;;
   s <- JS.to_string t ;;
   match JSON_parse s with
   | Some v => ok v
   | None => throw SyntaxError
   end)%res.

(** The body of the loop in [dumpContent]. *)
Definition dump_line (line : value) : Client.M R unit :=
  match parsed_text line with
  | inr parsed => Client.print (Said parsed)
  | inl _ =>
      t <- Client.lift (JS.prop line "text") ;;
      Client.print (Said t)
  end.

Fixpoint dump_lines (lines : list value) : Client.M R unit :=
  match lines with
  | [] => Client.ret tt
  | line :: rest => dump_line line ;; dump_lines rest
  end.

Definition dumpContent (content : value) : Client.M R unit :=
  lines <- Client.lift (JS.iterate content) ;;
  dump_lines lines.

(** [items.map((item) => ({ value: item, label: item.name }))] *)
Definition labelled (items : value) : res (list (value * value)) :=
  match items with
  | JArr l =>
      Client.mapM (fun item => (label <- JS.prop item "name" ;; ok (item, label))%res) l
  | _ => throw TypeError
  end.

(** [tool?.inputSchema.properties ?? {}] *)
Definition schema_properties (tool : value) : res value :=
  match tool with
  | JUndef | JNull => ok (JObj [])
  | _ =>
      (schema <- JS.prop tool "inputSchema" ;;
       properties <- JS.prop schema "properties" ;;
       ok (match properties with
           | JUndef | JNull => JObj []
           | _ => properties
           end))%res
  end.

(** [properties?.[key]?.type === "string"] *)
Definition string_typed (properties : value) (key : string) : bool :=
  match JS.opt_prop (Keys.element properties key) "type" with
  | inr ty => JS.is_str ty "string"
  | inl _ => false
  end.

(** [args[key] = answer]; the key [__proto__] names no own property. *)
Definition assign (args : list (string * value)) (key : string) (answer : value)
  : list (string * value) :=
  if String.eqb key "__proto__" then args else Keys.set_own key answer args.

(** The prompts for the arguments, one for each key; nothing when one of
    them is cancelled. *)
Fixpoint ask_arguments (keys : list string) (args : list (string * value))
  : option (list (string * value)) :=
  match keys with
  | [] => Some args
  | key :: rest =>
      match text (key ++ ":") with
      | None => None
      | Some answer => ask_arguments rest (assign args key answer)
      end
  end.

(** The [tool] action. *)
Definition tool_action (tools : value) : Client.M R finished :=
  options <- Client.lift (labelled tools) ;;
  match select "Select a tool." options with
  | None => Client.ret Exited
  | Some tool =>
      properties <- Client.lift (schema_properties tool) ;;
      keys <- Client.lift (Keys.keys properties) ;;
      match ask_arguments (filter (string_typed properties) keys) [] with
      | None => Client.ret Exited
      | Some args =>
          name <- Client.lift (JS.prop tool "name") ;;
          r <- Client.send remote "tools/call"
                 (JObj [("name", name); ("arguments", JObj (Keys.ordered args))])
                 false ;;
          content <- Client.lift (JS.prop r "content") ;;
          dumpContent content ;;
          Client.ret Returned
      end
  end.

(** The [resource] action. *)
Definition resource_action (resources : value) : Client.M R finished :=
  options <- Client.lift (labelled resources) ;;
  match select "Select a resource." options with
  | None => Client.ret Exited
  | Some resource =>
      uri <- Client.lift (JS.prop resource "uri") ;;
      r <- Client.send remote "resources/read" (JObj [("uri", uri)]) false ;;
      contents <- Client.lift (JS.prop r "contents") ;;
      dumpContent contents ;;
      Client.ret Returned
  end.

End Session.

Arguments dump_line {R} JSON_parse line w.
Arguments dump_lines {R} JSON_parse lines w.
Arguments dumpContent {R} JSON_parse content w.
Arguments tool_action {R} remote JSON_parse select text tools w.
Arguments resource_action {R} remote JSON_parse select resources w.

End Actions.

(** ** The completion call of [client_open_ai.ts]

    [callAI] and [callAIWithTools], over the two things they take from
    outside: the environment variable with the API key, and [fetch], by
    what the API answers to a key and a request body. *)

Module OpenAI.

Inductive failure : Type :=
| MissingKey                     (* "OPEN_AI_API_KEY environment variable is not set" *)
| InvalidTool (message : string) (* thrown by the validation of the tools *)
| ApiError (message : string)    (* the API answered with an error status *)
| Raised (e : exn).              (* anything else *)

Definition attempt (A : Type) : Type := (failure + A)%type.

Definition raise {A} (r : res A) : attempt A :=
  match r with
  | inl e => inl (Raised e)
  | inr a => inr a
  end.

Definition abind {A B} (m : attempt A) (k : A -> attempt B) : attempt B :=
  match m with inl e => inl e | inr a => k a end.

Declare Scope attempt_scope.
Delimit Scope attempt_scope with attempt.
Notation "x <- m ;; k" := (abind m (fun x => k))
  (at level 61, m at next level, right associativity) : attempt_scope.

(** What [fetch] resolves to: [response.ok], [response.status], and what
    [response.text()] and [response.json()] give. *)
Record http_response := {
  is_ok : bool;
  status : value;
  body_text : res string;
  body_json : res value
}.

Section Completion.

Variable OPEN_AI_API_KEY : option string.
Variable fetch : string -> string -> res http_response.

Definition index_text (index : nat) : string := JS.num_to_string (Z.of_nat index).

(** The callback of [tools.map] in [callAI]. *)
Definition validate (index : nat) (tool : value) : attempt value :=
  (ty <- raise (JS.prop tool "type") ;;
   if negb (JS.truthy ty) then
     inl (InvalidTool ("Tool at index " ++ index_text index
                         ++ " is missing required 'type' field"))
   else if negb (JS.is_str ty "function") then
     shown <- raise (JS.to_string ty) ;;
     inl (InvalidTool ("Tool at index " ++ index_text index
                         ++ " has invalid type: " ++ shown))
   else
     fn <- raise (JS.prop tool "function") ;;
     if negb (JS.truthy fn) then
       inl (InvalidTool ("Tool at index " ++ index_text index
                           ++ " is missing required 'function' field"))
     else inr tool)%attempt.

Fixpoint validate_from (index : nat) (tools : list value) : attempt (list value) :=
  match tools with
  | [] => inr []
  | tool :: rest =>
      (t <- validate index tool ;;
       ts <- validate_from (S index) rest ;;
       inr (t :: ts))%attempt
  end.

(** [requestBody], with the tools only when there are some. *)
Definition requestBody (messages : list value) (tools : option (list value))
  : attempt value :=
  let base := [("model", JStr "gpt-3.5-turbo");
               ("messages", JArr messages);
               ("max_tokens", JNum 4096)] in
  match tools with
  | Some (tool :: rest) =>
      (validatedTools <- validate_from 0 (tool :: rest) ;;
       inr (JObj (base ++ [("tools", JArr validatedTools);
                           ("tool_choice", JStr "auto")])))%attempt
  | _ => inr (JObj base)
  end.

(** What [callAI] returns from the data of a successful answer. *)
Definition result_of (data : value) : res value :=
  (choices <- JS.prop data "choices" ;;
   choice <- JS.first choices ;;
   finish_reason <- JS.prop choice "finish_reason" ;;
   message <- JS.prop choice "message" ;;
   if JS.is_str finish_reason "tool_calls" then
     tool_calls <- JS.prop message "tool_calls" ;;
     if JS.truthy tool_calls then ok tool_calls else JS.prop message "content"
   else JS.prop message "content")%res.

Definition callAI (messages : list value) (tools : option (list value))
  : attempt value :=
  match OPEN_AI_API_KEY with
  | None | Some EmptyString => inl MissingKey
  | Some key =>
      (body <- requestBody messages tools ;;
       response <- raise (fetch key (JSON.text body)) ;;
       if negb (is_ok response) then
         error <- raise (body_text response) ;;
         code <- raise (JS.to_string (status response)) ;;
         inl (ApiError ("OpenAI API error: " ++ code ++ " - " ++ error))
       else
         data <- raise (body_json response) ;;
         raise (result_of data))%attempt
  end.

(** The tool as [callAIWithTools] hands it to the API. *)
Definition tool_spec (tool : value) : res value :=
  (name <- JS.prop tool "name" ;;
   description <- JS.prop tool "description" ;;
   inputSchema <- JS.prop tool "inputSchema" ;;
   ok (JObj [("type", JStr "function");
             ("function",
              JObj [("name", name);
                    ("description", description);
                    ("parameters",
                     JObj (Keys.spread [("type", JStr "object")] inputSchema))])]))%res.

(** [callAIWithTools], over the catalog the bootstrap fetched. *)
Definition callAIWithTools (tools : value) (messages : list value) : attempt value :=
  match tools with
  | JArr entries =>
      (specs <- raise (Client.mapM tool_spec entries) ;;
       callAI messages (Some specs))%attempt
  | _ => inl (Raised TypeError)
  end.

End Completion.

End OpenAI.

(** What [dumpContent] prints for an item: what its text parses to, or the
    text itself. *)
Definition shown_item (JSON_parse : string -> option value) (line : value) : value :=
  match Actions.parsed_text JSON_parse line with
  | inr parsed => parsed
  | inl _ => get_or_undefined (JS.prop line "text")
  end.

(** The catalog entries of the repository's tools and resource, as the
    bootstrap reads them, and the content item of [getDrinkNames]. *)
Definition names_entry : value := JSON.wire (Server.tool_entry Server.getDrinkNames).
Definition info_entry : value := JSON.wire (Server.tool_entry Server.getDrinkInfo).
Definition menu_entry : value := JSON.wire (Server.resource_entry Server.menu).

Definition names_item : value :=
  JObj [("type", JStr "text");
        ("text",
         JSON.stringify
           (JObj [("names",
                   JArr (map (fun d => JStr (Server.name d)) Server.the_drinks))]))].

Definition menu_item : value :=
  JObj [("uri", JStr "menu://app");
        ("text", JSON.stringify (JArr (map Server.drink_value Server.the_drinks)))].

(** ** More sample sessions *)

Module Cases.
Import Sample.

(** A completion client that plays any script, then answers. *)
Definition replayed (script : list value) (log : list (list value)) : res value :=
  ok (nth (List.length log - 1) script (JStr answer)).

(** The same request twice, another one, and the first one twice again. *)
Definition repeating_script : list value :=
  [JArr [names_call]; JArr [names_call]; JArr [names_again];
   JArr [names_call]; JArr [names_call]].

(** A completion client that asks for two tools in turn, for ever. *)
Definition alternating (log : list (list value)) : res value :=
  ok (if Nat.even (List.length log - 1) then JArr [names_call] else JArr [names_again]).

(** A completion client that returns no content block. *)
Definition silent (log : list (list value)) : res value := ok (JArr []).

(** A request for the record of a drink, its arguments JSON text as the
    completion API returns them. *)
Definition latte_call : value :=
  tool_call "call_3" "getDrinkInfo" (JSON.text (JObj [("name", JStr "Latte")])).

(** Requests as they come off the wire. *)
Definition read_request (uri : string) : value :=
  JObj [("jsonrpc", JStr "2.0"); ("id", JNum 7); ("method", JStr "resources/read");
        ("params", JObj [("uri", JStr uri)])].

Definition old_request (method : string) : value :=
  JObj [("jsonrpc", JStr "1.0"); ("id", JNum 7); ("method", JStr method)].

Definition info_request (arguments : value) : value :=
  JObj [("jsonrpc", JStr "2.0"); ("id", JNum 7); ("method", JStr "tools/call");
        ("params", JObj [("name", JStr "getDrinkInfo"); ("arguments", arguments)])].

(** Results of [initialize]: one without capabilities, one that declares
    none. *)
Definition bare_result : value :=
  JObj [("serverInfo", JObj [("name", JStr "bare"); ("version", JStr "0.0.1")])].

Definition idle_result : value :=
  JObj [("serverInfo", JObj [("name", JStr "idle"); ("version", JStr "0.0.1")]);
        ("capabilities", JObj [])].

(** Users at the prompts: one who takes the first option, one who takes the
    second, and one who types a given text. *)
Definition pick_first (message : string) (options : list (value * value))
  : option value :=
  option_map fst (hd_error options).

Definition pick_second (message : string) (options : list (value * value))
  : option value :=
  option_map fst (hd_error (tl options)).

Definition typed (answer : string) (message : string) : option value :=
  Some (JStr answer).

End Cases.

(** ** What the loop is to do, in terms of what goes over the wire and into
    the conversation

    The requests, the messages and the reformatting, written out without
    the client's own definitions, for the statements about the loop to
    compare the client with. *)

Module Expected.

Definition newline : string := String "010"%char "".

(** [item.k], and [undefined] where there is nothing to read. *)
Definition get (item : value) (k : string) : value :=
  match JS.prop item k with
  | inr v => v
  | inl _ => JUndef
  end.

(** The items of a turn: the completion itself when it is a list, and
    otherwise the list that holds just it. *)
Definition items (completion : value) : list value :=
  match completion with
  | JArr l => l
  | _ => [completion]
  end.

(** An item that asks for a tool: its [type] is [function] or [tool_use]. *)
Definition requested (item : value) : bool :=
  match get item "type" with
  | JStr ty => String.eqb ty "function" || String.eqb ty "tool_use"
  | _ => false
  end.

(** The name and the arguments an item asks for: those of its [function]
    where it has them, its own [name] and [input] otherwise. *)
Definition name_of (item : value) : value :=
  let n := get (get item "function") "name" in
  if JS.truthy n then n else get item "name".

Definition arguments_of (item : value) : value :=
  let a := get (get item "function") "arguments" in
  if JS.truthy a then a else get item "input".

(** [{name, arguments}], and the calls of a list of items, in order. *)
Definition params (item : value) : value :=
  JObj [("name", name_of item); ("arguments", arguments_of item)].

Definition calls (items : list value) : list value :=
  map params (filter requested items).

(** The calls of a whole script of completions, in order. *)
Definition script_calls (script : list value) : list value :=
  List.concat (map (fun r => calls (items r)) script).

(** The line that carries a [tools/call] with parameters [p] under the
    identifier [id], and the lines for a list of calls numbered from [id]. *)
Definition request_line (id : nat) (p : value) : line :=
  write_json (JObj [("jsonrpc", JStr "2.0"); ("method", JStr "tools/call");
                    ("params", p); ("id", JNum (Z.of_nat id))]).

Fixpoint request_lines (id : nat) (ps : list value) : list line :=
  match ps with
  | [] => []
  | p :: rest => request_line id p :: request_lines (S id) rest
  end.

(** A remote that, in every state satisfying [ready], answers the call with
    parameters [p] with one line whose first content item carries a string,
    and stays [ready]. *)
Definition answers {R : Type} (remote : R -> line -> R * list line)
  (ready : R -> Prop) (p : value) : Prop :=
  forall s id, ready s ->
    exists s' reply t,
      remote s (request_line id p) = (s', [reply])
      /\ reply_text reply = ok (JStr t)
      /\ ready s'.

(** The signature of a turn: [name:arguments] of every item, joined by [|]. *)
Definition signature_part (item : value) : res string :=
  (n <- JS.to_string (name_of item) ;;
   a <- JS.to_string (arguments_of item) ;;
   ok (n ++ ":" ++ a)%string)%res.

Fixpoint signature_parts (items : list value) : res (list string) :=
  match items with
  | [] => ok []
  | item :: rest =>
      (p <- signature_part item ;;
       ps <- signature_parts rest ;;
       ok (p :: ps))%res
  end.

Definition signature (items : list value) : res string :=
  (ps <- signature_parts items ;; ok (String.concat "|" ps))%res.

(** The assistant message that records a turn's items. *)
Definition tool_call_entry (item : value) : value :=
  JObj [("id", get item "id"); ("type", get item "type");
        ("function", get item "function")].

Definition assistant_message (items : list value) : value :=
  JObj [("role", JStr "assistant"); ("content", JNull);
        ("tool_calls", JArr (map tool_call_entry items))].

(** The tool-role message for an item and the text that came back for it. *)
Definition tool_message (item content : value) : value :=
  JObj [("role", JStr "tool"); ("tool_call_id", get item "id");
        ("content", content)].

Definition tool_messages (items contents : list value) : list value :=
  map (fun x => tool_message (fst x) (snd x)) (combine items contents).

(** The user message that ends the loop, over the summary of the tool
    results. *)
Definition summary_message (summary : string) : value :=
  JObj [("role", JStr "user");
        ("content",
         JStr ("You have already received all drink information. Here is a summary:"
                 ++ newline ++ summary ++ newline
                 ++ "Please answer the user's question directly."))].

(** The text of a tool result as it is shown and kept: [name: $price -
    description] when the text is JSON for something with those three, all
    of them truthy, and the text itself otherwise. *)
Definition formatted (JSON_parse : string -> option value) (text : string) : value :=
  match JSON_parse text with
  | Some parsed =>
      if JS.truthy parsed && JS.truthy (get parsed "name")
         && JS.truthy (get parsed "price") && JS.truthy (get parsed "description")
      then
        match JS.to_string (get parsed "name"),
              JS.to_string (get parsed "price"),
              JS.to_string (get parsed "description") with
        | inr n, inr p, inr d => JStr (n ++ ": $" ++ p ++ " - " ++ d)
        | _, _, _ => JStr text
        end
      else JStr text
  | None => JStr text
  end.

(** The loop was left through the guard: the repeat count had reached 2,
    the conversation ends with the assistant message for [items] and the
    user message over the summary of the history, that conversation is the
    last one sent for completion, and what came back is the result, final
    whether it is text or not. *)
Definition forced_stop {R : Type} (callAI : list (list value) -> res value)
  (items : list value) (f : Client.final) (w' : Client.world R) : Prop :=
  Client.toolCallRepeatCount (Client.conv f) = 2
  /\ (exists before summary,
        Client.messages (Client.conv f)
        = before ++ [assistant_message items; summary_message summary]
        /\ JS.join_values newline (Client.toolCallHistory (Client.conv f))
           = ok summary)
  /\ (exists earlier,
        Client.asked w' = Client.messages (Client.conv f) :: earlier
        /\ callAI (Client.messages (Client.conv f) :: earlier)
           = ok (Client.promptResult f))
  /\ Client.finalAnswerGiven f = is_text (Client.promptResult f).

End Expected.

(** ** Sample completions for the loop *)

Module Turns.
Import Sample.



(** Three requests that differ in the identifier of the call only, and a
    completion client that returns them one after the other, then answers. *)
Definition relabelled : list value :=
  [JArr [tool_call "call_1" "getDrinkNames" "{}"];
   JArr [tool_call "call_2" "getDrinkNames" "{}"];
   JArr [tool_call "call_3" "getDrinkNames" "{}"]].

Definition relabelling (log : list (list value)) : res value :=
  ok (nth (List.length log - 1) relabelled (JStr answer)).

(** The [tools/call] line for [getDrinkNames], and the line the server
    answers it with. *)
Definition names_request (id : Z) (arguments : value) : line :=
  Json (JObj [("jsonrpc", JStr "2.0"); ("method", JStr "tools/call");
              ("params", JObj [("name", JStr "getDrinkNames");
                               ("arguments", arguments)]);
              ("id", JNum id)]).

Definition names_text : string :=
  JSON.text (JObj [("names", JArr [JStr "Latte"; JStr "Mocha"; JStr "Flat White"])]).

Definition names_reply (id : Z) : line :=
  Json (JObj [("result",
               JObj [("content",
                      JArr [JObj [("type", JStr "text"); ("text", JStr names_text)]])]);
              ("jsonrpc", JStr "2.0"); ("id", JNum id)]).




(** The tool-role message that carries the names under an identifier. *)
Definition names_result (id : string) : value :=
  JObj [("role", JStr "tool"); ("tool_call_id", JStr id);
        ("content", JStr names_text)].

End Turns.

(** ** Names beyond Latin-1

    A [string] of the model has one [ascii] for each code unit, so it stands
    for a JavaScript string whose code units are all below U+0100; on these
    [Server.toLowerCase] and [Server.strip] are what the code computes.
    Beyond them lower-casing is not one unit for one: U+0130, the capital I
    with a dot above, becomes [i] followed by U+0307, the combining dot, and
    U+212A, the Kelvin sign, becomes [k].  Here the same code is modelled on
    strings that may hold these units as well. *)

Module Wide.

Inductive unit : Type :=
| Latin (c : ascii)   (* a code unit below U+0100 *)
| CapitalIDot         (* U+0130 *)
| DotAbove            (* U+0307 *)
| Kelvin.             (* U+212A *)

Definition text : Type := list unit.

(** A string of the model as a string of these units. *)
Definition widen (s : string) : text := map Latin (list_ascii_of_string s).

(** The units below U+0100 of a string, in order. *)
Fixpoint latin_part (s : text) : string :=
  match s with
  | [] => EmptyString
  | Latin c :: rest => String c (latin_part rest)
  | _ :: rest => latin_part rest
  end.

Definition unit_eqb (a b : unit) : bool :=
  match a, b with
  | Latin x, Latin y => Ascii.eqb x y
  | CapitalIDot, CapitalIDot | DotAbove, DotAbove | Kelvin, Kelvin => true
  | _, _ => false
  end.

(** [a === b] *)
Fixpoint eqb (a b : text) : bool :=
  match a, b with
  | [], [] => true
  | x :: a', y :: b' => unit_eqb x y && eqb a' b'
  | _, _ => false
  end.

(** [String.prototype.toLowerCase] *)
Definition lower_unit (u : unit) : text :=
  match u with
  | Latin c => [Latin (Server.lower_char c)]
  | CapitalIDot => [Latin "i"%char; DotAbove]
  | DotAbove => [DotAbove]
  | Kelvin => [Latin "k"%char]
  end.

Definition toLowerCase (s : text) : text := flat_map lower_unit s.

(** A unit the class [[a-z0-9]] matches under the [i] flag: none of those
    from U+0100 on does. *)
Definition alnum (u : unit) : bool :=
  match u with
  | Latin c => Server.alnum c
  | _ => false
  end.

(** [s.replace(/[^a-z0-9]/gi, "")] *)
Definition strip (s : text) : text := filter alnum s.

(** [normalize] on a string. *)
Definition normalize (s : text) : text := strip (toLowerCase s).


(** Name matching as the documentation words it, on these strings: what is
    not a letter or a digit of [a-z0-9] is removed from both names, and what
    remains is compared without regard to case. *)
Definition same_name (a b : text) : bool :=
  Spec.same_name (latin_part a) (latin_part b).


End Wide.

(** A unit that [normalize] leaves: a digit or a lower-case letter of
    [a-z]. *)
Definition kept (u : Wide.unit) : Prop :=
  exists c, u = Wide.Latin c /\ (Spec.is_digit c = true \/ Spec.is_lower c = true).

(** * Properties *)

(** ** Values and lines *)

Lemma is_str_true (v : value) (lit : string) :
  JS.is_str v lit = true -> v = JStr lit.
Proof.
  destruct v; simpl; try discriminate.
  intros H. apply String.eqb_eq in H. now subst.
Qed.

Lemma is_str_JStr (s lit : string) : JS.is_str (JStr s) lit = String.eqb s lit.
Proof. reflexivity. Qed.

Lemma prop_ok_not_null (v : value) (k : string) (x : value) :
  JS.prop v k = ok x -> v <> JUndef /\ v <> JNull.
Proof. destruct v; simpl; intros H; try discriminate; split; discriminate. Qed.

Lemma prop_defined (v : value) (k : string) :
  v <> JUndef -> v <> JNull -> exists x, JS.prop v k = ok x.
Proof.
  intros U N. destruct v; simpl; try congruence; eauto;
    destruct (String.eqb k "length"); eauto.
Qed.

Lemma wire_request (id : value) (method : string) (params : value) :
  JSON.wire (request id method params)
  = JObj ([("jsonrpc", JStr "2.0"); ("method", JStr method)]
            ++ member "params" params ++ member "id" id).
Proof. destruct params, id; reflexivity. Qed.

Lemma lookup_app (k : string) (l1 l2 : list (string * value)) :
  JS.lookup k (l1 ++ l2)
  = if JS.has_own k l1 then JS.lookup k l1 else JS.lookup k l2.
Proof.
  induction l1 as [|[k' v] l1 IH]; simpl; [reflexivity|].
  destruct (String.eqb k' k); simpl; [reflexivity|exact IH].
Qed.

Lemma lookup_member_same (k : string) (v : value) (rest : list (string * value)) :
  v <> JUndef -> JS.lookup k (member k v ++ rest) = JSON.wire v.
Proof.
  intros H. destruct v; try congruence; simpl; now rewrite String.eqb_refl.
Qed.

Lemma lookup_member_other (k k' : string) (v : value) (rest : list (string * value)) :
  String.eqb k' k = false ->
  JS.lookup k (member k' v ++ rest) = JS.lookup k rest.
Proof. intros H. destruct v; simpl; try rewrite H; reflexivity. Qed.

Lemma request_method (id : value) (method : string) (params : value) :
  JS.prop (JSON.wire (request id method params)) "method" = ok (JStr method).
Proof. rewrite wire_request. reflexivity. Qed.

Lemma request_jsonrpc (id : value) (method : string) (params : value) :
  JS.prop (JSON.wire (request id method params)) "jsonrpc" = ok (JStr "2.0").
Proof. rewrite wire_request. reflexivity. Qed.

Lemma request_id (id : value) (method : string) (params : value) :
  JS.prop (JSON.wire (request id method params)) "id"
  = ok (match id with JUndef => JUndef | _ => JSON.wire id end).
Proof. destruct params, id; reflexivity. Qed.

Lemma request_params (id : value) (method : string) (params : value) :
  JS.prop (JSON.wire (request id method params)) "params"
  = ok (match params with JUndef => JUndef | _ => JSON.wire params end).
Proof. destruct params, id; reflexivity. Qed.

Lemma response_result (id result : value) :
  JS.prop (response id result) "result"
  = ok (match result with JUndef => JUndef | _ => JSON.wire result end).
Proof. destruct result, id; reflexivity. Qed.

Lemma response_id (id result : value) :
  JS.prop (response id result) "id"
  = ok (match id with JUndef => JUndef | _ => JSON.wire id end).
Proof. destruct result, id; reflexivity. Qed.

Lemma response_error (id result : value) :
  JS.prop (response id result) "error" = ok JUndef.
Proof. destruct result, id; reflexivity. Qed.

(** ** The server *)

Module ServerFacts.
Import Server.

Lemma on_line_text (st : store) (s : string) :
    on_line st (Text s) = {| stdout := []; stderr := [SyntaxError] |}.
Proof. reflexivity. Qed.

Lemma on_line_json (st : store) (json : value) :
    stdout (on_line st (Json json)) = fst (dispatch st json).
Proof.
    unfold on_line; simpl. destruct (dispatch st json) as [o [e|u]]; reflexivity.
Qed.

Lemma step_store (st : store) (l : line) : fst (step st l) = st.
Proof. reflexivity. Qed.

Lemma main_store (st : store) (input : list line) : fst (main st input) = st.
Proof.
    induction input as [|l input IH]; simpl; [reflexivity|].
    destruct (main st input) as [st' os]; simpl in *. exact IH.
Qed.

Lemma main_outputs (st : store) (input : list line) :
    snd (main st input) = map (on_line st) input.
Proof.
    induction input as [|l input IH]; simpl; [reflexivity|].
    destruct (main st input) as [st' os]; simpl in *. now rewrite IH.
Qed.

Lemma dispatch_null (st : store) (json : value) :
    json = JUndef \/ json = JNull -> dispatch st json = ([], inl TypeError).
Proof. intros [->| ->]; reflexivity. Qed.

Lemma dispatch_unhandled (st : store) (json : value) :
    (forall m, In m handled -> JS.prop json "method" <> ok (JStr m)) ->
    fst (dispatch st json) = [].
Proof.
    intros H.
    destruct (JS.prop json "jsonrpc") as [e|jsonrpc] eqn:Ej.
    { unfold dispatch. rewrite Ej. reflexivity. }
    destruct (prop_ok_not_null _ _ _ Ej) as [U N].
    destruct (prop_defined json "method" U N) as [method Em].
    destruct (prop_defined json "id" U N) as [id Ei].
    assert (F : forall m, In m handled -> JS.is_str method m = false).
    { intros m Hm. destruct (JS.is_str method m) eqn:E; [|reflexivity].
      apply is_str_true in E. subst. exfalso. now apply (H m Hm). }
    unfold dispatch. rewrite Ej, Em, Ei. simpl.
    rewrite !F by (simpl; tauto).
    destruct (JS.is_str jsonrpc "2.0"); reflexivity.
Qed.

Lemma findM_total {A} (p : A -> bool) (l : list A) :
    findM (fun a => ok (p a)) l = ok (find p l).
Proof.
    induction l as [|a l IH]; simpl; [reflexivity|].
    destruct (p a); [reflexivity|exact IH].
Qed.

Lemma findM_ext {A} (p q : A -> res bool) (l : list A) :
    (forall a, p a = q a) -> findM p l = findM q l.
Proof.
    intros H. induction l as [|a l IH]; simpl; [reflexivity|].
    rewrite H. destruct (q a) as [e|[|]]; auto.
Qed.

(** The lines a [tools/call] request produces, by what the lookup of the
      tool gives. *)
Lemma dispatch_tools_call (st : store) (json id params n : value) :
    JS.prop json "method" = ok (JStr "tools/call") ->
    JS.prop json "id" = ok id ->
    JS.prop json "params" = ok params ->
    JS.prop params "name" = ok n ->
    dispatch st json
    = match find (fun t => JS.is_str n (tool_name t)) (tools st) with
      | Some t =>
          (args <- plift (JS.prop params "arguments") ;;
           toolResponse <- execute t (drinks st) args ;;
           sendResponse id toolResponse)%proc
      | None => tool_not_found id n
      end.
Proof.
    intros Em Ei Ep En.
    destruct (prop_ok_not_null _ _ _ Em) as [U N].
    destruct (prop_defined json "jsonrpc" U N) as [jsonrpc Ej].
    unfold dispatch. rewrite Ej, Em, Ei. simpl.
    rewrite (findM_ext _ (fun t => ok (JS.is_str n (tool_name t)))).
    2:{ intros t. rewrite Ep. simpl. rewrite En. reflexivity. }
    rewrite findM_total. rewrite Ep. simpl.
    assert (P : pwhen (JS.is_str jsonrpc "2.0") (pret tt) = pret tt)
      by (destruct (JS.is_str jsonrpc "2.0"); reflexivity).
    rewrite P. simpl.
    destruct (find _ (tools st)) as [t|].
    - destruct (JS.prop params "arguments") as [e|args]; simpl; [reflexivity|].
      destruct (execute t (drinks st) args) as [o [e|r]]; simpl;
        rewrite ?app_nil_r; reflexivity.
    - rewrite En. simpl. unfold tool_not_found.
      destruct (JS.to_string n) as [e|shown]; simpl; reflexivity.
Qed.

(** *** Every response carries the identifier of its request *)

Lemma fst_pbind {A B} (m : proc A) (k : A -> proc B) :
  fst (pbind m k)
  = fst m ++ match snd m with inr a => fst (k a) | inl _ => [] end.
Proof.
  destruct m as [o [e|a]]; simpl; [now rewrite app_nil_r|].
  destruct (k a); reflexivity.
Qed.

Lemma pbind_ok {A B} (a : A) (k : A -> proc B) :
  pbind (plift (ok a)) k = k a.
Proof. unfold pbind, plift, ok. destruct (k a); reflexivity. Qed.

Lemma echoes_nil (id : value) : echoes id [].
Proof. constructor. Qed.

Lemma echoes_pbind {A B} (id : value) (m : proc A) (k : A -> proc B) :
  echoes id (fst m) ->
  (forall a, snd m = inr a -> echoes id (fst (k a))) ->
  echoes id (fst (pbind m k)).
Proof.
  intros Hm Hk. rewrite fst_pbind. apply Forall_app. split; [exact Hm|].
  destruct (snd m) as [e|a]; [constructor|now apply Hk].
Qed.

Lemma echoes_pwhen (id : value) (b : bool) (m : proc unit) :
  echoes id (fst m) -> echoes id (fst (pwhen b m)).
Proof. destruct b; [trivial|constructor]. Qed.

Lemma echoes_sendResponse (id result : value) :
  echoes id (fst (sendResponse id result)).
Proof. repeat constructor. now exists result. Qed.

Lemma echoes_texts (id : value) (ts : list string) : echoes id (map Text ts).
Proof. induction ts; constructor; [exact I|assumption]. Qed.

Lemma findM_In {A} (p : A -> res bool) (l : list A) (a : A) :
  findM p l = ok (Some a) -> In a l.
Proof.
  induction l as [|x l IH]; simpl; [discriminate|].
  destruct (p x) as [e|[|]]; [discriminate| |].
  - intros H. injection H as ->. now left.
  - intros H. right. now apply IH.
Qed.

Lemma getDrinkInfo_prints_text (ds : list Drink) (args : value) :
  exists ts, fst (execute getDrinkInfo ds args) = map Text ts.
Proof.
  simpl. destruct (JS.prop args "name") as [e|arg]; simpl; [now exists []|].
  destruct (normalize arg) as [e|inputName]; simpl; [now exists []|].
  eexists (_ :: _ :: map _ ds). simpl. rewrite app_nil_r, map_map. reflexivity.
Qed.

Lemma echoes_execute (id : value) (t : Tool) (args : value) :
  In t (tools initial_store) ->
  echoes id (fst (execute t (drinks initial_store) args)).
Proof.
  intros [<-|[<-|[]]].
  - constructor.
  - destruct (getDrinkInfo_prints_text (drinks initial_store) args) as [ts ->].
    apply echoes_texts.
Qed.

Lemma echoes_dispatch (json id : value) :
  JS.prop json "id" = ok id ->
  echoes id (fst (dispatch initial_store json)).
Proof.
  intros Ei.
  destruct (prop_ok_not_null _ _ _ Ei) as [U N].
  destruct (prop_defined json "jsonrpc" U N) as [jsonrpc Ej].
  destruct (prop_defined json "method" U N) as [method Em].
  unfold dispatch. rewrite Ej, Em, Ei, !pbind_ok.
  repeat (apply echoes_pbind; [|intros ? _]); try apply echoes_nil.
  - repeat apply echoes_pwhen. apply echoes_sendResponse.
  - apply echoes_pwhen, echoes_sendResponse.
  - apply echoes_pwhen. apply echoes_pbind; [apply echoes_nil|].
    intros [t|] Hf.
    + repeat (apply echoes_pbind; [|intros ? _]); try apply echoes_nil.
      * apply echoes_execute. exact (findM_In _ _ _ Hf).
      * apply echoes_sendResponse.
    + repeat (apply echoes_pbind; [|intros ? _]); try apply echoes_nil.
      apply echoes_sendResponse.
  - apply echoes_pwhen, echoes_sendResponse.
  - apply echoes_pwhen.
    repeat (apply echoes_pbind; [|intros ? _]); try apply echoes_nil.
    destruct (find _ _); apply echoes_sendResponse.
  - apply echoes_pwhen, echoes_sendResponse.
Qed.

(** *** One request, at most one response *)

Lemma dispatch_methods (st : store) (json jsonrpc method id : value) :
  JS.prop json "jsonrpc" = ok jsonrpc ->
  JS.prop json "method" = ok method ->
  JS.prop json "id" = ok id ->
  dispatch st json
  = (pwhen (JS.is_str jsonrpc "2.0")
       (pwhen (JS.is_str method "initialize")
          (sendResponse id initialize_result)) ;;
     pwhen (JS.is_str method "tools/list")
       (sendResponse id (JObj [("tools", JArr (map tool_entry (tools st)))])) ;;
     pwhen (JS.is_str method "tools/call")
       (tool <- plift (findM (fun t =>
                  (params <- JS.prop json "params" ;;
                   n <- JS.prop params "name" ;;
                   ok (JS.is_str n (tool_name t)))%res) (tools st)) ;;
        match tool with
        | Some t =>
            params <- plift (JS.prop json "params") ;;
            args <- plift (JS.prop params "arguments") ;;
            toolResponse <- execute t (drinks st) args ;;
            sendResponse id toolResponse
        | None =>
            params <- plift (JS.prop json "params") ;;
            n <- plift (JS.prop params "name") ;;
            tool_not_found id n
        end) ;;
     pwhen (JS.is_str method "resources/list")
       (sendResponse id
          (JObj [("resources", JArr (map resource_entry (resources st)))])) ;;
     pwhen (JS.is_str method "resources/read")
       (params <- plift (JS.prop json "params") ;;
        u <- plift (JS.prop params "uri") ;;
        match find (fun r => JS.is_str u (uri r)) (resources st) with
        | Some r => sendResponse id (get r (drinks st))
        | None => resource_not_found id
        end) ;;
     pwhen (JS.is_str method "ping") (sendResponse id (JObj [])))%proc.
Proof.
  intros Ej Em Ei. unfold dispatch. rewrite Ej, Em, Ei, !pbind_ok. reflexivity.
Qed.

Lemma single_reply_dispatch (json : value) :
  single_reply (fst (dispatch initial_store json)).
Proof.
  destruct (JS.prop json "jsonrpc") as [e|jsonrpc] eqn:Ej.
  { unfold dispatch. rewrite Ej. exact I. }
  destruct (prop_ok_not_null _ _ _ Ej) as [U N].
  destruct (prop_defined json "method" U N) as [method Em].
  destruct (prop_defined json "id" U N) as [id Ei].
  destruct (JS.is_str method "tools/call") eqn:Ec.
  { apply is_str_true in Ec. subst method.
    destruct (JS.prop json "params") as [e|params] eqn:Ep.
    { rewrite (dispatch_methods _ _ _ _ _ Ej Em Ei), Ep.
      destruct (JS.is_str jsonrpc "2.0"); exact I. }
    destruct (JS.prop params "name") as [e|n] eqn:En.
    { rewrite (dispatch_methods _ _ _ _ _ Ej Em Ei), Ep. cbn. rewrite En.
      destruct (JS.is_str jsonrpc "2.0"); exact I. }
    rewrite (dispatch_tools_call _ _ id params n Em Ei Ep En).
    destruct (find _ (tools initial_store)) as [t|] eqn:Ef.
    - destruct (JS.prop params "arguments") as [e|args]; [exact I|].
      rewrite pbind_ok. apply find_some in Ef. destruct Ef as [[<-|[<-|[]]] _].
      + reflexivity.
      + cbn [execute getDrinkInfo].
        destruct (JS.prop args "name") as [e|arg]; [exact I|].
        rewrite pbind_ok.
        destruct (normalize arg) as [e|inputName]; [exact I|].
        rewrite pbind_ok. exact I.
    - unfold tool_not_found. destruct (JS.to_string n); [exact I|reflexivity]. }
  destruct (JS.is_str method "resources/read") eqn:Er.
  { apply is_str_true in Er. subst method.
    rewrite (dispatch_methods _ _ _ _ _ Ej Em Ei).
    destruct (JS.prop json "params") as [e|params].
    { destruct (JS.is_str jsonrpc "2.0"); exact I. }
    rewrite !pbind_ok.
    destruct (JS.prop params "uri") as [e|u].
    { destruct (JS.is_str jsonrpc "2.0"); exact I. }
    rewrite !pbind_ok.
    destruct (find _ (resources initial_store));
      destruct (JS.is_str jsonrpc "2.0"); reflexivity. }
  destruct (JS.is_str method "initialize") eqn:E1.
  { apply is_str_true in E1. subst method.
    rewrite (dispatch_methods _ _ _ _ _ Ej Em Ei).
    destruct (JS.is_str jsonrpc "2.0"); [reflexivity|exact I]. }
  destruct (JS.is_str method "tools/list") eqn:E2.
  { apply is_str_true in E2. subst method.
    rewrite (dispatch_methods _ _ _ _ _ Ej Em Ei).
    destruct (JS.is_str jsonrpc "2.0"); reflexivity. }
  destruct (JS.is_str method "resources/list") eqn:E3.
  { apply is_str_true in E3. subst method.
    rewrite (dispatch_methods _ _ _ _ _ Ej Em Ei).
    destruct (JS.is_str jsonrpc "2.0"); reflexivity. }
  destruct (JS.is_str method "ping") eqn:E4.
  { apply is_str_true in E4. subst method.
    rewrite (dispatch_methods _ _ _ _ _ Ej Em Ei).
    destruct (JS.is_str jsonrpc "2.0"); reflexivity. }
  rewrite dispatch_unhandled; [exact I|].
  intros m Hm Hp. rewrite Em in Hp. injection Hp as ->.
  simpl in Hm. destruct Hm as [<-|[<-|[<-|[<-|[<-|[<-|[]]]]]]]; discriminate.
Qed.

(** *** Name normalisation *)

Lemma alnum_lower_char (c : ascii) :
  alnum (lower_char c) = Spec.alphanumeric c.
Proof. destruct c as [[] [] [] [] [] [] [] []]; reflexivity. Qed.

Lemma lower_char_fold_case (c : ascii) :
  Spec.alphanumeric c = true -> lower_char c = Spec.fold_case c.
Proof. destruct c as [[] [] [] [] [] [] [] []]; intros H; try reflexivity; discriminate H. Qed.

Lemma strip_toLowerCase (s : string) :
  strip (toLowerCase s) = Spec.map_string Spec.fold_case (Spec.alphanumerics s).
Proof.
  induction s as [|c r IH]; simpl; [reflexivity|].
  rewrite alnum_lower_char.
  destruct (Spec.alphanumeric c) eqn:E; simpl; [|exact IH].
  now rewrite IH, (lower_char_fold_case c E).
Qed.

Lemma eqb_map_fold_case (a b : string) :
  String.eqb (Spec.map_string Spec.fold_case a) (Spec.map_string Spec.fold_case b)
  = Spec.equal_ignoring_case a b.
Proof.
  revert b. induction a as [|x a IH]; intros [|y b]; simpl; try reflexivity.
  rewrite IH. destruct (Ascii.eqb (Spec.fold_case x) (Spec.fold_case y)); reflexivity.
Qed.

(** The comparison [normalize(drink.name) === inputName] decides
    [Spec.same_name]. *)
Lemma normalized_eqb_same_name (a b : string) :
  String.eqb (strip (toLowerCase a)) (strip (toLowerCase b)) = Spec.same_name a b.
Proof. now rewrite !strip_toLowerCase, eqb_map_fold_case. Qed.

Lemma normalize_string (s : string) :
  normalize (JStr s) = ok (strip (toLowerCase s)).
Proof. destruct s; reflexivity. Qed.

Lemma find_same_name (ds : list Drink) (s : string) :
  find (fun d => String.eqb (normalized_name d) (strip (toLowerCase s))) ds
  = find (fun d => Spec.same_name (name d) s) ds.
Proof.
  induction ds as [|d ds IH]; simpl; [reflexivity|].
  unfold normalized_name at 1. rewrite normalized_eqb_same_name, IH. reflexivity.
Qed.

Lemma getDrinkInfo_execute (ds : list Drink) (args : value) (s : string) :
  JS.prop args "name" = ok (JStr s) ->
  exists debug,
    execute getDrinkInfo ds args
    = (map Text debug, ok (text_content (Spec.lookup_text ds s))).
Proof.
  intros H. simpl. rewrite H. simpl. rewrite normalize_string. simpl.
  rewrite find_same_name. unfold Spec.lookup_text, Spec.not_found_text.
  eexists (_ :: _ :: map _ ds).
  rewrite app_nil_r. simpl. rewrite map_map.
  destruct (find _ ds); reflexivity.
Qed.


Lemma tools_call_found (st : store) (json id params n args : value) (t : Tool)
  (o : list line) (r : value) :
  JS.prop json "method" = ok (JStr "tools/call") ->
  JS.prop json "id" = ok id ->
  JS.prop json "params" = ok params ->
  JS.prop params "name" = ok n ->
  JS.prop params "arguments" = ok args ->
  find (fun t => JS.is_str n (tool_name t)) (tools st) = Some t ->
  execute t (drinks st) args = (o, ok r) ->
  stdout (on_line st (Json json)) = o ++ [Json (response id r)].
Proof.
  intros Em Ei Ep En Ea Ef Ex.
  rewrite on_line_json, (dispatch_tools_call st json id params n Em Ei Ep En), Ef, Ea.
  simpl. rewrite Ex. reflexivity.
Qed.

Lemma tools_call_not_found (st : store) (json id params n : value) (shown : string) :
  JS.prop json "method" = ok (JStr "tools/call") ->
  JS.prop json "id" = ok id ->
  JS.prop json "params" = ok params ->
  JS.prop params "name" = ok n ->
  JS.to_string n = ok shown ->
  find (fun t => JS.is_str n (tool_name t)) (tools st) = None ->
  stdout (on_line st (Json json))
  = [Json (response id
             (JObj [("error",
                     JObj [("code", JNum (-32602));
                           ("message",
                            JStr ("MCP error -32602: Tool " ++ shown ++ " not found")%string)])]))].
Proof.
  intros Em Ei Ep En Es Ef.
  rewrite on_line_json, (dispatch_tools_call st json id params n Em Ei Ep En), Ef.
  unfold tool_not_found. rewrite Es. reflexivity.
Qed.

Lemma getDrinkInfo_returns_text (ds : list Drink) (args : value)
  (o : list line) (r : value) :
  execute getDrinkInfo ds args = (o, ok r) ->
  exists text, r = text_content (JStr text).
Proof.
  simpl. destruct (JS.prop args "name") as [e|arg]; simpl; [discriminate|].
  destruct (normalize arg) as [e|inputName]; simpl; [discriminate|].
  destruct (find _ ds); intros E; injection E as <- <-; eexists; reflexivity.
Qed.

Lemma execute_returns_text (t : Tool) (args : value) (o : list line) (r : value) :
  In t (tools initial_store) ->
  execute t (drinks initial_store) args = (o, ok r) ->
  exists text, r = text_content (JStr text).
Proof.
  intros [<-|[<-|[]]].
  - intros E. injection E as <- <-. eexists. reflexivity.
  - apply getDrinkInfo_returns_text.
Qed.

(** C4, as the code has it: a [tools/call] request naming no tool of the
    server is answered by one line whose document has a top-level [result]
    member, holding the object [{error: {code: -32602, message}}], and no
    top-level [error] member.  A request naming one of the server's tools
    is answered, when the tool returns, by a document whose [result] is
    [{content: [{type: "text", text}]}]. *)
Theorem unknown_tool_error_is_nested_in_result
  (st : store) (json id params n : value) (shown : string) :
  JS.prop json "method" = ok (JStr "tools/call") ->
  JS.prop json "id" = ok id ->
  JS.prop json "params" = ok params ->
  JS.prop params "name" = ok n ->
  JS.to_string n = ok shown ->
  (find (fun t => JS.is_str n (tool_name t)) (tools st) = None ->
   exists doc,
     stdout (on_line st (Json json)) = [Json doc]
     /\ JS.prop doc "error" = ok JUndef
     /\ JS.prop doc "result"
        = ok (JObj [("error",
                     JObj [("code", JNum (-32602));
                           ("message",
                            JStr ("MCP error -32602: Tool " ++ shown ++ " not found")%string)])]))
  /\ (forall t args o r,
        st = initial_store ->
        JS.prop params "arguments" = ok args ->
        find (fun t => JS.is_str n (tool_name t)) (tools st) = Some t ->
        execute t (drinks st) args = (o, ok r) ->
        exists text doc,
          stdout (on_line st (Json json)) = o ++ [Json doc]
          /\ JS.prop doc "error" = ok JUndef
          /\ JS.prop doc "result" = ok (text_content (JStr text))).
Proof.
  intros Em Ei Ep En Es. split.
  - intros Ef. eexists. split; [|split].
    + apply (tools_call_not_found st json id params n shown); assumption.
    + apply response_error.
    + rewrite response_result. reflexivity.
  - intros t args o r -> Ea Ef Ex.
    destruct (execute_returns_text t args o r) as [text ->];
      [exact (proj1 (find_some _ _ Ef))|exact Ex|].
    exists text. eexists. split; [|split].
    + apply (tools_call_found initial_store json id params n args t o
               (text_content (JStr text))); assumption.
    + apply response_error.
    + rewrite response_result. reflexivity.
Qed.

Lemma unknown_tool_error_is_nested_in_result_witness :
  exists doc,
    stdout (on_line initial_store
              (write_json (request (JNum 1) "tools/call"
                             (JObj [("name", JStr "getPrices"); ("arguments", JObj [])]))))
    = [Json doc]
    /\ JS.prop doc "error" = ok JUndef
    /\ JS.prop doc "result"
       = ok (JObj [("error",
                    JObj [("code", JNum (-32602));
                          ("message",
                           JStr "MCP error -32602: Tool getPrices not found")])]).
Proof.
  apply (proj1 (unknown_tool_error_is_nested_in_result initial_store
                  (JSON.wire (request (JNum 1) "tools/call"
                                (JObj [("name", JStr "getPrices");
                                       ("arguments", JObj [])])))
                  (JNum 1)
                  (JObj [("name", JStr "getPrices"); ("arguments", JObj [])])
                  (JStr "getPrices") "getPrices"
                  eq_refl eq_refl eq_refl eq_refl eq_refl)).
  reflexivity.
Defined.

(** A call of a tool that throws is not answered at all: [getDrinkInfo]
    without arguments, or with a name that is a number. *)
Example throwing_tool_is_not_answered :
  on_line initial_store
    (call_line 2 "tools/call" (JObj [("name", JStr "getDrinkInfo")]))
  = {| stdout := []; stderr := [TypeError] |}
  /\ on_line initial_store
       (call_line 3 "tools/call"
          (JObj [("name", JStr "getDrinkInfo");
                 ("arguments", JObj [("name", JNum 7)])]))
     = {| stdout := []; stderr := [TypeError] |}.
Proof. split; reflexivity. Qed.


End ServerFacts.

(** ** The client's [send] *)

Module SendFacts.
Import Client.

Lemma bind_Done {R A B} (m : M R A) (k : A -> M R B) (w w' : world R) (a : A) :
  m w = (Done a, w') -> bind m k w = k a w'.
Proof. intros H. unfold bind. now rewrite H. Qed.

Lemma bind_lift_ok {R A B} (a : A) (k : A -> M R B) (w : world R) :
  bind (lift (ok a)) k w = k a w.
Proof. reflexivity. Qed.

Lemma bind_ret {R A B} (a : A) (k : A -> M R B) (w : world R) :
  bind (ret a) k w = k a w.
Proof. reflexivity. Qed.


Section AnyRemote.

Context {R : Type}.
Variable remote : R -> line -> R * list line.

Lemma send_notification (method : string) (params : value) (w : world R) :
  send remote method params true w
  = (Done JUndef,
     {| lastId := lastId w;
        srv := fst (remote (srv w) (notification_line method params));
        pipe := pipe w ++ snd (remote (srv w) (notification_line method params));
        sent := sent w ++ [notification_line method params];
        received := received w; asked := asked w; console := console w |}).
Proof.
  unfold send, bind, write, ret, notification_line; simpl.
  destruct (remote (srv w) _) as [s' outs]; reflexivity.
Qed.

Lemma send_call (method : string) (params : value) (w : world R) :
  send remote method params false w
  = let l := call_line (lastId w) method params in
    let w1 := {| lastId := S (lastId w);
                 srv := fst (remote (srv w) l);
                 pipe := pipe w ++ snd (remote (srv w) l);
                 sent := sent w ++ [l];
                 received := received w; asked := asked w;
                 console := console w |} in
    match pipe w ++ snd (remote (srv w) l) with
    | [] => (Blocked, w1)
    | json :: rest =>
        lift (doc <- parse_line json ;; JS.prop doc "result")%res
          {| lastId := S (lastId w);
             srv := fst (remote (srv w) l);
             pipe := rest;
             sent := sent w ++ [l];
             received := received w ++ [json]; asked := asked w;
             console := console w |}
    end.
Proof.
  unfold send, bind, write, next_id, question, call_line; simpl.
  destruct (remote (srv w) _) as [s' outs]; simpl.
  destruct (pipe w ++ outs) as [|json rest]; [reflexivity|].
  unfold lift. destruct (parse_line json) as [e|doc]; simpl; [reflexivity|].
  destruct (JS.prop doc "result"); reflexivity.
Qed.

Lemma id_of_call_line (id : nat) (method : string) (params : value) :
  id_of (call_line id method params) = Some (Z.of_nat id).
Proof. unfold id_of, call_line, write_json. now rewrite request_id. Qed.

Lemma id_of_notification_line (method : string) (params : value) :
  id_of (notification_line method params) = None.
Proof. unfold id_of, notification_line, write_json. now rewrite request_id. Qed.

Lemma notification_line_has_no_id (method : string) (params : value) :
  exists fields,
    notification_line method params = Json (JObj fields)
    /\ JS.has_own "id" fields = false.
Proof.
  unfold notification_line, write_json. rewrite wire_request.
  eexists; split; [reflexivity|]. destruct params; reflexivity.
Qed.

Lemma ids_of_app (l1 l2 : list line) : ids_of (l1 ++ l2) = ids_of l1 ++ ids_of l2.
Proof.
  induction l1 as [|l l1 IH]; simpl; [reflexivity|].
  destruct (id_of l); simpl; now rewrite IH.
Qed.

Lemma send_sent (method : string) (params : value) (b : bool) (w : world R) :
  sent (snd (send remote method params b w))
  = sent w ++ [if b then notification_line method params
               else call_line (lastId w) method params]
  /\ lastId (snd (send remote method params b w))
     = (if b then lastId w else S (lastId w))
  /\ asked (snd (send remote method params b w)) = asked w
  /\ console (snd (send remote method params b w)) = console w.
Proof.
  destruct b.
  - rewrite send_notification. simpl. auto.
  - rewrite send_call. cbv zeta.
    destruct (pipe w ++ _) as [|json rest]; simpl; [auto|].
    unfold lift. destruct (_ <- parse_line json ;; _)%res; simpl; auto.
Qed.

Lemma send_numbered (method : string) (params : value) (b : bool) (w : world R) :
  numbered w -> numbered (snd (send remote method params b w)).
Proof.
  unfold numbered. intros H.
  destruct (send_sent method params b w) as (Hs & Hl & _).
  rewrite Hs, Hl, ids_of_app, H. destruct b; cbn [ids_of].
  - rewrite id_of_notification_line. now rewrite app_nil_r.
  - rewrite id_of_call_line. rewrite seq_S, map_app. reflexivity.
Qed.

Lemma sends_numbered (script : list (string * value * bool)) (w : world R) :
  numbered w -> numbered (snd (sends remote script w)).
Proof.
  revert w. induction script as [|[[method params] b] script IH]; intros w H.
  - exact H.
  - simpl. unfold bind at 1.
    pose proof (send_numbered method params b w H) as H1.
    destruct (send remote method params b w) as [[v|e| |] w1]; simpl in *;
      try exact H1.
    specialize (IH w1 H1). unfold bind.
    destruct (sends remote script w1) as [[vs|e| |] w2]; simpl in *; exact IH.
Qed.

Lemma ids_increasing (a n : nat) :
  StronglySorted Z.lt (map Z.of_nat (seq a n)).
Proof.
  revert a. induction n as [|n IH]; intros a; simpl; constructor.
  - apply IH.
  - apply Forall_forall. intros z Hz. apply in_map_iff in Hz.
    destruct Hz as (k & <- & Hk). apply in_seq in Hk. lia.
Qed.

(** C3 (amended): when the line a call reads parses to an envelope with an
    [error] member and no [result] member, [send] completes normally and
    returns [undefined]; nothing is thrown, and the code and message of the
    error are dropped. *)
Theorem error_reply_returns_undefined
  (method : string) (params : value) (w : world R)
  (doc err : value) (rest : list line) :
  pipe w ++ snd (remote (srv w) (call_line (lastId w) method params))
    = Json doc :: rest ->
  JS.prop doc "error" = ok err ->
  err <> JUndef ->
  JS.prop doc "result" = ok JUndef ->
  exists w',
    send remote method params false w = (Done JUndef, w')
    /\ received w' = received w ++ [Json doc]
    /\ pipe w' = rest
    /\ lastId w' = S (lastId w).
Proof.
  intros Hp He Hn Hr. rewrite send_call. cbv zeta. rewrite Hp.
  unfold lift; simpl. rewrite Hr. eexists. split; [reflexivity|].
  simpl. auto.
Qed.

End AnyRemote.

Lemma error_reply_returns_undefined_witness :
  exists w',
    send refusing "tools/list" (JObj []) false (fresh tt) = (Done JUndef, w')
    /\ received w'
       = [Json (JObj [("jsonrpc", JStr "2.0"); ("id", JNum 0);
                      ("error", JObj [("code", JNum (-32601));
                                      ("message", JStr "Method not found")])])]
    /\ pipe w' = []
    /\ lastId w' = 1.
Proof.
  apply (error_reply_returns_undefined refusing "tools/list" (JObj []) (fresh tt)
           _ (JObj [("code", JNum (-32601)); ("message", JStr "Method not found")]) []);
    [reflexivity|reflexivity|discriminate|reflexivity].
Defined.

(** C3 as stated fails: the reply carries [error] and no [result], and the
    call does not fail. *)
Lemma error_reply_does_not_fail :
  fst (send refusing "tools/list" (JObj []) false (fresh tt)) = Done JUndef
  /\ ~ (exists e, fst (send refusing "tools/list" (JObj []) false (fresh tt))
                  = Threw e).
Proof.
  split; [reflexivity|]. intros [e H]. discriminate H.
Qed.

End SendFacts.

(** ** The client against the server of the repository *)

Module SessionFacts.
Import Client Server ServerFacts SendFacts.

Lemma step_eq (st : store) (l : line) :
  Server.step st l = (st, stdout (on_line st l)).
Proof. reflexivity. Qed.

Lemma unhandled_line (st : store) (id : value) (method : string) (params : value) :
  ~ In method handled ->
  stdout (on_line st (write_json (request id method params))) = [].
Proof.
  intros H. unfold write_json. rewrite on_line_json.
  apply dispatch_unhandled. intros m Hm. rewrite request_method.
  intros E. injection E as ->. contradiction.
Qed.

(** C9: a line of valid JSON whose method is none of [initialize],
    [tools/list], [tools/call], [resources/list], [resources/read] and
    [ping] makes the server write nothing, whatever else the document
    holds; so a call of such a method is left waiting for a reply that never
    comes, while the notification [notifications/initialized] goes through
    without leaving a line to read. *)
Theorem unhandled_method_is_never_answered
  (method : string) (params : value) (w : world store) :
  ~ In method handled ->
  pipe w = [] ->
  (forall st json,
      (forall m, In m handled -> JS.prop json "method" <> ok (JStr m)) ->
      stdout (on_line st (Json json)) = [])
  /\ (exists w',
        send Server.step method params false w = (Blocked, w')
        /\ sent w' = sent w ++ [call_line (lastId w) method params]
        /\ pipe w' = []
        /\ received w' = received w)
  /\ (exists w',
        send Server.step "notifications/initialized" (JObj []) true w
        = (Done JUndef, w')
        /\ pipe w' = []
        /\ received w' = received w
        /\ lastId w' = lastId w).
Proof.
  intros Hm Hp. split; [|split].
  - intros st json H. rewrite on_line_json. now apply dispatch_unhandled.
  - rewrite send_call. cbv zeta. rewrite step_eq. cbn [fst snd].
    unfold call_line. rewrite (unhandled_line _ _ _ _ Hm).
    eexists. split; [rewrite Hp; reflexivity|]. simpl. auto.
  - rewrite send_notification. eexists. split; [reflexivity|]. simpl.
    rewrite Hp. auto.
Qed.

Lemma unhandled_method_is_never_answered_witness :
  (forall st json,
      (forall m, In m handled -> JS.prop json "method" <> ok (JStr m)) ->
      stdout (on_line st (Json json)) = [])
  /\ (exists w',
        send Server.step "prompts/list" (JObj []) false (fresh initial_store)
        = (Blocked, w')
        /\ sent w' = [] ++ [call_line 0 "prompts/list" (JObj [])]
        /\ pipe w' = []
        /\ received w' = [])
  /\ (exists w',
        send Server.step "notifications/initialized" (JObj []) true
          (fresh initial_store)
        = (Done JUndef, w')
        /\ pipe w' = []
        /\ received w' = []
        /\ lastId w' = 0).
Proof.
  apply (unhandled_method_is_never_answered "prompts/list" (JObj [])
           (fresh initial_store)).
  - simpl. intros [H|[H|[H|[H|[H|[H|[]]]]]]]; discriminate H.
  - reflexivity.
Defined.

(** *** Correlation *)

Lemma call_answered (method : string) (params : value) (w : world store) :
  srv w = initial_store ->
  pipe w = [] ->
  answered initial_store (method, params) ->
  exists doc v w',
    send Server.step method params false w = (Done v, w')
    /\ sent w' = sent w ++ [call_line (lastId w) method params]
    /\ received w' = received w ++ [Json doc]
    /\ JS.prop doc "id" = ok (JNum (Z.of_nat (lastId w)))
    /\ JS.prop doc "result" = ok v
    /\ pipe w' = []
    /\ srv w' = initial_store
    /\ lastId w' = S (lastId w).
Proof.
  intros Hs Hp Ha. unfold answered in Ha.
  destruct (Ha (lastId w)) as [doc Hd]. cbn [fst snd] in Hd.
  assert (E : echoes (JNum (Z.of_nat (lastId w))) [Json doc]).
  { rewrite <- Hd. unfold call_line, write_json. rewrite on_line_json.
    apply echoes_dispatch. now rewrite request_id. }
  unfold echoes in E. inversion E as [|? ? Hx _]. destruct Hx as [r Hr].
  subst doc. clear E.
  exists (response (JNum (Z.of_nat (lastId w))) r).
  exists (match r with JUndef => JUndef | _ => JSON.wire r end).
  rewrite send_call. cbv zeta. rewrite step_eq, Hs. cbn [fst snd].
  rewrite Hd, Hp. cbn [app]. unfold lift. cbn [parse_line rbind ok].
  rewrite response_result. eexists. split; [reflexivity|].
  cbn [sent received pipe srv lastId].
  rewrite response_id. repeat split; reflexivity.
Qed.

Lemma calls_answered (requests : list (string * value)) (w : world store) :
  srv w = initial_store ->
  pipe w = [] ->
  Forall (answered initial_store) requests ->
  exists vs rs w',
    sends Server.step (calls requests) w = (Done vs, w')
    /\ sent w' = sent w ++ call_lines (lastId w) requests
    /\ received w' = received w ++ rs
    /\ Correlated (call_lines (lastId w) requests) rs vs
    /\ pipe w' = []
    /\ srv w' = initial_store.
Proof.
  revert w. induction requests as [|[method params] requests IH]; intros w Hs Hp Ha.
  - exists [], [], w. simpl. rewrite !app_nil_r. repeat split; auto. constructor.
  - inversion Ha as [|? ? Ha1 Ha2]; subst.
    destruct (call_answered method params w Hs Hp Ha1)
      as (doc & v & w1 & E1 & S1 & R1 & I1 & V1 & P1 & Sv1 & L1).
    destruct (IH w1 Sv1 P1 Ha2) as (vs & rs & w2 & E2 & S2 & R2 & C2 & P2 & Sv2).
    exists (v :: vs), (Json doc :: rs), w2.
    simpl. unfold bind at 1. rewrite E1. unfold bind. fold (calls requests).
    rewrite E2. split; [reflexivity|].
    rewrite S2, S1, R2, R1, L1, <- !app_assoc. simpl.
    repeat split; auto.
    econstructor; eauto.
    + apply id_of_call_line.
    + now rewrite <- L1.
Qed.

(** A call that returns has read the one document the server wrote for its
    request. *)
Lemma call_returned (method : string) (params v : value) (w w' : world store) :
  srv w = initial_store ->
  pipe w = [] ->
  send Server.step method params false w = (Done v, w') ->
  exists doc,
    sent w' = sent w ++ [call_line (lastId w) method params]
    /\ received w' = received w ++ [Json doc]
    /\ JS.prop doc "id" = ok (JNum (Z.of_nat (lastId w)))
    /\ JS.prop doc "result" = ok v
    /\ pipe w' = []
    /\ srv w' = initial_store
    /\ lastId w' = S (lastId w).
Proof.
  intros Hs Hp. rewrite send_call. cbv zeta. rewrite step_eq, Hs, Hp.
  cbn [fst snd app].
  assert (E : echoes (JNum (Z.of_nat (lastId w)))
                (stdout (on_line initial_store (call_line (lastId w) method params)))).
  { unfold call_line, write_json. rewrite on_line_json.
    apply echoes_dispatch. now rewrite request_id. }
  assert (S1 : single_reply
                 (stdout (on_line initial_store (call_line (lastId w) method params)))).
  { unfold call_line, write_json. rewrite on_line_json. apply single_reply_dispatch. }
  destruct (stdout (on_line initial_store (call_line (lastId w) method params)))
    as [|[doc|s] rest]; [discriminate| |discriminate].
  cbn [single_reply] in S1. subst rest.
  unfold echoes in E. inversion E as [|? ? Hx _]. destruct Hx as [r Hr].
  subst doc. clear E.
  unfold lift. cbn [parse_line rbind ok]. rewrite response_result.
  intros Hd. injection Hd as <- <-.
  exists (response (JNum (Z.of_nat (lastId w))) r).
  cbn [sent received pipe srv lastId].
  rewrite response_id, response_result. repeat split; reflexivity.
Qed.

(** Whatever calls are made, if they all return they are correlated. *)
Lemma calls_returned (requests : list (string * value)) :
  forall (w w' : world store) (vs : list value),
    srv w = initial_store ->
    pipe w = [] ->
    sends Server.step (calls requests) w = (Done vs, w') ->
    exists rs,
      sent w' = sent w ++ call_lines (lastId w) requests
      /\ received w' = received w ++ rs
      /\ Correlated (call_lines (lastId w) requests) rs vs.
Proof.
  induction requests as [|[method params] requests IH]; intros w w' vs Hs Hp.
  - intros H. injection H as <- <-. exists []. rewrite !app_nil_r.
    repeat split. constructor.
  - cbn [calls map sends fst snd]. fold (calls requests). unfold bind at 1.
    destruct (send Server.step method params false w) as [[v| | |] w1] eqn:E1;
      try discriminate.
    destruct (call_returned method params v w w1 Hs Hp E1)
      as (doc & S1 & R1 & I1 & V1 & P1 & Sv1 & L1).
    unfold bind at 1.
    destruct (sends Server.step (calls requests) w1) as [[vs'| | |] w2] eqn:E2;
      try discriminate.
    intros H. injection H as <- <-.
    destruct (IH w1 w2 vs' Sv1 P1 E2) as (rs & S2 & R2 & C2).
    exists (Json doc :: rs).
    rewrite S2, S1, R2, R1, L1, <- !app_assoc. cbn [call_lines app].
    repeat split.
    econstructor; eauto.
    + apply id_of_call_line.
    + now rewrite <- L1.
Qed.

Lemma answered_tools_list (params : value) :
  answered initial_store ("tools/list", params).
Proof. intros id. simpl. destruct params; eexists; reflexivity. Qed.

Lemma answered_resources_list (params : value) :
  answered initial_store ("resources/list", params).
Proof. intros id. simpl. destruct params; eexists; reflexivity. Qed.

Lemma answered_ping (params : value) :
  answered initial_store ("ping", params).
Proof. intros id. simpl. destruct params; eexists; reflexivity. Qed.

Lemma answered_initialize (params : value) :
  answered initial_store ("initialize", params).
Proof. intros id. simpl. destruct params; eexists; reflexivity. Qed.

Lemma answered_getDrinkNames (arguments : value) :
  answered initial_store
    ("tools/call", JObj [("name", JStr "getDrinkNames"); ("arguments", arguments)]).
Proof. intros id. simpl. destruct arguments; eexists; reflexivity. Qed.

(** C6 (amended): in a session the identifiers of the calls are 0, 1, 2,
    ... in the order sent, each greater than every one before it; a
    notification is written without an [id] member and reads no line; and
    in a sequence of sequential calls against the server every call that
    returns has read one line, the response envelope carrying the
    identifier the call sent, and returns the [result] of that envelope.
    When the server answers each of the calls with exactly one line, all of
    them return. *)
Theorem identifiers_and_correlation
  (requests : list (string * value)) (w : world store) :
  srv w = initial_store ->
  pipe w = [] ->
  (forall (R : Type) (remote : R -> line -> R * list line) (s : R)
          (script : list (string * value * bool)),
      let w' := snd (sends remote script (fresh s)) in
      ids_of (sent w') = map Z.of_nat (seq 0 (lastId w'))
      /\ StronglySorted Z.lt (ids_of (sent w')))
  /\ (forall (R : Type) (remote : R -> line -> R * list line)
             (method : string) (params : value) (v : world R),
        exists fields v',
          send remote method params true v = (Done JUndef, v')
          /\ sent v' = sent v ++ [Json (JObj fields)]
          /\ JS.has_own "id" fields = false
          /\ received v' = received v
          /\ lastId v' = lastId v)
  /\ (forall vs w',
        sends Server.step (calls requests) w = (Done vs, w') ->
        exists rs,
          sent w' = sent w ++ call_lines (lastId w) requests
          /\ received w' = received w ++ rs
          /\ Correlated (call_lines (lastId w) requests) rs vs)
  /\ (Forall (answered initial_store) requests ->
      exists vs rs w',
        sends Server.step (calls requests) w = (Done vs, w')
        /\ sent w' = sent w ++ call_lines (lastId w) requests
        /\ received w' = received w ++ rs
        /\ Correlated (call_lines (lastId w) requests) rs vs).
Proof.
  intros Hs Hp. split; [|split; [|split]].
  - intros R remote s script w'.
    assert (N : numbered w') by (apply sends_numbered; reflexivity).
    split; [exact N|]. rewrite N. apply ids_increasing.
  - intros R remote method params v.
    destruct (notification_line_has_no_id method params) as (fields & E & H).
    exists fields. rewrite send_notification, E. eexists.
    split; [reflexivity|]. simpl. auto.
  - intros vs w' E. exact (calls_returned requests w w' vs Hs Hp E).
  - intros Ha.
    destruct (calls_answered requests w Hs Hp Ha)
      as (vs & rs & w' & E & S1 & R1 & C1 & _).
    exists vs, rs, w'. auto.
Qed.

Lemma identifiers_and_correlation_witness :
  exists vs rs w',
    sends Server.step (calls sample_requests) (fresh initial_store) = (Done vs, w')
    /\ sent w' = call_lines 0 sample_requests
    /\ received w' = rs
    /\ Correlated (call_lines 0 sample_requests) rs vs.
Proof.
  apply (identifiers_and_correlation sample_requests (fresh initial_store));
    [reflexivity|reflexivity|].
  repeat constructor.
  - apply answered_initialize.
  - apply answered_tools_list.
  - apply answered_getDrinkNames.
  - apply answered_ping.
Defined.

(** C6 as stated fails: a call the server has no branch for reads no
    response at all, and a call of [getDrinkInfo] reads the server's first
    debug line instead of its response. *)
Lemma some_calls_receive_no_result :
  fst (sends Server.step (calls [("prompts/list", JObj [])]) (fresh initial_store))
  = Blocked
  /\ fst (sends Server.step
            (calls [("tools/call",
                     JObj [("name", JStr "getDrinkInfo");
                           ("arguments", JObj [("name", JStr "Latte")])])])
            (fresh initial_store))
     = Threw SyntaxError
  /\ ~ (exists vs,
          fst (sends Server.step (calls [("prompts/list", JObj [])])
                 (fresh initial_store)) = Done vs).
Proof.
  split; [reflexivity|split; [reflexivity|]].
  intros [vs H]. discriminate H.
Qed.

(** *** Bootstrap *)

(** A call that finds the pipe empty and is answered by one document. *)
Lemma send_replied (method : string) (params doc v : value) (w : world store) :
  pipe w = [] ->
  stdout (on_line (srv w) (call_line (lastId w) method params)) = [Json doc] ->
  JS.prop doc "result" = ok v ->
  send Server.step method params false w
  = (Done v,
     {| lastId := S (lastId w); srv := srv w; pipe := [];
        sent := sent w ++ [call_line (lastId w) method params];
        received := received w ++ [Json doc];
        asked := asked w; console := console w |}).
Proof.
  intros Hp Hd Hr. rewrite send_call. cbv zeta. rewrite step_eq. cbn [fst snd].
  rewrite Hd, Hp. cbn [app]. unfold lift. cbn [parse_line rbind ok]. now rewrite Hr.
Qed.

Lemma initialize_line (st : store) (id : nat) (params : value) :
  stdout (on_line st (call_line id "initialize" params))
  = [Json (response (JNum (Z.of_nat id)) initialize_result)].
Proof. destruct params; reflexivity. Qed.

Lemma tools_list_line (st : store) (id : nat) (params : value) :
  stdout (on_line st (call_line id "tools/list" params))
  = [Json (response (JNum (Z.of_nat id))
             (JObj [("tools", JArr (map tool_entry (tools st)))]))].
Proof. destruct params; reflexivity. Qed.

Lemma resources_list_line (st : store) (id : nat) (params : value) :
  stdout (on_line st (call_line id "resources/list" params))
  = [Json (response (JNum (Z.of_nat id))
             (JObj [("resources", JArr (map resource_entry (resources st)))]))].
Proof. destruct params; reflexivity. Qed.

Lemma initialized_line (st : store) (params : value) :
  stdout (on_line st (notification_line "notifications/initialized" params)) = [].
Proof. destruct params; reflexivity. Qed.

Lemma bootstrap_catalog (st : store) (w : world store) :
  srv w = st ->
  pipe w = [] ->
  exists w',
    bootstrap Server.step w = (Done (catalog_of st), w')
    /\ srv w' = st
    /\ pipe w' = [].
Proof.
  intros Hs Hp. unfold bootstrap.
  erewrite bind_Done.
  2:{ eapply (send_replied _ _ _ initialize_result);
        [exact Hp|apply initialize_line|reflexivity]. }
  change (JS.prop initialize_result "serverInfo") with (ok serverInfo).
  change (JS.prop initialize_result "capabilities")
    with (ok (JObj [("tools", JObj [("listChanged", JBool true)]);
                    ("resources", JObj [("listChanged", JBool true)])])).
  rewrite !bind_lift_ok.
  erewrite bind_Done.
  2:{ rewrite send_notification, step_eq. cbn [fst snd srv pipe app].
      rewrite initialized_line. reflexivity. }
  change (JS.prop (JObj [("tools", JObj [("listChanged", JBool true)]);
                         ("resources", JObj [("listChanged", JBool true)])]) "tools")
    with (ok (JObj [("listChanged", JBool true)])).
  rewrite bind_lift_ok. cbn [JS.truthy].
  erewrite bind_Done.
  2:{ erewrite bind_Done.
      2:{ eapply (send_replied _ _ _
                   (JObj [("tools", JArr (map JSON.wire (map tool_entry (tools st))))]));
            [reflexivity|cbn [srv lastId]; rewrite Hs; apply tools_list_line|].
          rewrite response_result. reflexivity. }
      reflexivity. }
  change (JS.prop (JObj [("tools", JObj [("listChanged", JBool true)]);
                         ("resources", JObj [("listChanged", JBool true)])]) "resources")
    with (ok (JObj [("listChanged", JBool true)])).
  rewrite bind_lift_ok. cbn [JS.truthy].
  erewrite bind_Done.
  2:{ erewrite bind_Done.
      2:{ eapply (send_replied _ _ _
                   (JObj [("resources",
                           JArr (map JSON.wire (map resource_entry (resources st))))]));
            [reflexivity|cbn [srv lastId]; rewrite Hs; apply resources_list_line|].
          rewrite response_result. reflexivity. }
      reflexivity. }
  eexists. split; [reflexivity|]. split; [exact Hs|reflexivity].
Qed.

(** C8: however often the bootstrap sequence is run in a session against
    the server, every run yields the same catalogs, namely the entries of
    the server's tool and resource lists in their order; handling a line
    never changes the server's lists.  For the lists of the repository these
    are the tools [getDrinkNames] and [getDrinkInfo] with their
    descriptions and schemas and the resource [menu://app]. *)
Theorem bootstrap_is_repeatable (n : nat) (st : store) (w : world store) :
  srv w = st ->
  pipe w = [] ->
  (exists w',
      bootstraps Server.step n w = (Done (repeat (catalog_of st) n), w')
      /\ srv w' = st
      /\ pipe w' = [])
  /\ (forall l, fst (Server.step st l) = st)
  /\ catalog_of initial_store
     = {| Client.serverInfo :=
            JObj [("name", JStr "Coffee Shop Server"); ("version", JStr "1.0.0")];
          Client.tools :=
            JArr [JObj [("name", JStr "getDrinkNames");
                        ("description", JStr "Get the names of the drinks in the shop");
                        ("inputSchema",
                         JObj [("type", JStr "object"); ("properties", JObj [])])];
                  JObj [("name", JStr "getDrinkInfo");
                        ("description", JStr "Get more info about the drink");
                        ("inputSchema",
                         JObj [("type", JStr "object");
                               ("properties",
                                JObj [("name", JObj [("type", JStr "string")])]);
                               ("required", JArr [JStr "name"])])]];
          Client.resources :=
            JArr [JObj [("uri", JStr "menu://app"); ("name", JStr "menu")]] |}.
Proof.
  intros Hs Hp. split; [|split; [reflexivity|reflexivity]].
  revert w Hs Hp. induction n as [|n IH]; intros w Hs Hp.
  - exists w. repeat split; assumption.
  - destruct (bootstrap_catalog st w Hs Hp) as (w1 & E1 & S1 & P1).
    destruct (IH w1 S1 P1) as (w2 & E2 & S2 & P2).
    exists w2. simpl. unfold bind at 1. rewrite E1. unfold bind. rewrite E2.
    repeat split; assumption.
Qed.

Lemma bootstrap_is_repeatable_witness :
  exists w',
    bootstraps Server.step 3 (fresh initial_store)
    = (Done (repeat (catalog_of initial_store) 3), w')
    /\ srv w' = initial_store
    /\ pipe w' = [].
Proof.
  apply (bootstrap_is_repeatable 3 initial_store (fresh initial_store));
    reflexivity.
Defined.

(** *** Lines that are not JSON *)

(** C7 (amended): a line that is not JSON arriving at the server is
    reported on standard error and skipped; the loop goes on, the lines
    before and after it are handled as they would be without it, and every
    response the server writes carries the identifier of the request it
    answers. *)
Theorem malformed_request_line_is_skipped
  (st : store) (before after : list line) (s : string) :
  fst (main st (before ++ Text s :: after)) = st
  /\ snd (main st (before ++ Text s :: after))
     = map (on_line st) before
       ++ {| stdout := []; stderr := [SyntaxError] |}
       :: map (on_line st) after
  /\ (forall json id,
        JS.prop json "id" = ok id ->
        echoes id (stdout (on_line initial_store (Json json)))).
Proof.
  split; [apply main_store|split].
  - rewrite main_outputs, map_app. reflexivity.
  - intros json id H. rewrite on_line_json. now apply echoes_dispatch.
Qed.

Lemma malformed_request_line_is_skipped_witness :
  echoes (JNum 7)
    (stdout (on_line initial_store
               (write_json (request (JNum 7) "ping" (JObj []))))).
Proof.
  apply (proj2 (proj2 (malformed_request_line_is_skipped initial_store [] [] ""))).
  reflexivity.
Defined.

(** C7 as stated fails on the client: with a line that is not JSON between
    two valid responses, the second call throws on that line and the
    response meant for it stays unread. *)
Lemma malformed_reply_line_breaks_the_call :
  exists w',
    sends garbled (calls [("ping", JObj []); ("ping", JObj [])]) (fresh 0)
    = (Threw SyntaxError, w')
    /\ received w' = [Json (response (JNum 0) (JObj [])); Text "oops"]
    /\ pipe w' = [Json (response (JNum 1) (JObj []))].
Proof. eexists. split; [reflexivity|]. split; reflexivity. Qed.

End SessionFacts.

(** ** The tool-invocation loop *)

Module LoopFacts.
Import Client SendFacts.

Section AnySession.

Context {R : Type}.
Variable remote : R -> line -> R * list line.
Variable callAI : list (list value) -> res value.
Variable JSON_parse : string -> option value.
Variable ready : R -> Prop.

Lemma bind_lift {A B} (r : res A) (k : A -> M R B) (w : world R) :
  bind (lift r) k w
  = match r with
    | inl e => (Threw e, w)
    | inr a => k a w
    end.
Proof. destruct r; reflexivity. Qed.

Lemma bind_print {B} (e : event) (k : unit -> M R B) (w : world R) :
  bind (print e) k w
  = k tt {| lastId := lastId w; srv := srv w; pipe := pipe w; sent := sent w;
            received := received w; asked := asked w;
            console := console w ++ [e] |}.
Proof. reflexivity. Qed.

Lemma trace_refl (w : world R) : trace w w [].
Proof. split; simpl; [now rewrite app_nil_r|lia]. Qed.

Lemma call_lines_app (id : nat) (l1 l2 : list (string * value)) :
  call_lines id (l1 ++ l2)
  = call_lines id l1 ++ call_lines (id + List.length l1) l2.
Proof.
  revert id. induction l1 as [|[m p] l1 IH]; intros id; simpl.
  - now rewrite Nat.add_0_r.
  - rewrite IH. now rewrite Nat.add_succ_r.
Qed.

Lemma trace_trans (w1 w2 w3 : world R) (ps qs : list value) :
  trace w1 w2 ps -> trace w2 w3 qs -> trace w1 w3 (ps ++ qs).
Proof.
  intros [S1 L1] [S2 L2]. split.
  - rewrite S2, S1, L1. unfold invocations. rewrite map_app, call_lines_app.
    rewrite length_map, app_assoc. reflexivity.
  - rewrite L2, L1, length_app. lia.
Qed.

Lemma trace_same (w w' : world R) :
  sent w' = sent w -> lastId w' = lastId w -> trace w w' [].
Proof. intros S1 L1. split; simpl; [now rewrite app_nil_r|lia]. Qed.

Lemma prefix_nil {A} (l : list A) : prefix [] l.
Proof. now exists l. Qed.

Lemma prefix_refl {A} (l : list A) : prefix l l.
Proof. exists []. now rewrite app_nil_r. Qed.

Lemma prefix_app {A} (l l1 l2 : list A) : prefix l1 l2 -> prefix (l ++ l1) (l ++ l2).
Proof. intros [r ->]. exists r. now rewrite app_assoc. Qed.

Lemma prefix_app_r {A} (l1 l2 l : list A) : prefix l1 l2 -> prefix l1 (l2 ++ l).
Proof. intros [r ->]. exists (r ++ l). now rewrite app_assoc. Qed.

Lemma prefix_length {A} (l1 l2 : list A) :
  prefix l1 l2 -> List.length l1 <= List.length l2.
Proof. intros [r ->]. rewrite length_app. lia. Qed.

(** What a call leaves behind, however it ends. *)
Lemma send_call_effect (method : string) (params : value) (w w' : world R)
  (o : outcome value) :
  send remote method params false w = (o, w') ->
  sent w' = sent w ++ [call_line (lastId w) method params]
  /\ lastId w' = S (lastId w)
  /\ asked w' = asked w
  /\ console w' = console w
  /\ o <> OutOfFuel
  /\ (forall v, o = Done v ->
        exists json,
          received w' = received w ++ [json]
          /\ (doc <- parse_line json ;; JS.prop doc "result")%res = ok v).
Proof.
  rewrite send_call. cbv zeta.
  destruct (pipe w ++ _) as [|json rest].
  - intros E. injection E as <- <-. simpl. repeat split; try discriminate.
  - unfold lift. destruct (_ <- parse_line json ;; _)%res as [e|v] eqn:Ev;
      intros E; injection E as <- <-; simpl; repeat split; try discriminate.
    intros v' Hv. injection Hv as <-. now exists json.
Qed.

Lemma tool_calls_done_refl (c : conversation) (w : world R) :
  tool_calls_done JSON_parse c c w w [].
Proof.
  exists []. unfold tool_messages. simpl. rewrite !app_nil_r. repeat split.
Qed.

Lemma combine_append {A B} (l1 l2 : list A) (r1 r2 : list B) :
  List.length r1 = List.length l1 ->
  combine (l1 ++ l2) (r1 ++ r2) = combine l1 r1 ++ combine l2 r2.
Proof.
  revert r1. induction l1 as [|a l1 IH]; intros [|b r1] H; simpl in *;
    try discriminate; [reflexivity|].
  rewrite IH by lia. reflexivity.
Qed.

Lemma tool_messages_app (items1 items2 : list value) (rs1 rs2 : list line) :
  List.length rs1 = List.length items1 ->
  tool_messages JSON_parse (items1 ++ items2) (rs1 ++ rs2)
  = tool_messages JSON_parse items1 rs1 ++ tool_messages JSON_parse items2 rs2.
Proof.
  intros H. unfold tool_messages.
  rewrite combine_append by exact H. now rewrite map_app.
Qed.

Lemma tool_calls_done_trans (c1 c2 c3 : conversation) (w1 w2 w3 : world R)
  (items1 items2 : list value) :
  tool_calls_done JSON_parse c1 c2 w1 w2 items1 ->
  tool_calls_done JSON_parse c2 c3 w2 w3 items2 ->
  tool_calls_done JSON_parse c1 c3 w1 w3 (items1 ++ items2).
Proof.
  intros (rs1 & R1 & L1 & H1 & M1 & C1 & S1) (rs2 & R2 & L2 & H2 & M2 & C2 & S2).
  exists (rs1 ++ rs2). rewrite R2, R1, H2, H1, M2, M1, C2, C1, S2, S1.
  rewrite !length_app, L1, L2, map_app, tool_messages_app by exact L1.
  rewrite <- !app_assoc. repeat split.
Qed.

Lemma callable_true (tc ty : value) :
  JS.prop tc "type" = ok ty -> callable tc = is_tool_call ty.
Proof. unfold callable. now intros ->. Qed.

(** One item of the for-loop, however it ends. *)
Lemma run_tool_call_effect (c : conversation) (tc : value) (w w' : world R)
  (o : outcome conversation) :
  run_tool_call remote JSON_parse c tc w = (o, w') ->
  asked w' = asked w
  /\ o <> OutOfFuel
  /\ exists ps,
      trace w w' ps
      /\ prefix ps (planned_calls [tc])
      /\ forall c', o = Done c' ->
           ps = planned_calls [tc]
           /\ tool_calls_done JSON_parse c c' w w' (filter callable [tc]).
Proof.
  unfold run_tool_call, planned_calls. cbn [filter]. rewrite bind_lift.
  destruct (JS.prop tc "type") as [e|ty] eqn:Ety.
  { unfold callable. rewrite Ety. intros E. injection E as <- <-.
    repeat split; try discriminate. exists []. repeat split.
    - now rewrite app_nil_r.
    - simpl. lia.
    - apply prefix_nil.
    - discriminate. }
  rewrite (callable_true tc ty Ety).
  destruct (is_tool_call ty).
  2:{ intros E. injection E as <- <-. repeat split; try discriminate.
      exists []. split; [apply trace_refl|]. split; [apply prefix_nil|].
      intros c' E. injection E as <-. split; [reflexivity|].
      apply tool_calls_done_refl. }
  rewrite bind_lift. unfold call_params at 1 2.
  destruct (call_name tc) as [e|n] eqn:En.
  { intros E. injection E as <- <-. repeat split; try discriminate.
    exists []. split; [apply trace_refl|]. split; [apply prefix_nil|discriminate]. }
  rewrite bind_lift.
  destruct (JS.to_string n) as [e|shown].
  { intros E. injection E as <- <-. repeat split; try discriminate.
    exists []. split; [apply trace_refl|]. split; [apply prefix_nil|discriminate]. }
  rewrite bind_lift.
  destruct (call_arguments tc) as [e|a] eqn:Ea.
  { intros E. injection E as <- <-. repeat split; try discriminate.
    exists []. split; [apply trace_refl|]. split; [apply prefix_nil|discriminate]. }
  rewrite bind_print. unfold bind at 1.
  set (p := JObj [("name", n); ("arguments", a)]).
  destruct (send remote "tools/call" p false _) as [ov w1] eqn:Es.
  destruct (send_call_effect _ _ _ _ _ Es) as (S1 & L1 & A1 & C1 & N1 & D1).
  cbn [sent lastId asked console] in S1, L1, A1, C1.
  assert (T : forall w2, sent w2 = sent w1 -> lastId w2 = lastId w1 ->
                         trace w w2 [p]).
  { intros w2 S2 L2. split; simpl; [now rewrite S2, S1|rewrite L2, L1; lia]. }
  assert (P : prefix [p] (map call_params [tc])).
  { simpl. unfold call_params. rewrite En, Ea. apply prefix_refl. }
  destruct ov as [r|e| |]; try congruence.
  2,3: intros E; injection E as <- <-; repeat split; try discriminate; auto;
       exists [p]; split; [now apply T|]; split; [exact P|discriminate].
  destruct (D1 r eq_refl) as (json & Rj & Ej).
  rewrite bind_lift.
  assert (Q : forall e o2, o2 = Threw e ->
              (o2, w1) = (o, w') ->
              asked w' = asked w /\ o <> OutOfFuel /\
              exists ps, trace w w' ps /\ prefix ps (map call_params [tc]) /\
                (forall c', o = Done c' ->
                   ps = map call_params [tc]
                   /\ tool_calls_done JSON_parse c c' w w' [tc])).
  { intros e o2 -> E. injection E as <- <-. repeat split; try discriminate; auto.
    exists [p]. split; [now apply T|]. split; [exact P|discriminate]. }
  destruct (JS.prop r "content") as [e|content] eqn:Ec; [now apply (Q e)|].
  rewrite bind_lift.
  destruct (JS.first content) as [e|item] eqn:Ei; [now apply (Q e)|].
  rewrite bind_lift.
  destruct (JS.prop item "text") as [e|text] eqn:Et; [now apply (Q e)|].
  rewrite bind_print, bind_lift.
  destruct (JS.prop tc "id") as [e|id] eqn:Eid.
  { intros E. injection E as <- <-. repeat split; try discriminate; auto.
    exists [p]. split; [now apply T|]. split; [exact P|discriminate]. }
  intros E. injection E as <- <-. cbn [asked]. repeat split; try discriminate; auto.
  exists [p]. split; [now apply T|]. split; [exact P|].
  intros c' E. injection E as <-. split.
  { simpl. unfold call_params. now rewrite En, Ea. }
  exists [json]. cbn [received messages toolCallHistory toolCallRepeatCount
                       lastToolCallSignature List.length].
  assert (X : result_string JSON_parse json = toolResultString JSON_parse text).
  { unfold result_string, reply_text.
    destruct (parse_line json) as [e|doc]; [discriminate|]. cbn [rbind] in Ej |- *.
    rewrite Ej. unfold ok at 1. cbn [rbind]. rewrite Ec. cbn [rbind].
    rewrite Ei. cbn [rbind]. now rewrite Et. }
  unfold tool_messages. cbn [combine map fst snd]. rewrite X.
  unfold call_id. rewrite Eid. repeat split; auto.
Qed.

Lemma planned_calls_cons (tc : value) (rest : list value) :
  planned_calls (tc :: rest) = planned_calls [tc] ++ planned_calls rest.
Proof.
  unfold planned_calls. cbn [filter]. destruct (callable tc); reflexivity.
Qed.

Lemma filter_callable_cons (tc : value) (rest : list value) :
  filter callable (tc :: rest) = filter callable [tc] ++ filter callable rest.
Proof. cbn [filter]. destruct (callable tc); reflexivity. Qed.

(** The for-loop over the items of a turn, however it ends. *)
Lemma run_tool_calls_effect (results : list value) (c : conversation)
  (w w' : world R) (o : outcome conversation) :
  run_tool_calls remote JSON_parse c results w = (o, w') ->
  asked w' = asked w
  /\ o <> OutOfFuel
  /\ exists ps,
      trace w w' ps
      /\ prefix ps (planned_calls results)
      /\ forall c', o = Done c' ->
           ps = planned_calls results
           /\ tool_calls_done JSON_parse c c' w w' (filter callable results).
Proof.
  revert c w. induction results as [|tc rest IH]; intros c w.
  - intros E. injection E as <- <-. repeat split; try discriminate.
    exists []. split; [apply trace_refl|]. split; [apply prefix_nil|].
    intros c' E. injection E as <-. split; [reflexivity|apply tool_calls_done_refl].
  - cbn [run_tool_calls]. unfold bind at 1.
    destruct (run_tool_call remote JSON_parse c tc w) as [o1 w1] eqn:E1.
    destruct (run_tool_call_effect _ _ _ _ _ E1) as (A1 & N1 & ps1 & T1 & P1 & D1).
    rewrite planned_calls_cons, filter_callable_cons.
    destruct o1 as [c1|e| |]; try congruence.
    + intros E2.
      destruct (IH _ _ E2) as (A2 & N2 & ps2 & T2 & P2 & D2).
      destruct (D1 c1 eq_refl) as (-> & Q1).
      split; [congruence|]. split; [exact N2|].
      exists (planned_calls [tc] ++ ps2).
      split; [now apply (trace_trans w w1 w')|].
      split; [now apply prefix_app|].
      intros c' ->. destruct (D2 c' eq_refl) as (-> & Q2).
      split; [reflexivity|]. now apply (tool_calls_done_trans c c1 c' w w1 w').
    + intros E. injection E as <- <-. split; [exact A1|]. split; [discriminate|].
      exists ps1. split; [exact T1|]. split; [now apply prefix_app_r|discriminate].
    + intros E. injection E as <- <-. split; [exact A1|]. split; [discriminate|].
      exists ps1. split; [exact T1|]. split; [now apply prefix_app_r|discriminate].
Qed.

(** *** A remote that answers *)

Lemma rbind_ok {A B} (m : res A) (k : A -> res B) (b : B) :
  rbind m k = ok b -> exists a, m = ok a /\ k a = ok b.
Proof. destruct m as [e|a]; simpl; [discriminate|]. intros H. now exists a. Qed.

Lemma reply_text_inv (l : line) (t : value) :
  reply_text l = ok t ->
  exists doc r content item,
    l = Json doc
    /\ JS.prop doc "result" = ok r
    /\ JS.prop r "content" = ok content
    /\ JS.first content = ok item
    /\ JS.prop item "text" = ok t.
Proof.
  unfold reply_text. intros H.
  destruct l as [doc|s]; [|discriminate]. cbn [parse_line rbind ok] in H.
  apply rbind_ok in H. destruct H as (r & Hr & H).
  apply rbind_ok in H. destruct H as (content & Hc & H).
  apply rbind_ok in H. destruct H as (item & Hi & H).
  now exists doc, r, content, item.
Qed.

Lemma well_formed_inv (tc : value) :
  well_formed tc ->
  exists ty n shown a id,
    JS.prop tc "type" = ok ty
    /\ call_name tc = ok n
    /\ JS.to_string n = ok shown
    /\ call_arguments tc = ok a
    /\ JS.prop tc "id" = ok id.
Proof.
  intros [s H]. unfold signature_part in H.
  apply rbind_ok in H. destruct H as (n & Hn & H).
  apply rbind_ok in H. destruct H as (shown & Hs & H).
  apply rbind_ok in H. destruct H as (a & Ha & H).
  assert (N : tc <> JUndef /\ tc <> JNull).
  { unfold call_name in Hn. apply rbind_ok in Hn. destruct Hn as (fn & Hf & _).
    now apply prop_ok_not_null in Hf. }
  destruct N as [U N].
  destruct (prop_defined tc "type" U N) as [ty Hty].
  destruct (prop_defined tc "id" U N) as [id Hid].
  now exists ty, n, shown, a, id.
Qed.

Lemma toolResultString_string (t : string) :
  is_string (toolResultString JSON_parse (JStr t)).
Proof.
  unfold toolResultString, is_string. cbn [JS.to_string rbind ok].
  destruct (JSON_parse t) as [parsed|]; [|now exists t].
  destruct (JS.truthy parsed); [|now exists t].
  destruct (JS.prop parsed "name") as [e|n]; cbn [rbind]; [now exists t|].
  destruct (JS.truthy n); [|now exists t].
  destruct (JS.prop parsed "price") as [e|p]; cbn [rbind]; [now exists t|].
  destruct (JS.truthy p); [|now exists t].
  destruct (JS.prop parsed "description") as [e|d]; cbn [rbind]; [now exists t|].
  destruct (JS.truthy d); [|now exists t].
  destruct (JS.to_string n) as [e|ns]; cbn [rbind]; [now exists t|].
  destruct (JS.to_string p) as [e|ps]; cbn [rbind]; [now exists t|].
  destruct (JS.to_string d) as [e|ds]; cbn [rbind]; [now exists t|].
  eexists; reflexivity.
Qed.

Lemma result_string_string (l : line) :
  string_reply l -> is_string (result_string JSON_parse l).
Proof.
  intros [t H]. unfold result_string. rewrite H. apply toolResultString_string.
Qed.

(** One item of the for-loop against a remote that answers it. *)
Lemma run_tool_call_cooperative (c : conversation) (tc : value) (w : world R) :
  pipe w = [] ->
  ready (srv w) ->
  well_formed tc ->
  (forall p, In p (planned_calls [tc]) -> answers_with_text remote ready p) ->
  exists c' w' ts,
    run_tool_call remote JSON_parse c tc w = (Done c', w')
    /\ pipe w' = []
    /\ ready (srv w')
    /\ received w' = received w ++ ts
    /\ Forall string_reply ts.
Proof.
  intros Hp Hready Hw Ha.
  destruct (well_formed_inv tc Hw) as (ty & n & shown & a & id & Ety & En & Es & Ea & Eid).
  unfold run_tool_call. rewrite Ety, bind_lift_ok.
  unfold planned_calls in Ha. cbn [filter] in Ha.
  rewrite (callable_true tc ty Ety) in Ha.
  destruct (is_tool_call ty).
  2:{ exists c, w, []. rewrite app_nil_r. repeat split; auto; constructor. }
  rewrite En, bind_lift_ok, Es, bind_lift_ok, Ea, bind_lift_ok, bind_print.
  assert (Hin : In (JObj [("name", n); ("arguments", a)]) (map call_params [tc])).
  { left. unfold call_params. now rewrite En, Ea. }
  destruct (Ha _ Hin (srv w) (lastId w) Hready) as (s' & reply & t & Hr & Ht & Hs').
  destruct (reply_text_inv reply _ Ht) as (doc & r & content & item & -> & H1 & H2 & H3 & H4).
  unfold bind at 1. rewrite send_call. cbv zeta.
  cbn [srv lastId pipe sent received asked console].
  rewrite Hr, Hp. cbn [fst snd app]. unfold lift at 1.
  cbn [parse_line rbind ok]. rewrite H1. unfold ok at 1. cbv beta iota.
  rewrite H2, bind_lift_ok, H3, bind_lift_ok, H4, bind_lift_ok, bind_print.
  rewrite Eid, bind_lift_ok.
  eexists _, _, [Json doc]. split; [reflexivity|].
  cbn [pipe received srv]. repeat split; auto.
  constructor; [|constructor]. exists t. exact Ht.
Qed.

Lemma run_tool_calls_cooperative (results : list value) (c : conversation)
  (w : world R) :
  pipe w = [] ->
  ready (srv w) ->
  Forall well_formed results ->
  (forall p, In p (planned_calls results) -> answers_with_text remote ready p) ->
  exists c' w' ts,
    run_tool_calls remote JSON_parse c results w = (Done c', w')
    /\ pipe w' = []
    /\ ready (srv w')
    /\ received w' = received w ++ ts
    /\ Forall string_reply ts.
Proof.
  revert c w. induction results as [|tc rest IH]; intros c w Hp Hready Hw Ha.
  - exists c, w, []. rewrite app_nil_r. repeat split; auto; constructor.
  - inversion Hw as [|? ? Hw1 Hw2]; subst.
    rewrite planned_calls_cons in Ha.
    destruct (run_tool_call_cooperative c tc w Hp Hready Hw1)
      as (c1 & w1 & ts1 & E1 & P1 & Q1 & R1 & F1).
    { intros p Hin. apply Ha. apply in_or_app. now left. }
    destruct (IH c1 w1 P1 Q1 Hw2) as (c2 & w2 & ts2 & E2 & P2 & Q2 & R2 & F2).
    { intros p Hin. apply Ha. apply in_or_app. now right. }
    exists c2, w2, (ts1 ++ ts2). cbn [run_tool_calls]. unfold bind at 1.
    rewrite E1, E2. repeat split; auto.
    + rewrite R2, R1. now rewrite app_assoc.
    + apply Forall_app. now split.
Qed.

(** *** One turn *)

Lemma callAIWithTools_eq (messages : list value) (w : world R) :
  callAIWithTools callAI messages w
  = (match callAI (messages :: asked w) with
     | inl e => Threw e
     | inr v => Done v
     end, asked_more w messages).
Proof.
  unfold callAIWithTools, lift, asked_more.
  destruct (callAI (messages :: asked w)); reflexivity.
Qed.

Lemma note_signature_last (c : conversation) (sig : string) (ms : list value) :
  lastToolCallSignature (note_signature c sig ms) = sig.
Proof.
  unfold note_signature. destruct (String.eqb sig (lastToolCallSignature c)) eqn:E;
    simpl; [|reflexivity]. apply String.eqb_eq in E. now symmetry.
Qed.

Lemma note_signature_count (c : conversation) (sig : string) (ms : list value) :
  toolCallRepeatCount (note_signature c sig ms)
  = if String.eqb sig (lastToolCallSignature c)
    then S (toolCallRepeatCount c) else 0.
Proof.
  unfold note_signature. destruct (String.eqb sig (lastToolCallSignature c));
    reflexivity.
Qed.

Lemma note_signature_messages (c : conversation) (sig : string) (ms : list value) :
  messages (note_signature c sig ms) = ms
  /\ toolCallHistory (note_signature c sig ms) = toolCallHistory c.
Proof.
  unfold note_signature. destruct (String.eqb sig (lastToolCallSignature c));
    split; reflexivity.
Qed.

(** The guard branch, whatever the completion client answers. *)
Lemma force_answer_eq (c1 : conversation) (seen' : list nat) (w : world R) :
  force_answer callAI c1 seen' w
  = match JS.join_values newline (toolCallHistory c1) with
    | inl e => (Threw e, w)
    | inr summary =>
        let c2 := with_message c1 (summary_message summary) in
        match callAI (messages c2 :: asked w) with
        | inl e => (Threw e, asked_more w (messages c2))
        | inr r =>
            (Done (Break {| conv := c2; promptResult := r;
                            finalAnswerGiven := is_text r; counts := seen' |}),
             announced (asked_more w (messages c2)) r)
        end
    end.
Proof.
  unfold force_answer. rewrite bind_lift.
  destruct (JS.join_values newline (toolCallHistory c1)) as [e|summary];
    [reflexivity|].
  cbv zeta. unfold bind at 1. rewrite callAIWithTools_eq.
  destruct (callAI _) as [e|r]; [reflexivity|].
  destruct r; reflexivity.
Qed.

Lemma trace_later (w w1 w' : world R) (ps : list value) :
  trace w w1 ps -> sent w' = sent w1 -> lastId w' = lastId w1 -> trace w w' ps.
Proof. intros [S1 L1] S2 L2. split; congruence. Qed.

Lemma tool_calls_done_later (c c' : conversation) (w w1 w' : world R)
  (items : list value) :
  tool_calls_done JSON_parse c c' w w1 items ->
  received w' = received w1 ->
  tool_calls_done JSON_parse c c' w w' items.
Proof.
  intros (rs & R1 & rest) R2. exists rs. split; [congruence|exact rest].
Qed.

(** The branch that executes the tool calls, however it ends. *)
Lemma invoke_all_effect (c1 : conversation) (results : list value)
  (seen' : list nat) (w w' : world R) (o : outcome next) :
  invoke_all remote callAI JSON_parse c1 results seen' w = (o, w') ->
  o <> OutOfFuel
  /\ exists ps,
      trace w w' ps
      /\ prefix ps (planned_calls results)
      /\ (asked w' = asked w \/ exists ms, asked w' = ms :: asked w)
      /\ forall n, o = Done n ->
           ps = planned_calls results
           /\ exists c2 r,
               n = Again c2 r seen'
               /\ tool_calls_done JSON_parse c1 c2 w w' (filter callable results)
               /\ asked w' = messages c2 :: asked w
               /\ callAI (messages c2 :: asked w) = ok r.
Proof.
  unfold invoke_all. unfold bind at 1.
  destruct (run_tool_calls remote JSON_parse c1 results w) as [o1 w1] eqn:E1.
  destruct (run_tool_calls_effect _ _ _ _ _ E1) as (A1 & N1 & ps & T1 & P1 & D1).
  destruct o1 as [c2|e| |]; try congruence.
  2,3: intros E; injection E as <- <-; split; [discriminate|];
       exists ps; split; [exact T1|]; split; [exact P1|];
       split; [now left|intros n Hn; discriminate Hn].
  destruct (D1 c2 eq_refl) as (-> & Q1).
  unfold bind at 1. rewrite callAIWithTools_eq. rewrite A1.
  destruct (callAI (messages c2 :: asked w)) as [e|r] eqn:Ec.
  - intros E. injection E as <- <-. split; [discriminate|].
    exists (planned_calls results). split; [now apply (trace_later w w1)|].
    split; [apply prefix_refl|]. split; [right; simpl; rewrite A1; eauto|discriminate].
  - rewrite bind_print. intros E. injection E as <- <-. split; [discriminate|].
    exists (planned_calls results). split; [now apply (trace_later w w1)|].
    split; [apply prefix_refl|]. split; [right; simpl; rewrite A1; eauto|].
    intros n E. injection E as <-. split; [reflexivity|].
    exists c2, r. split; [reflexivity|]. split.
    + now apply (tool_calls_done_later c1 c2 w w1).
    + simpl. rewrite A1. auto.
Qed.

Lemma join_values_strings (sep : string) (l : list value) :
  Forall is_string l -> exists s, JS.join_values sep l = ok s.
Proof.
  induction l as [|x l IH]; intros H; [now exists ""|].
  inversion H as [|? ? [t ->] Hl]; subst. destruct (IH Hl) as [s Hs].
  cbn [JS.join_values JS.to_string ok]. destruct l as [|y l]; [now exists t|].
  rewrite Hs. eexists; reflexivity.
Qed.

(** The for-loop against a remote that answers: it goes through, leaves
    nothing unread, and adds only strings to the history. *)
Lemma run_tool_calls_answered (results : list value) (c : conversation)
  (w : world R) :
  pipe w = [] ->
  ready (srv w) ->
  Forall well_formed results ->
  (forall p, In p (planned_calls results) -> answers_with_text remote ready p) ->
  exists c' w',
    run_tool_calls remote JSON_parse c results w = (Done c', w')
    /\ pipe w' = []
    /\ ready (srv w')
    /\ (Forall is_string (toolCallHistory c) ->
        Forall is_string (toolCallHistory c')).
Proof.
  intros Hp Hready Hw Ha.
  destruct (run_tool_calls_cooperative results c w Hp Hready Hw Ha)
    as (c' & w' & ts & E & P & Q & Rt & F).
  exists c', w'. split; [exact E|]. split; [exact P|]. split; [exact Q|].
  destruct (run_tool_calls_effect _ _ _ _ _ E) as (_ & _ & ps & _ & _ & D).
  destruct (D c' eq_refl) as (_ & rs & Rr & _ & H & _).
  rewrite Rt in Rr. apply app_inv_head in Rr. subst rs.
  intros Hc. rewrite H. apply Forall_app. split; [exact Hc|].
  apply Forall_map. revert F. apply Forall_impl.
  intros l. apply result_string_string.
Qed.

Lemma invoke_all_answered (c1 : conversation) (results : list value)
  (seen' : list nat) (w : world R) (r : value) :
  pipe w = [] ->
  ready (srv w) ->
  Forall well_formed results ->
  (forall p, In p (planned_calls results) -> answers_with_text remote ready p) ->
  (forall ms, callAI (ms :: asked w) = ok r) ->
  exists c2 w',
    invoke_all remote callAI JSON_parse c1 results seen' w
    = (Done (Again c2 r seen'), w')
    /\ pipe w' = []
    /\ ready (srv w')
    /\ (Forall is_string (toolCallHistory c1) ->
        Forall is_string (toolCallHistory c2)).
Proof.
  intros Hp Hready Hw Ha Hc.
  destruct (run_tool_calls_answered results c1 w Hp Hready Hw Ha)
    as (c2 & w1 & E & P & Q & H).
  exists c2. unfold invoke_all. unfold bind at 1. rewrite E.
  destruct (run_tool_calls_effect _ _ _ _ _ E) as (A1 & _).
  unfold bind at 1. rewrite callAIWithTools_eq, A1, Hc.
  unfold ok at 1. cbv beta iota. rewrite bind_print.
  eexists. split; [reflexivity|]. split; [exact P|]. split; [exact Q|exact H].
Qed.

Lemma turn_not_text (c : conversation) (r : value) (seen : list nat) (w : world R) :
  not_text r ->
  turn remote callAI JSON_parse c r seen w
  = match mapM tool_call_entry (results_of r) with
    | inl e => (Threw e, w)
    | inr entries =>
        match toolCallSignature (results_of r) with
        | inl e => (Threw e, w)
        | inr sig =>
            let c1 :=
              note_signature c sig (messages c ++ [assistant_message entries]) in
            let seen' := seen ++ [toolCallRepeatCount c1] in
            if Nat.leb 2 (toolCallRepeatCount c1)
            then force_answer callAI c1 seen' w
            else invoke_all remote callAI JSON_parse c1 (results_of r) seen' w
        end
    end.
Proof.
  intros H.
  assert (E : turn remote callAI JSON_parse c r seen w
              = bind (lift (mapM tool_call_entry (results_of r)))
                  (fun entries =>
                     bind (lift (toolCallSignature (results_of r)))
                       (fun sig =>
                          let c1 :=
                            note_signature c sig
                              (messages c ++ [assistant_message entries]) in
                          let seen' := seen ++ [toolCallRepeatCount c1] in
                          if Nat.leb 2 (toolCallRepeatCount c1)
                          then force_answer callAI c1 seen'
                          else invoke_all remote callAI JSON_parse c1
                                 (results_of r) seen')) w).
  { destruct r; try reflexivity. exfalso. now apply (H s). }
  rewrite E, bind_lift. clear E.
  destruct (mapM tool_call_entry (results_of r)); [reflexivity|].
  rewrite bind_lift. destruct (toolCallSignature (results_of r)); [reflexivity|].
  cbv zeta. destruct (Nat.leb 2 _); reflexivity.
Qed.

Lemma turn_step (c : conversation) (r : value) (seen : list nat) (w : world R)
  (entries : list value) (sig : string) :
  not_text r ->
  mapM tool_call_entry (results_of r) = ok entries ->
  toolCallSignature (results_of r) = ok sig ->
  turn remote callAI JSON_parse c r seen w
  = let c1 := note_signature c sig (messages c ++ [assistant_message entries]) in
    let seen' := seen ++ [toolCallRepeatCount c1] in
    if Nat.leb 2 (toolCallRepeatCount c1)
    then force_answer callAI c1 seen' w
    else invoke_all remote callAI JSON_parse c1 (results_of r) seen' w.
Proof.
  intros H He Hs. rewrite (turn_not_text c r seen w H), He, Hs. reflexivity.
Qed.

Lemma mapM_ok_Forall {A B} (f : A -> res B) (l : list A) (bs : list B) :
  mapM f l = ok bs -> Forall (fun a => exists b, f a = ok b) l.
Proof.
  revert bs. induction l as [|a l IH]; intros bs H; [constructor|].
  cbn [mapM] in H. destruct (f a) as [e|b] eqn:E; [discriminate|].
  destruct (mapM f l) as [e|bs'] eqn:E'; [discriminate|].
  constructor; [now exists b|]. now apply (IH bs').
Qed.

Lemma mapM_total {A B} (f : A -> res B) (l : list A) :
  Forall (fun a => exists b, f a = ok b) l -> exists bs, mapM f l = ok bs.
Proof.
  induction 1 as [|a l [b Hb] _ [bs Hbs]]; [now exists []|].
  exists (b :: bs). cbn [mapM]. now rewrite Hb, Hbs.
Qed.

Lemma signature_well_formed (results : list value) (sig : string) :
  toolCallSignature results = ok sig -> Forall well_formed results.
Proof.
  unfold toolCallSignature. intros H.
  apply rbind_ok in H. destruct H as (parts & H & _).
  exact (mapM_ok_Forall _ _ _ H).
Qed.

Lemma well_formed_entries (results : list value) :
  Forall well_formed results -> exists entries, mapM tool_call_entry results = ok entries.
Proof.
  intros H. apply mapM_total. revert H. apply Forall_impl. intros tc Hw.
  destruct (well_formed_inv tc Hw) as (ty & n & shown & a & id & Ety & En & _ & _ & Eid).
  destruct (prop_ok_not_null _ _ _ Ety) as [U N].
  destruct (prop_defined tc "function" U N) as [fn Efn].
  unfold tool_call_entry. rewrite Eid, Ety, Efn. eexists; reflexivity.
Qed.

Lemma toolResultString_unparsed (t : string) :
  JSON_parse t = None -> toolResultString JSON_parse (JStr t) = JStr t.
Proof.
  intros H. unfold toolResultString. cbn [JS.to_string rbind ok]. now rewrite H.
Qed.

Lemma toolResultString_drink (t n d : string) (p : Z) :
  JSON_parse t
  = Some (JObj [("name", JStr n); ("price", JNum p); ("description", JStr d)]) ->
  n <> "" -> p <> 0%Z -> d <> "" ->
  toolResultString JSON_parse (JStr t)
  = JStr (n ++ ": $" ++ JS.num_to_string p ++ " - " ++ d)%string.
Proof.
  intros H Hn Hp Hd. unfold toolResultString. cbn [JS.to_string rbind ok].
  rewrite H. cbn [JS.truthy JS.prop JS.lookup ok rbind].
  cbn [String.eqb Ascii.eqb Bool.eqb].
  assert (En : String.eqb n "" = false) by now apply String.eqb_neq.
  assert (Ed : String.eqb d "" = false) by now apply String.eqb_neq.
  assert (Ep : Z.eqb p 0 = false) by now apply Z.eqb_neq.
  cbn [JS.truthy]. rewrite En, Ep, Ed. reflexivity.
Qed.

(** A turn in which the guard does not fire, against a remote that
    answers: the calls, the lines read and what they add to the history and
    to the conversation. *)
Lemma turn_invokes_in_order
  (c : conversation) (r r' : value) (sig : string) (seen : list nat)
  (w : world R) :
  not_text r ->
  toolCallSignature (results_of r) = ok sig ->
  String.eqb sig (lastToolCallSignature c) = false \/ toolCallRepeatCount c = 0 ->
  pipe w = [] ->
  ready (srv w) ->
  (forall p, In p (planned_calls (results_of r)) ->
             answers_with_text remote ready p) ->
  (forall ms, callAI (ms :: asked w) = ok r') ->
  exists c2 n w' entries replies,
    turn remote callAI JSON_parse c r seen w = (Done (Again c2 r' (seen ++ [n])), w')
    /\ n < 2
    /\ mapM tool_call_entry (results_of r) = ok entries
    /\ sent w'
       = sent w ++ call_lines (lastId w) (invocations (planned_calls (results_of r)))
    /\ received w' = received w ++ replies
    /\ List.length replies = List.length (filter callable (results_of r))
    /\ toolCallHistory c2
       = toolCallHistory c ++ map (result_string JSON_parse) replies
    /\ messages c2
       = messages c ++ assistant_message entries
           :: tool_messages JSON_parse (filter callable (results_of r)) replies
    /\ (forall t, JSON_parse t = None ->
                  toolResultString JSON_parse (JStr t) = JStr t)
    /\ (forall t name description price,
          JSON_parse t
          = Some (JObj [("name", JStr name); ("price", JNum price);
                        ("description", JStr description)]) ->
          name <> "" -> price <> 0%Z -> description <> "" ->
          toolResultString JSON_parse (JStr t)
          = JStr (name ++ ": $" ++ JS.num_to_string price ++ " - " ++ description)%string).
Proof.
  intros Hr Hsig Hg Hp Hready Ha Hc.
  pose proof (signature_well_formed _ _ Hsig) as Hw.
  destruct (well_formed_entries _ Hw) as [entries He].
  set (c1 := note_signature c sig (messages c ++ [assistant_message entries])).
  assert (Hn : toolCallRepeatCount c1 < 2).
  { unfold c1. rewrite note_signature_count.
    destruct Hg as [-> | ->]; [lia|].
    destruct (String.eqb sig (lastToolCallSignature c)); lia. }
  destruct (invoke_all_answered c1 (results_of r) (seen ++ [toolCallRepeatCount c1])
              w r' Hp Hready Hw Ha Hc) as (c2 & w' & E & P & Q & _).
  destruct (invoke_all_effect _ _ _ _ _ _ E) as (_ & ps & [S1 L1] & _ & _ & D).
  destruct (D _ eq_refl) as (-> & c2' & r2 & Hag & (rs & R1 & L2 & H1 & M1 & _) & _).
  injection Hag as <- <-.
  exists c2, (toolCallRepeatCount c1), w', entries, rs.
  split.
  { rewrite (turn_step c r seen w entries sig Hr He Hsig). cbv zeta.
    apply Nat.leb_gt in Hn. subst c1. rewrite Hn. exact E. }
  split; [exact Hn|]. split; [exact He|]. split; [exact S1|].
  split; [exact R1|]. split; [exact L2|].
  destruct (note_signature_messages c sig (messages c ++ [assistant_message entries]))
    as [Hm Hh]. fold c1 in Hm, Hh.
  split; [now rewrite H1, Hh|].
  split; [rewrite M1, Hm, <- app_assoc; reflexivity|].
  split; [exact toolResultString_unparsed|exact toolResultString_drink].
Qed.

(** *** The loop under a repeating completion *)

Lemma loop_unfold (fuel : nat) (c : conversation) (r : value) (seen : list nat)
  (w : world R) :
  loop remote callAI JSON_parse (S fuel) c r seen w
  = match turn remote callAI JSON_parse c r seen w with
    | (Done (Again c' r' seen'), w1) =>
        loop remote callAI JSON_parse fuel c' r' seen' w1
    | (Done (Break f), w1) => (Done f, w1)
    | (Threw e, w1) => (Threw e, w1)
    | (Blocked, w1) => (Blocked, w1)
    | (OutOfFuel, w1) => (OutOfFuel, w1)
    end.
Proof.
  cbn [loop]. unfold bind.
  destruct (turn remote callAI JSON_parse c r seen w) as [[[c' r' seen'|f]|e| |] w1];
    reflexivity.
Qed.

Lemma force_answer_effect (c1 : conversation) (seen' : list nat) (w w' : world R)
  (o : outcome next) :
  force_answer callAI c1 seen' w = (o, w') ->
  o <> OutOfFuel
  /\ o <> Blocked
  /\ trace w w' []
  /\ (forall n, o = Done n ->
        exists summary r,
          JS.join_values newline (toolCallHistory c1) = ok summary
          /\ callAI (messages (with_message c1 (summary_message summary)) :: asked w)
             = ok r
          /\ n = Break {| conv := with_message c1 (summary_message summary);
                          promptResult := r;
                          finalAnswerGiven := is_text r;
                          counts := seen' |}
          /\ w' = announced
                    (asked_more w (messages (with_message c1 (summary_message summary))))
                    r)
  /\ (Forall is_string (toolCallHistory c1) ->
      (forall log, exists r, callAI log = ok r) ->
      exists n, o = Done n).
Proof.
  rewrite force_answer_eq.
  destruct (JS.join_values newline (toolCallHistory c1)) as [e|summary] eqn:Ej.
  { intros E. injection E as <- <-. repeat split; try discriminate.
    - simpl. now rewrite app_nil_r.
    - simpl. lia.
    - intros Hs _. destruct (join_values_strings newline _ Hs) as [s Hs'].
      rewrite Hs' in Ej. discriminate Ej. }
  cbv zeta.
  destruct (callAI _) as [e|r] eqn:Ec.
  { intros E. injection E as <- <-. repeat split; try discriminate.
    - simpl. now rewrite app_nil_r.
    - simpl. lia.
    - intros _ Hc. destruct (Hc (messages (with_message c1 (summary_message summary))
                                   :: asked w)) as [r Hr].
      rewrite Hr in Ec. discriminate Ec. }
  intros E. injection E as <- <-. repeat split; try discriminate.
  - destruct r; simpl; now rewrite app_nil_r.
  - destruct r; simpl; lia.
  - intros n E. injection E as <-. exists summary, r. repeat split; auto.
  - intros _ _. eexists; reflexivity.
Qed.

Lemma stage_ill_formed (fuel : nat) (c : conversation) (r : value)
  (seen : list nat) (w : world R) :
  not_text r ->
  (forall entries sig,
      mapM tool_call_entry (results_of r) = ok entries ->
      toolCallSignature (results_of r) = ok sig -> False) ->
  exists e, loop remote callAI JSON_parse (S fuel) c r seen w = (Threw e, w).
Proof.
  intros Hr H. rewrite loop_unfold, (turn_not_text c r seen w Hr).
  destruct (mapM tool_call_entry (results_of r)) as [e|entries]; [now exists e|].
  destruct (toolCallSignature (results_of r)) as [e|sig]; [now exists e|].
  exfalso. now apply (H entries sig).
Qed.

(** The turn in which the count reaches 2. *)
Lemma stage_guard (fuel : nat) (c : conversation) (r : value) (seen : list nat)
  (w w' : world R) (entries : list value) (sig : string) (o : outcome final) :
  not_text r ->
  mapM tool_call_entry (results_of r) = ok entries ->
  toolCallSignature (results_of r) = ok sig ->
  lastToolCallSignature c = sig ->
  toolCallRepeatCount c = 1 ->
  loop remote callAI JSON_parse (S fuel) c r seen w = (o, w') ->
  o <> OutOfFuel
  /\ trace w w' []
  /\ (forall f, o = Done f ->
        forced_stop callAI entries f w'
        /\ counts f = seen ++ [2]
        /\ List.length (asked w') = S (List.length (asked w)))
  /\ (Forall is_string (toolCallHistory c) ->
      (forall log, exists r', callAI log = ok r') ->
      exists f, o = Done f).
Proof.
  intros Hr He Hs Hl Hc.
  rewrite loop_unfold, (turn_step c r seen w entries sig Hr He Hs). cbv zeta.
  set (c1 := note_signature c sig (messages c ++ [assistant_message entries])).
  assert (Hc1 : toolCallRepeatCount c1 = 2).
  { unfold c1. rewrite note_signature_count, Hl, String.eqb_refl, Hc. reflexivity. }
  destruct (note_signature_messages c sig (messages c ++ [assistant_message entries]))
    as [Hm Hh]. fold c1 in Hm, Hh.
  rewrite Hc1. cbn [Nat.leb].
  destruct (force_answer callAI c1 (seen ++ [2]) w) as [o1 w1] eqn:E1.
  destruct (force_answer_effect _ _ _ _ _ E1) as (N1 & B1 & T1 & D1 & C1).
  destruct o1 as [[c' r' seen'|f]|e| |]; try congruence.
  - destruct (D1 _ eq_refl) as (summary & r2 & _ & _ & X & _). discriminate X.
  - intros E. injection E as <- <-.
    destruct (D1 _ eq_refl) as (summary & r2 & Hj & Ha & X & ->).
    injection X as ->.
    split; [discriminate|]. split; [exact T1|]. split.
    + intros f' E. injection E as <-. split; [|split].
      * unfold forced_stop. cbn [conv promptResult finalAnswerGiven].
        split; [exact Hc1|]. split.
        { exists (messages c), summary. cbn [with_message messages toolCallHistory].
          rewrite Hm, <- app_assoc. split; [reflexivity|exact Hj]. }
        split; [|reflexivity].
        exists (asked w). split; [|exact Ha]. destruct r2; reflexivity.
      * reflexivity.
      * destruct r2; reflexivity.
    + intros _ _. eexists; reflexivity.
  - intros E. injection E as <- <-.
    split; [discriminate|]. split; [exact T1|]. split; [discriminate|].
    intros H1 H2. rewrite <- Hh in H1. destruct (C1 H1 H2) as [n X]. discriminate X.
Qed.

(** A turn that executes the calls, then the turn of the guard. *)
Lemma stage_one (fuel : nat) (c : conversation) (r : value) (seen : list nat)
  (w w' : world R) (entries : list value) (sig : string) (o : outcome final) :
  not_text r ->
  mapM tool_call_entry (results_of r) = ok entries ->
  toolCallSignature (results_of r) = ok sig ->
  lastToolCallSignature c = sig ->
  toolCallRepeatCount c = 0 ->
  (forall ms, callAI (ms :: asked w) = ok r) ->
  loop remote callAI JSON_parse (S (S fuel)) c r seen w = (o, w') ->
  o <> OutOfFuel
  /\ exists ps,
      trace w w' ps
      /\ prefix ps (planned_calls (results_of r))
      /\ (forall f, o = Done f ->
            ps = planned_calls (results_of r)
            /\ forced_stop callAI entries f w'
            /\ counts f = seen ++ [1; 2]
            /\ List.length (asked w') = List.length (asked w) + 2)
      /\ (cooperative remote callAI ready (results_of r) c w ->
          exists f, o = Done f).
Proof.
  intros Hr He Hs Hl Hc Hai.
  rewrite loop_unfold, (turn_step c r seen w entries sig Hr He Hs). cbv zeta.
  set (c1 := note_signature c sig (messages c ++ [assistant_message entries])).
  assert (Hc1 : toolCallRepeatCount c1 = 1).
  { unfold c1. rewrite note_signature_count, Hl, String.eqb_refl, Hc. reflexivity. }
  assert (Hl1 : lastToolCallSignature c1 = sig) by apply note_signature_last.
  destruct (note_signature_messages c sig (messages c ++ [assistant_message entries]))
    as [Hm Hh]. fold c1 in Hm, Hh.
  rewrite Hc1. cbn [Nat.leb].
  destruct (invoke_all remote callAI JSON_parse c1 (results_of r) (seen ++ [1]) w)
    as [o1 w1] eqn:E1.
  destruct (invoke_all_effect _ _ _ _ _ _ E1) as (N1 & ps & T1 & P1 & A1 & D1).
  destruct o1 as [[c2 r2 seen2|f]|e| |]; try congruence.
  - destruct (D1 _ eq_refl) as (-> & c2' & r2' & X & Q & Ha & Hr2).
    injection X as <- <- ->. rewrite Hai in Hr2. injection Hr2 as <-.
    destruct Q as (rs & _ & _ & Hh2 & _ & Hc2 & Hl2).
    intros E.
    destruct (stage_guard fuel c2 r (seen ++ [1]) w1 w' entries sig o Hr He Hs)
      as (N2 & T2 & D2 & C2); [congruence|congruence|exact E|].
    split; [exact N2|]. exists (planned_calls (results_of r)).
    split; [rewrite <- (app_nil_r (planned_calls _)); now apply (trace_trans w w1 w')|].
    split; [apply prefix_refl|]. split.
    + intros f Hf. destruct (D2 f Hf) as (F & Cn & La).
      split; [reflexivity|]. split; [exact F|].
      split; [rewrite Cn, <- app_assoc; reflexivity|].
      rewrite La, Ha. simpl. lia.
    + intros (Hp & Hrd & Hst & Han & Htot).
      destruct (invoke_all_answered c1 (results_of r) (seen ++ [1]) w r Hp Hrd
                  (signature_well_formed _ _ Hs) Han Hai)
        as (c3 & w3 & E3 & _ & _ & H3).
      rewrite E1 in E3. injection E3 as -> ->.
      apply C2; [|exact Htot]. apply H3. now rewrite Hh.
  - destruct (D1 _ eq_refl) as (_ & c2' & r2' & X & _). discriminate X.
  - intros E. injection E as <- <-. split; [discriminate|]. exists ps.
    split; [exact T1|]. split; [exact P1|]. split; [discriminate|].
    intros (Hp & Hrd & Hst & Han & Htot).
    destruct (invoke_all_answered c1 (results_of r) (seen ++ [1]) w r Hp Hrd
                (signature_well_formed _ _ Hs) Han Hai) as (c3 & w3 & E3 & _).
    rewrite E1 in E3. discriminate E3.
  - intros E. injection E as <- <-. split; [discriminate|]. exists ps.
    split; [exact T1|]. split; [exact P1|]. split; [discriminate|].
    intros (Hp & Hrd & Hst & Han & Htot).
    destruct (invoke_all_answered c1 (results_of r) (seen ++ [1]) w r Hp Hrd
                (signature_well_formed _ _ Hs) Han Hai) as (c3 & w3 & E3 & _).
    rewrite E1 in E3. discriminate E3.
Qed.

(** A turn with a new signature, then the two above. *)
Lemma stage_first (fuel : nat) (c : conversation) (r : value) (seen : list nat)
  (w w' : world R) (entries : list value) (sig : string) (o : outcome final) :
  not_text r ->
  mapM tool_call_entry (results_of r) = ok entries ->
  toolCallSignature (results_of r) = ok sig ->
  String.eqb sig (lastToolCallSignature c) = false ->
  (forall ms log,
      List.length log < List.length (asked w) + 2 -> callAI (ms :: log) = ok r) ->
  loop remote callAI JSON_parse (S (S (S fuel))) c r seen w = (o, w') ->
  o <> OutOfFuel
  /\ exists ps,
      trace w w' ps
      /\ prefix ps (planned_calls (results_of r) ++ planned_calls (results_of r))
      /\ (forall f, o = Done f ->
            ps = planned_calls (results_of r) ++ planned_calls (results_of r)
            /\ forced_stop callAI entries f w'
            /\ counts f = seen ++ [0; 1; 2]
            /\ List.length (asked w') = List.length (asked w) + 3)
      /\ (cooperative remote callAI ready (results_of r) c w ->
          exists f, o = Done f).
Proof.
  intros Hr He Hs Hl Hai.
  assert (Hai0 : forall ms, callAI (ms :: asked w) = ok r)
    by (intros ms; apply Hai; lia).
  rewrite loop_unfold, (turn_step c r seen w entries sig Hr He Hs). cbv zeta.
  set (c1 := note_signature c sig (messages c ++ [assistant_message entries])).
  assert (Hc1 : toolCallRepeatCount c1 = 0).
  { unfold c1. rewrite note_signature_count, Hl. reflexivity. }
  assert (Hl1 : lastToolCallSignature c1 = sig) by apply note_signature_last.
  destruct (note_signature_messages c sig (messages c ++ [assistant_message entries]))
    as [Hm Hh]. fold c1 in Hm, Hh.
  rewrite Hc1. cbn [Nat.leb].
  destruct (invoke_all remote callAI JSON_parse c1 (results_of r) (seen ++ [0]) w)
    as [o1 w1] eqn:E1.
  destruct (invoke_all_effect _ _ _ _ _ _ E1) as (N1 & ps & T1 & P1 & A1 & D1).
  destruct o1 as [[c2 r2 seen2|f]|e| |]; try congruence.
  - destruct (D1 _ eq_refl) as (-> & c2' & r2' & X & Q & Ha & Hr2).
    injection X as <- <- ->. rewrite Hai0 in Hr2. injection Hr2 as <-.
    destruct Q as (rs & _ & _ & Hh2 & _ & Hc2 & Hl2).
    intros E.
    destruct (stage_one fuel c2 r (seen ++ [0]) w1 w' entries sig o Hr He Hs)
      as (N2 & ps2 & T2 & P2 & D2 & C2); [congruence|congruence| |exact E|].
    { intros ms. apply Hai. rewrite Ha. simpl. lia. }
    split; [exact N2|]. exists (planned_calls (results_of r) ++ ps2).
    split; [now apply (trace_trans w w1 w')|].
    split; [now apply prefix_app|]. split.
    + intros f Hf. destruct (D2 f Hf) as (-> & F & Cn & La).
      split; [reflexivity|]. split; [exact F|].
      split; [rewrite Cn, <- app_assoc; reflexivity|].
      rewrite La, Ha. simpl. lia.
    + intros (Hp & Hrd & Hst & Han & Htot).
      destruct (invoke_all_answered c1 (results_of r) (seen ++ [0]) w r Hp Hrd
                  (signature_well_formed _ _ Hs) Han Hai0)
        as (c3 & w3 & E3 & P3 & Q3 & H3).
      rewrite E1 in E3. injection E3 as -> ->.
      apply C2. repeat split; auto. apply H3. now rewrite Hh.
  - destruct (D1 _ eq_refl) as (_ & c2' & r2' & X & _). discriminate X.
  - intros E. injection E as <- <-. split; [discriminate|]. exists ps.
    split; [exact T1|]. split; [now apply prefix_app_r|]. split; [discriminate|].
    intros (Hp & Hrd & Hst & Han & Htot).
    destruct (invoke_all_answered c1 (results_of r) (seen ++ [0]) w r Hp Hrd
                (signature_well_formed _ _ Hs) Han Hai0) as (c3 & w3 & E3 & _).
    rewrite E1 in E3. discriminate E3.
  - intros E. injection E as <- <-. split; [discriminate|]. exists ps.
    split; [exact T1|]. split; [now apply prefix_app_r|]. split; [discriminate|].
    intros (Hp & Hrd & Hst & Han & Htot).
    destruct (invoke_all_answered c1 (results_of r) (seen ++ [0]) w r Hp Hrd
                (signature_well_formed _ _ Hs) Han Hai0) as (c3 & w3 & E3 & _).
    rewrite E1 in E3. discriminate E3.
Qed.

Lemma ask_eq (fuel : nat) (prompt : string) (w : world R) :
  ask remote callAI JSON_parse fuel prompt w
  = match callAI (initial_messages prompt :: asked w) with
    | inl e => (Threw e, asked_more w (initial_messages prompt))
    | inr r =>
        loop remote callAI JSON_parse fuel (initial_conversation prompt) r []
          (asked_more w (initial_messages prompt))
    end.
Proof.
  unfold ask. unfold bind at 1. rewrite callAIWithTools_eq.
  fold (initial_messages prompt).
  destruct (callAI (initial_messages prompt :: asked w)); reflexivity.
Qed.

(** When the completion client returns the same request turn after turn,
    the loop executes the calls of the request in at most two turns and
    leaves through the guard in the next: it never needs more than three
    iterations. *)
Lemma repeated_request_stops
  (request : value) (prompt : string) (fuel : nat) (w : world R) :
  not_text request ->
  3 <= fuel ->
  (forall ms log,
      List.length log < List.length (asked w) + 3 ->
      callAI (ms :: log) = ok request) ->
  exists o w' ps,
    ask remote callAI JSON_parse fuel prompt w = (o, w')
    /\ o <> OutOfFuel
    /\ trace w w' ps
    /\ prefix ps (planned_calls (results_of request)
                    ++ planned_calls (results_of request))
    /\ List.length ps <= 2 * List.length (planned_calls (results_of request))
    /\ (List.length (planned_calls (results_of request)) <= 1 ->
        List.length ps <= 3)
    /\ (forall f, o = Done f ->
          (exists entries,
              mapM tool_call_entry (results_of request) = ok entries
              /\ forced_stop callAI entries f w')
          /\ ((counts f = [0; 1; 2]
               /\ ps = planned_calls (results_of request)
                       ++ planned_calls (results_of request)
               /\ List.length (asked w') = List.length (asked w) + 4)
              \/ (counts f = [1; 2]
                  /\ ps = planned_calls (results_of request)
                  /\ List.length (asked w') = List.length (asked w) + 3)))
    /\ ((exists sig, toolCallSignature (results_of request) = ok sig) ->
        pipe w = [] ->
        ready (srv w) ->
        (forall p, In p (planned_calls (results_of request)) ->
                   answers_with_text remote ready p) ->
        (forall log, exists r, callAI log = ok r) ->
        exists f, o = Done f).
Proof.
  intros Hr Hfuel Hai.
  destruct fuel as [|[|[|fuel]]]; try lia. clear Hfuel.
  set (w1 := asked_more w (initial_messages prompt)).
  set (c0 := initial_conversation prompt).
  assert (E0 : ask remote callAI JSON_parse (S (S (S fuel))) prompt w
               = loop remote callAI JSON_parse (S (S (S fuel))) c0 request [] w1).
  { rewrite ask_eq, Hai by lia. reflexivity. }
  assert (Hlen : forall ps, prefix ps (planned_calls (results_of request)
                                        ++ planned_calls (results_of request)) ->
                            List.length ps
                            <= 2 * List.length (planned_calls (results_of request))
                            /\ (List.length (planned_calls (results_of request)) <= 1 ->
                                List.length ps <= 3)).
  { intros ps Hp. apply prefix_length in Hp. rewrite length_app in Hp. lia. }
  destruct (mapM tool_call_entry (results_of request)) as [e1|entries] eqn:He.
  { destruct (stage_ill_formed (S (S fuel)) c0 request [] w1 Hr) as [e E].
    { intros entries sig H. rewrite He in H. discriminate H. }
    exists (Threw e), w1, []. rewrite E0.
    split; [exact E|]. split; [discriminate|]. split; [apply trace_same; reflexivity|].
    split; [apply prefix_nil|]. split; [simpl; lia|]. split; [simpl; lia|].
    split; [discriminate|].
    intros [sig Hs] _ _ _ _.
    destruct (well_formed_entries _ (signature_well_formed _ _ Hs)) as [es Hes].
    rewrite Hes in He. discriminate He. }
  destruct (toolCallSignature (results_of request)) as [e1|sig] eqn:Hs.
  { destruct (stage_ill_formed (S (S fuel)) c0 request [] w1 Hr) as [e E].
    { intros es sig _ H. rewrite Hs in H. discriminate H. }
    exists (Threw e), w1, []. rewrite E0.
    split; [exact E|]. split; [discriminate|]. split; [apply trace_same; reflexivity|].
    split; [apply prefix_nil|]. split; [simpl; lia|]. split; [simpl; lia|].
    split; [discriminate|].
    intros [sig H] _ _ _ _. discriminate H. }
  destruct (loop remote callAI JSON_parse (S (S (S fuel))) c0 request [] w1)
    as [o w'] eqn:E.
  exists o, w'.
  destruct (String.eqb sig "") eqn:Esig.
  - apply String.eqb_eq in Esig.
    destruct (stage_one (S fuel) c0 request [] w1 w' entries sig o Hr He Hs)
      as (N & ps & T & P & D & C); [now symmetry|reflexivity| |exact E|].
    { intros ms. apply Hai. simpl. lia. }
    exists ps. split; [exact E0|]. split; [exact N|]. split; [exact T|].
    split; [now apply prefix_app_r|].
    split; [apply Hlen; now apply prefix_app_r|].
    split; [apply Hlen; now apply prefix_app_r|].
    split.
    + intros f Hf. destruct (D f Hf) as (-> & F & Cn & La).
      split; [now exists entries|]. right. split; [exact Cn|]. split; [reflexivity|].
      rewrite La. simpl. lia.
    + intros _ Hp Hrd Han Htot. apply C. repeat split; auto; constructor.
  - destruct (stage_first fuel c0 request [] w1 w' entries sig o Hr He Hs Esig)
      as (N & ps & T & P & D & C); [|exact E|].
    { intros ms log Hl. apply Hai. simpl in Hl. lia. }
    exists ps. split; [exact E0|]. split; [exact N|]. split; [exact T|].
    split; [exact P|]. split; [now apply Hlen|]. split; [now apply Hlen|]. split.
    + intros f Hf. destruct (D f Hf) as (-> & F & Cn & La).
      split; [now exists entries|]. left. split; [exact Cn|]. split; [reflexivity|].
      rewrite La. simpl. lia.
    + intros _ Hp Hrd Han Htot. apply C. repeat split; auto; constructor.
Qed.

(** *** The loop under a script of distinct requests *)

Lemma turn_text (c : conversation) (s : string) (seen : list nat) (w : world R) :
  turn remote callAI JSON_parse c (JStr s) seen w
  = (Done (Break {| conv := c; promptResult := JStr s;
                    finalAnswerGiven := true; counts := seen |}),
     printed w (Answer s)).
Proof. reflexivity. Qed.

(** A turn that executes its calls against a remote that answers. *)
Lemma turn_executes (c : conversation) (r r' : value) (sig : string)
  (seen : list nat) (w : world R) :
  not_text r ->
  toolCallSignature (results_of r) = ok sig ->
  String.eqb sig (lastToolCallSignature c) = false \/ toolCallRepeatCount c = 0 ->
  pipe w = [] ->
  ready (srv w) ->
  (forall p, In p (planned_calls (results_of r)) ->
             answers_with_text remote ready p) ->
  (forall ms, callAI (ms :: asked w) = ok r') ->
  exists c2 n w',
    turn remote callAI JSON_parse c r seen w = (Done (Again c2 r' (seen ++ [n])), w')
    /\ n < 2
    /\ toolCallRepeatCount c2 = n
    /\ lastToolCallSignature c2 = sig
    /\ pipe w' = []
    /\ ready (srv w')
    /\ trace w w' (planned_calls (results_of r))
    /\ List.length (asked w') = S (List.length (asked w)).
Proof.
  intros Hr Hsig Hg Hp Hready Ha Hc.
  pose proof (signature_well_formed _ _ Hsig) as Hw.
  destruct (well_formed_entries _ Hw) as [entries He].
  set (c1 := note_signature c sig (messages c ++ [assistant_message entries])).
  assert (Hn : toolCallRepeatCount c1 < 2).
  { unfold c1. rewrite note_signature_count.
    destruct Hg as [-> | ->]; [lia|].
    destruct (String.eqb sig (lastToolCallSignature c)); lia. }
  assert (Hl1 : lastToolCallSignature c1 = sig) by apply note_signature_last.
  destruct (invoke_all_answered c1 (results_of r) (seen ++ [toolCallRepeatCount c1])
              w r' Hp Hready Hw Ha Hc) as (c2 & w' & E & P & Q & _).
  destruct (invoke_all_effect _ _ _ _ _ _ E) as (_ & ps & T & _ & _ & D).
  destruct (D _ eq_refl) as (-> & c2' & r2 & Hag & (rs & _ & _ & _ & _ & C2 & L2) & A2 & _).
  injection Hag as <- <-.
  exists c2, (toolCallRepeatCount c1), w'.
  split.
  { rewrite (turn_step c r seen w entries sig Hr He Hsig). cbv zeta.
    apply Nat.leb_gt in Hn. subst c1. rewrite Hn. exact E. }
  split; [exact Hn|]. split; [exact C2|]. split; [congruence|].
  split; [exact P|]. split; [exact Q|]. split; [exact T|].
  rewrite A2. reflexivity.
Qed.

Lemma loop_script (answer : string) (todo : list value) :
  forall (sigs : list string) (c : conversation) (seen : list nat)
         (w : world R) (fuel : nat),
    Forall not_text todo ->
    signatures_of todo sigs ->
    NoDup sigs ->
    toolCallRepeatCount c = 0 \/ ~ In (lastToolCallSignature c) sigs ->
    pipe w = [] ->
    ready (srv w) ->
    (forall r p, In r todo -> In p (planned_calls (results_of r)) ->
                 answers_with_text remote ready p) ->
    (forall k ms log,
        List.length log = List.length (asked w) + k ->
        k < List.length todo ->
        callAI (ms :: log) = ok (nth (S k) todo (JStr answer))) ->
    List.length todo < fuel ->
    exists f w' seen' evs,
      loop remote callAI JSON_parse fuel c (nth 0 todo (JStr answer)) seen w
      = (Done f, w')
      /\ promptResult f = JStr answer
      /\ finalAnswerGiven f = true
      /\ console w' = evs ++ [Answer answer]
      /\ trace w w' (scripted_calls todo)
      /\ counts f = seen ++ seen'
      /\ Forall (fun n => n < 2) seen'
      /\ List.length seen' = List.length todo
      /\ pipe w' = [].
Proof.
  induction todo as [|r rest IH]; intros sigs c seen w fuel Ht Hs Hn Hi Hp Hrd Ha Hai Hf.
  - destruct fuel as [|fuel]; [simpl in Hf; lia|].
    cbn [nth]. rewrite loop_unfold, turn_text.
    eexists _, _, [], (console w). split; [reflexivity|].
    cbn [promptResult finalAnswerGiven counts].
    repeat split; auto.
    + apply trace_same; reflexivity.
    + now rewrite app_nil_r.
  - destruct fuel as [|fuel]; [simpl in Hf; lia|].
    inversion Ht as [|? ? Hr Ht']; subst.
    inversion Hs as [|? sig ? sigs' Hsig Hs']; subst.
    inversion Hn as [|? ? Hnin Hn']; subst.
    cbn [nth]. rewrite loop_unfold.
    destruct (turn_executes c r (nth 0 rest (JStr answer)) sig seen w Hr Hsig)
      as (c2 & n & w1 & E & Hn2 & Hc2 & Hl2 & P1 & Q1 & T1 & A1); auto.
    { destruct Hi as [Hi|Hi]; [now right|]. left. apply String.eqb_neq.
      intros Heq. apply Hi. left. now symmetry. }
    { intros p Hin. apply (Ha r p); [now left|exact Hin]. }
    { intros ms. apply (Hai 0 ms (asked w)); [lia|simpl; lia]. }
    rewrite E.
    destruct (IH sigs' c2 (seen ++ [n]) w1 fuel Ht' Hs' Hn')
      as (f & w' & seen' & evs & E2 & Pr & Fa & Co & T2 & Cn & Fo & Le & P2); auto.
    { right. now rewrite Hl2. }
    { intros r0 p Hr0 Hin. apply (Ha r0 p); [now right|exact Hin]. }
    { intros k ms log Hl Hk. apply (Hai (S k) ms log); [lia|simpl; lia]. }
    { simpl in Hf. lia. }
    exists f, w', (n :: seen'), evs. split; [exact E2|].
    split; [exact Pr|]. split; [exact Fa|]. split; [exact Co|].
    split; [unfold scripted_calls; cbn [map List.concat]; now apply (trace_trans w w1 w')|].
    split; [rewrite Cn, <- app_assoc; reflexivity|].
    split; [now constructor|]. split; [simpl; now rewrite Le|exact P2].
Qed.

(** A script of turns with pairwise distinct signatures, then a text. *)
Lemma distinct_signatures_pass
  (script : list value) (sigs : list string) (answer prompt : string)
  (fuel : nat) (w : world R) :
  Forall not_text script ->
  signatures_of script sigs ->
  NoDup sigs ->
  pipe w = [] ->
  ready (srv w) ->
  (forall r p, In r script -> In p (planned_calls (results_of r)) ->
               answers_with_text remote ready p) ->
  (forall k ms log,
      List.length log = List.length (asked w) + k ->
      k <= List.length script ->
      callAI (ms :: log) = ok (nth k script (JStr answer))) ->
  List.length script < fuel ->
  exists f w' evs,
    ask remote callAI JSON_parse fuel prompt w = (Done f, w')
    /\ promptResult f = JStr answer
    /\ finalAnswerGiven f = true
    /\ console w' = evs ++ [Answer answer]
    /\ trace w w' (scripted_calls script)
    /\ Forall (fun n => n < 2) (counts f)
    /\ List.length (counts f) = List.length script
    /\ pipe w' = [].
Proof.
  intros Ht Hs Hn Hp Hrd Ha Hai Hf.
  rewrite ask_eq, (Hai 0) by lia.
  destruct (loop_script answer script sigs (initial_conversation prompt) []
              (asked_more w (initial_messages prompt)) fuel Ht Hs Hn)
    as (f & w' & seen' & evs & E & Pr & Fa & Co & T & Cn & Fo & Le & P); auto.
  { intros k ms log Hl Hk. apply (Hai (S k) ms log); [simpl in Hl; lia|lia]. }
  exists f, w', evs. split; [exact E|]. split; [exact Pr|]. split; [exact Fa|].
  split; [exact Co|]. split; [exact T|]. simpl in Cn. rewrite Cn.
  split; [exact Fo|]. split; [exact Le|exact P].
Qed.

(** *** The single call of [client.ts] *)

Lemma print_texts_quiet (blocks : list value) (w : world R) :
  sent (snd (print_texts blocks w)) = sent w
  /\ lastId (snd (print_texts blocks w)) = lastId w
  /\ asked (snd (print_texts blocks w)) = asked w.
Proof.
  revert w. induction blocks as [|tool rest IH]; intros w; [now repeat split|].
  cbn [print_texts]. unfold bind, lift, print, ret.
  destruct (JS.prop tool "type") as [e|ty]; [now repeat split|].
  destruct (JS.is_str ty "text"); [|apply IH].
  destruct (JS.prop tool "text") as [e|t]; [now repeat split|].
  destruct (IH (printed w (Said t))) as (H1 & H2 & H3).
  unfold printed in H1, H2, H3. cbn [sent lastId asked] in H1, H2, H3.
  now repeat split.
Qed.

(** The [ai] action of [client.ts] writes at most one request, whatever
    the completion returns: the [tools/call] for the last content block. *)
Lemma ask_once_calls_the_last_block_only (prompt : string) (w w' : world R)
  (o : outcome (list value)) :
  ask_once remote callAI prompt w = (o, w') ->
  sent w' = sent w
  \/ exists promptResult blocks,
       callAI ([user_message prompt] :: asked w) = ok promptResult
       /\ JS.iterate promptResult = ok blocks
       /\ sent w'
          = sent w ++ [call_line (lastId w) "tools/call"
                         (tool_use_params (List.last blocks JUndef))].
Proof.
  unfold ask_once. unfold bind at 1. rewrite callAIWithTools_eq.
  destruct (callAI ([user_message prompt] :: asked w)) as [e|promptResult] eqn:Ec;
    [intros E; injection E as <- <-; now left|].
  rewrite bind_lift.
  destruct (JS.iterate promptResult) as [e|blocks] eqn:Ei;
    [intros E; injection E as <- <-; now left|].
  unfold bind at 1.
  destruct (print_texts_quiet blocks (asked_more w [user_message prompt]))
    as (S1 & L1 & _).
  destruct (print_texts blocks (asked_more w [user_message prompt])) as [o1 w1].
  cbn [snd] in S1, L1. cbn [asked_more sent lastId] in S1, L1.
  destruct o1; try (intros E; injection E as <- <-; now left).
  rewrite bind_lift.
  destruct (JS.prop (List.last blocks JUndef) "type") as [e|ty];
    [intros E; injection E as <- <-; now left|].
  destruct (JS.is_str ty "tool_use");
    [|intros E; injection E as <- <-; now left].
  rewrite bind_lift.
  destruct (JS.prop (List.last blocks JUndef) "name") as [e|n] eqn:En;
    [intros E; injection E as <- <-; now left|].
  rewrite bind_lift.
  destruct (JS.to_string n) as [e|shown];
    [intros E; injection E as <- <-; now left|].
  rewrite bind_lift.
  destruct (JS.prop (List.last blocks JUndef) "input") as [e|input] eqn:Ein;
    [intros E; injection E as <- <-; now left|].
  rewrite bind_print. unfold bind at 1.
  destruct (send remote "tools/call" (JObj [("name", n); ("arguments", input)])
              false _) as [o2 w2] eqn:Es.
  apply send_call_effect in Es. destruct Es as (S2 & _).
  cbn [printed sent lastId] in S2. rewrite S1, L1 in S2.
  intros E. right. exists promptResult, blocks.
  split; [reflexivity|]. split; [exact Ei|].
  unfold tool_use_params. rewrite En, Ein. cbn [get_or_undefined].
  rewrite <- S2. revert E.
  destruct o2 as [r| | |]; try (intros E; now injection E as <- <-).
  rewrite bind_lift. destruct (JS.prop r "content") as [e|content];
    [intros E; now injection E as <- <-|].
  rewrite bind_lift. destruct (JS.prop (List.last blocks JUndef) "id") as [e|id];
    [intros E; now injection E as <- <-|].
  rewrite bind_lift. destruct (JS.first content) as [e|item];
    [intros E; now injection E as <- <-|].
  rewrite bind_lift. destruct (JS.prop item "text") as [e|text];
    [intros E; now injection E as <- <-|].
  unfold bind at 1. rewrite callAIWithTools_eq.
  match goal with
  | |- context [callAI ?log] => destruct (callAI log) as [e|followupResult]
  end; [intros E; now injection E as <- <-|].
  rewrite bind_lift. destruct (JS.iterate followupResult) as [e|followups];
    [intros E; now injection E as <- <-|].
  unfold bind.
  destruct (print_texts_quiet followups
              (asked_more w2
                 (([user_message prompt] ++ [assistant_blocks promptResult])
                    ++ [tool_result_message id text]))) as (S3 & _).
  destruct (print_texts followups _) as [o3 w3]. cbn [snd] in S3.
  destruct o3; unfold ret; intros E; injection E as <- <-; exact S3.
Qed.

End AnySession.
End LoopFacts.

(** ** The loop against the server of the repository *)

Module LoopWitnesses.
Import Client LoopFacts Sample.

Lemma names_call_answered (id arguments : string) :
  answers_with_text Server.step at_start
    (call_params (tool_call id "getDrinkNames" arguments)).
Proof.
  intros s n ->. eexists _, _, _. split; [reflexivity|]. split; reflexivity.
Qed.

(** The same session, run: two invocations, then the forced stop. *)
Example stubborn_session :
  (exists f,
      fst (ask Server.step stubborn Decoder.JSON_parse 3 question
             (fresh Server.initial_store)) = Done f
      /\ counts f = [0; 1; 2]
      /\ finalAnswerGiven f = false
      /\ promptResult f = JArr [names_call])
  /\ sent (snd (ask Server.step stubborn Decoder.JSON_parse 3 question
                  (fresh Server.initial_store)))
     = call_lines 0 (invocations [call_params names_call; call_params names_call])
  /\ List.length (asked (snd (ask Server.step stubborn Decoder.JSON_parse 3 question
                                 (fresh Server.initial_store)))) = 4.
Proof.
  split; [|split]; [|vm_compute; reflexivity|vm_compute; reflexivity].
  eexists. split; [vm_compute; reflexivity|]. repeat split.
Qed.

Lemma script_signatures :
  signatures_of script ["getDrinkNames:{}"; "undefined:undefined|getDrinkNames:{ }"].
Proof. repeat constructor. Qed.

(** [client.ts], asked for two tools in one completion, calls the second
    one only and answers the first with nothing. *)
Example eager_session :
  fst (ask_once Server.step eager question (fresh Server.initial_store))
  = Done [user_message question;
          assistant_blocks two_uses;
          tool_result_message (JStr "toolu_2")
            (JSON.stringify
               (JObj [("names", JArr [JStr "Latte"; JStr "Mocha"; JStr "Flat White"])]))]
  /\ sent (snd (ask_once Server.step eager question (fresh Server.initial_store)))
     = [call_line 0 "tools/call"
          (JObj [("name", JStr "getDrinkNames");
                 ("arguments", JObj [("all", JBool true)])])]
  /\ console (snd (ask_once Server.step eager question (fresh Server.initial_store)))
     = [Said (JStr "Let me look that up.");
        Requesting (JStr "getDrinkNames") (JObj [("all", JBool true)]);
        Said (JStr answer)].
Proof.
  split; [|split]; vm_compute; reflexivity.
Qed.

End LoopWitnesses.

(** ** The loop against what is expected of it *)

Module LoopContract.
Import Client SendFacts LoopFacts.

(** *** The client's own definitions against the expected ones *)

Lemma get_prop (item : value) (k : string) :
  has_properties item -> JS.prop item k = ok (Expected.get item k).
Proof.
  intros [U N]. unfold Expected.get.
  destruct item; try reflexivity; try congruence.
  - cbn. destruct (String.eqb k "length"); reflexivity.
  - cbn. destruct (String.eqb k "length"); reflexivity.
Qed.

Lemma get_opt_prop (v : value) (k : string) :
  JS.opt_prop v k = ok (Expected.get v k).
Proof.
  unfold Expected.get. destruct v; try reflexivity; cbn;
    destruct (String.eqb k "length"); reflexivity.
Qed.

Lemma requested_callable (item : value) :
  Expected.requested item = callable item.
Proof.
  unfold Expected.requested, Expected.get, callable, is_tool_call.
  destruct (JS.prop item "type") as [e|[]]; reflexivity.
Qed.

Lemma call_name_expected (item : value) :
  has_properties item -> call_name item = ok (Expected.name_of item).
Proof.
  intros H. unfold call_name, Expected.name_of.
  rewrite (get_prop item "function" H). cbn [rbind ok].
  rewrite get_opt_prop. cbn [rbind ok].
  rewrite (get_prop item "name" H). reflexivity.
Qed.

Lemma call_arguments_expected (item : value) :
  has_properties item -> call_arguments item = ok (Expected.arguments_of item).
Proof.
  intros H. unfold call_arguments, Expected.arguments_of.
  rewrite (get_prop item "function" H). cbn [rbind ok].
  rewrite get_opt_prop. cbn [rbind ok].
  rewrite (get_prop item "input" H). reflexivity.
Qed.

Lemma params_call_params (item : value) :
  Expected.params item = call_params item.
Proof.
  unfold Expected.params, call_params.
  destruct item; try reflexivity;
    (rewrite call_name_expected, call_arguments_expected by (split; discriminate);
     reflexivity).
Qed.

Lemma calls_planned (items : list value) :
  Expected.calls items = planned_calls items.
Proof.
  unfold Expected.calls, planned_calls.
  induction items as [|item rest IH]; [reflexivity|].
  cbn [filter]. rewrite requested_callable.
  destruct (callable item); cbn [map]; rewrite ?params_call_params, IH; reflexivity.
Qed.

Lemma filter_requested (items : list value) :
  filter Expected.requested items = filter callable items.
Proof.
  induction items as [|item rest IH]; [reflexivity|].
  cbn [filter]. rewrite requested_callable, IH. reflexivity.
Qed.

Lemma request_lines_call_lines (id : nat) (ps : list value) :
  Expected.request_lines id ps = call_lines id (invocations ps).
Proof.
  revert id. induction ps as [|p rest IH]; intros id; [reflexivity|].
  cbn [Expected.request_lines invocations map call_lines]. now rewrite IH.
Qed.

Lemma answers_expected {R} (remote : R -> line -> R * list line) (ready : R -> Prop)
  (p : value) :
  Expected.answers remote ready p -> answers_with_text remote ready p.
Proof. intros H. exact H. Qed.

Lemma signature_part_expected (item : value) :
  has_properties item ->
  Client.signature_part item = Expected.signature_part item.
Proof.
  intros H. unfold Client.signature_part, Expected.signature_part.
  rewrite (call_name_expected item H), (call_arguments_expected item H).
  reflexivity.
Qed.

Lemma signature_expected (items : list value) :
  Forall has_properties items ->
  toolCallSignature items = Expected.signature items.
Proof.
  intros H. unfold toolCallSignature, Expected.signature. f_equal.
  induction H as [|item rest Hi _ IH]; [reflexivity|].
  cbn [mapM Expected.signature_parts]. rewrite (signature_part_expected item Hi).
  destruct (Expected.signature_part item) as [e|p]; [reflexivity|].
  cbn [rbind]. rewrite IH.
  destruct (Expected.signature_parts rest); reflexivity.
Qed.

Lemma entries_expected (items : list value) :
  Forall has_properties items ->
  mapM tool_call_entry items = ok (map Expected.tool_call_entry items).
Proof.
  induction 1 as [|item rest Hi _ IH]; [reflexivity|].
  cbn [mapM map]. unfold tool_call_entry at 1.
  rewrite (get_prop item "id" Hi), (get_prop item "type" Hi),
    (get_prop item "function" Hi). cbn [rbind ok]. rewrite IH. reflexivity.
Qed.

Lemma assistant_message_expected (items : list value) :
  assistant_message (map Expected.tool_call_entry items)
  = Expected.assistant_message items.
Proof. reflexivity. Qed.

Lemma summary_message_expected (summary : string) :
  summary_message summary = Expected.summary_message summary.
Proof. reflexivity. Qed.


Section AnyParser.
Variable JSON_parse : string -> option value.

Lemma toolResultString_expected (t : string) :
  toolResultString JSON_parse (JStr t) = Expected.formatted JSON_parse t.
Proof.
  unfold toolResultString, Expected.formatted. cbn [JS.to_string rbind ok].
  destruct (JSON_parse t) as [parsed|]; [|reflexivity].
  destruct (JS.truthy parsed) eqn:Tp; [|reflexivity].
  assert (Hp : has_properties parsed) by (split; intros ->; discriminate Tp).
  rewrite (get_prop parsed "name" Hp), (get_prop parsed "price" Hp),
    (get_prop parsed "description" Hp).
  cbn [rbind ok andb].
  destruct (JS.truthy (Expected.get parsed "name")); [|reflexivity].
  destruct (JS.truthy (Expected.get parsed "price")); [|reflexivity].
  destruct (JS.truthy (Expected.get parsed "description")); [|reflexivity].
  cbn [andb].
  destruct (JS.to_string (Expected.get parsed "name")) as [e|n]; [reflexivity|].
  destruct (JS.to_string (Expected.get parsed "price")) as [e|p]; [reflexivity|].
  destruct (JS.to_string (Expected.get parsed "description")) as [e|d];
    reflexivity.
Qed.

(** The texts of reply lines that carry strings, and what they add to the
    history and to the conversation. *)
Lemma string_replies (replies : list line) :
  Forall string_reply replies ->
  exists texts,
    Forall2 (fun reply text => reply_text reply = ok (JStr text)) replies texts
    /\ map (result_string JSON_parse) replies
       = map (Expected.formatted JSON_parse) texts.
Proof.
  induction 1 as [|reply rest [t Ht] _ (texts & F & E)].
  - exists []. split; [constructor|reflexivity].
  - exists (t :: texts). split; [now constructor|].
    cbn [map]. rewrite E. f_equal.
    unfold result_string. rewrite Ht. cbn [get_or_undefined].
    apply toolResultString_expected.
Qed.

Lemma tool_messages_expected (items : list value) (replies : list line) :
  tool_messages JSON_parse items replies
  = Expected.tool_messages items (map (result_string JSON_parse) replies).
Proof.
  unfold tool_messages, Expected.tool_messages.
  revert replies. induction items as [|item rest IH]; intros [|reply replies];
    try reflexivity.
  cbn [combine map fst snd]. now rewrite IH.
Qed.

End AnyParser.

Lemma items_results_of (r : value) : Expected.items r = results_of r.
Proof. reflexivity. Qed.




Section AnySession.
Context {R : Type}.
Variable remote : R -> line -> R * list line.
Variable callAI : list (list value) -> res value.
Variable JSON_parse : string -> option value.
Variable ready : R -> Prop.

(** C5: in a turn of the loop of [client_open_ai.ts] whose completion is
    not a text, when the guard does not fire and the remote answers every
    call with one line that carries a text, the loop writes one
    [tools/call] with [{name, arguments}] for every item whose type is
    [function] or [tool_use], in the order of the list and numbered on from
    [lastId], and nothing else; it reads one line for each; the text of
    each, reformatted when it is JSON for a record with a name, a price and
    a description and as it is otherwise, goes to the end of the history
    and, in a tool-role message with the item's identifier, to the end of
    the conversation, behind the assistant message that lists the items;
    and that conversation is sent for the next completion. *)
Theorem every_requested_tool_call_is_executed_in_order
  (c : conversation) (r r' : value) (sig : string) (seen : list nat)
  (w : world R) :
  not_text r ->
  Forall has_properties (Expected.items r) ->
  Expected.signature (Expected.items r) = ok sig ->
  String.eqb sig (lastToolCallSignature c) = false \/ toolCallRepeatCount c = 0 ->
  pipe w = [] ->
  ready (srv w) ->
  (forall p, In p (Expected.calls (Expected.items r)) ->
             Expected.answers remote ready p) ->
  (forall ms, callAI (ms :: asked w) = ok r') ->
  exists c2 n w' replies texts,
    turn remote callAI JSON_parse c r seen w = (Done (Again c2 r' (seen ++ [n])), w')
    /\ n < 2
    /\ sent w'
       = sent w ++ Expected.request_lines (lastId w) (Expected.calls (Expected.items r))
    /\ lastId w' = lastId w + List.length (Expected.calls (Expected.items r))
    /\ received w' = received w ++ replies
    /\ pipe w' = []
    /\ Forall2 (fun reply text => reply_text reply = ok (JStr text)) replies texts
    /\ List.length texts = List.length (Expected.calls (Expected.items r))
    /\ toolCallHistory c2
       = toolCallHistory c ++ map (Expected.formatted JSON_parse) texts
    /\ messages c2
       = messages c
           ++ Expected.assistant_message (Expected.items r)
           :: Expected.tool_messages (filter Expected.requested (Expected.items r))
                (map (Expected.formatted JSON_parse) texts)
    /\ asked w' = messages c2 :: asked w.
Proof.
  intros Hr Hi Hsig Hg Hp Hready Ha Hc.
  rewrite items_results_of in *.
  rewrite <- (signature_expected _ Hi) in Hsig.
  pose proof (signature_well_formed _ _ Hsig) as Hw.
  pose proof (entries_expected _ Hi) as He.
  set (entries := map Expected.tool_call_entry (results_of r)) in *.
  set (c1 := note_signature c sig (messages c ++ [assistant_message entries])).
  assert (Hn : toolCallRepeatCount c1 < 2).
  { unfold c1. rewrite note_signature_count.
    destruct Hg as [-> | ->]; [lia|].
    destruct (String.eqb sig (lastToolCallSignature c)); lia. }
  destruct (note_signature_messages c sig (messages c ++ [assistant_message entries]))
    as [Hm Hh]. fold c1 in Hm, Hh.
  rewrite calls_planned in Ha |- *.
  destruct (run_tool_calls_cooperative remote JSON_parse ready (results_of r) c1 w
              Hp Hready Hw Ha) as (c2 & w1 & ts & E1 & P1 & Q1 & R1 & F1).
  destruct (run_tool_calls_effect _ _ _ _ _ _ _ E1) as (A1 & _ & ps & [S1 L1] & _ & D1).
  destruct (D1 c2 eq_refl) as (-> & rs & R2 & Len & H2 & M2 & _).
  rewrite R1 in R2. apply app_inv_head in R2. subst rs.
  destruct (string_replies JSON_parse ts F1) as (texts & F2 & Et).
  exists c2, (toolCallRepeatCount c1),
    (printed (asked_more w1 (messages c2)) (FollowUp r')), ts, texts.
  split.
  { rewrite (turn_step remote callAI JSON_parse c r seen w entries sig Hr He Hsig).
    cbv zeta. apply Nat.leb_gt in Hn. fold c1. rewrite Hn.
    unfold invoke_all. unfold bind at 1. rewrite E1.
    unfold bind at 1. rewrite callAIWithTools_eq, A1, Hc.
    unfold ok at 1. cbv beta iota. rewrite bind_print. reflexivity. }
  cbn [printed asked_more sent lastId received pipe asked].
  split; [exact Hn|].
  split; [rewrite S1, request_lines_call_lines; reflexivity|].
  split; [exact L1|]. split; [exact R1|]. split; [exact P1|]. split; [exact F2|].
  split.
  { rewrite <- (Forall2_length F2), Len. unfold planned_calls.
    now rewrite length_map. }
  split; [now rewrite H2, Hh, Et|].
  split; [|now rewrite A1].
  rewrite M2, Hm, <- app_assoc, tool_messages_expected, Et, filter_requested.
  reflexivity.
Qed.

Lemma script_calls_expected (script : list value) :
  Expected.script_calls script = scripted_calls script.
Proof.
  unfold Expected.script_calls, scripted_calls. f_equal.
  apply map_ext. intros r. apply calls_planned.
Qed.

(** C2: when the completion client returns turns whose signatures are
    pairwise distinct and then a text, and the remote answers every call
    with one line that carries a text, the loop writes the calls of every
    turn exactly once, in the order given and numbered on from [lastId],
    prints the text as the final answer and ends, with nothing left unread;
    the repeat count stays below 2 in every turn. *)
Theorem distinct_requests_pass_through
  (script : list value) (sigs : list string) (answer prompt : string)
  (fuel : nat) (w : world R) :
  Forall not_text script ->
  Forall (fun r => Forall has_properties (Expected.items r)) script ->
  Forall2 (fun r sig => Expected.signature (Expected.items r) = ok sig) script sigs ->
  NoDup sigs ->
  pipe w = [] ->
  ready (srv w) ->
  (forall r p, In r script -> In p (Expected.calls (Expected.items r)) ->
               Expected.answers remote ready p) ->
  (forall k ms log,
      List.length log = List.length (asked w) + k ->
      k <= List.length script ->
      callAI (ms :: log) = ok (nth k script (JStr answer))) ->
  List.length script < fuel ->
  exists f w' evs,
    ask remote callAI JSON_parse fuel prompt w = (Done f, w')
    /\ promptResult f = JStr answer
    /\ finalAnswerGiven f = true
    /\ console w' = evs ++ [Answer answer]
    /\ sent w'
       = sent w ++ Expected.request_lines (lastId w) (Expected.script_calls script)
    /\ lastId w' = lastId w + List.length (Expected.script_calls script)
    /\ Forall (fun n => n < 2) (counts f)
    /\ List.length (counts f) = List.length script
    /\ pipe w' = [].
Proof.
  intros Ht Hi Hs Hn Hp Hrd Ha Hai Hf.
  assert (Hs' : signatures_of script sigs).
  { unfold signatures_of. clear - Hi Hs. revert Hi.
    induction Hs as [|r sig script sigs H _ IH]; intros Hi; [constructor|].
    inversion Hi as [|? ? H1 H2]; subst. constructor; [|now apply IH].
    rewrite <- items_results_of, (signature_expected _ H1). exact H. }
  destruct (distinct_signatures_pass remote callAI JSON_parse ready script sigs
              answer prompt fuel w Ht Hs' Hn Hp Hrd)
    as (f & w' & evs & E & Pr & Fa & Co & [S1 L1] & Fo & Le & P); auto.
  { intros r p Hr Hin. apply (Ha r p Hr). rewrite calls_planned. exact Hin. }
  exists f, w', evs. rewrite script_calls_expected, request_lines_call_lines.
  repeat split; assumption.
Qed.


End AnySession.

End LoopContract.

Module LoopContractWitnesses.
Import Client LoopFacts LoopContract Sample Turns.

Lemma names_call_expected (id arguments : string) :
  Expected.answers Server.step at_start
    (Expected.params (tool_call id "getDrinkNames" arguments)).
Proof.
  intros s n ->. eexists _, _, _. split; [reflexivity|]. split; reflexivity.
Qed.



Lemma script_signatures_expected :
  Forall2 (fun r sig => Expected.signature (Expected.items r) = ok sig)
    script ["getDrinkNames:{}"; "undefined:undefined|getDrinkNames:{ }"].
Proof. repeat constructor. Qed.

Lemma distinct_requests_pass_through_witness :
  exists f w' evs,
    ask Server.step scripted Decoder.JSON_parse 3 question
      (fresh Server.initial_store) = (Done f, w')
    /\ promptResult f = JStr answer
    /\ finalAnswerGiven f = true
    /\ console w' = evs ++ [Answer answer]
    /\ sent w' = [] ++ Expected.request_lines 0 (Expected.script_calls script)
    /\ lastId w' = 0 + List.length (Expected.script_calls script)
    /\ Forall (fun n => n < 2) (counts f)
    /\ List.length (counts f) = 2
    /\ pipe w' = [].
Proof.
  apply (distinct_requests_pass_through Server.step scripted Decoder.JSON_parse
           at_start script
           ["getDrinkNames:{}"; "undefined:undefined|getDrinkNames:{ }"]
           answer question 3 (fresh Server.initial_store)).
  - repeat constructor; intros s H; discriminate H.
  - repeat constructor; discriminate.
  - exact script_signatures_expected.
  - repeat constructor; simpl; intuition discriminate.
  - reflexivity.
  - reflexivity.
  - intros r p [<-|[<-|[]]] [<-|[]]; apply names_call_expected.
  - intros k ms log Hl Hk. unfold scripted. cbn [List.length].
    rewrite Nat.sub_succ, Nat.sub_0_r, Hl. reflexivity.
  - simpl. lia.
Defined.

(** C2 as stated fails: the three requests are pairwise distinct, they
    differ in the identifier of the call, yet they have one signature; the
    loop writes the calls of the first two and the guard fires on the
    third, whose call is never written. *)
Lemma requests_with_one_signature_are_cut_off :
  NoDup relabelled
  /\ sent (snd (ask Server.step relabelling Decoder.JSON_parse 4 question
                  (fresh Server.initial_store)))
     = [names_request 0 (JStr "{}"); names_request 1 (JStr "{}")]
  /\ exists f,
       fst (ask Server.step relabelling Decoder.JSON_parse 4 question
              (fresh Server.initial_store)) = Done f
       /\ counts f = [0; 1; 2]
       /\ toolCallRepeatCount (conv f) = 2
       /\ promptResult f = JStr answer.
Proof.
  split.
  { repeat constructor; cbn; intuition discriminate. }
  split; [vm_compute; reflexivity|].
  eexists. split; [vm_compute; reflexivity|]. repeat split.
Qed.

Lemma every_requested_tool_call_is_executed_in_order_witness :
  exists c2 n w' replies texts,
    turn Server.step direct Decoder.JSON_parse (initial_conversation question)
      (JArr [names_call; text_item; names_again]) [] (fresh Server.initial_store)
    = (Done (Again c2 (JStr answer) ([] ++ [n])), w')
    /\ n < 2
    /\ sent w'
       = [] ++ Expected.request_lines 0
                 (Expected.calls [names_call; text_item; names_again])
    /\ lastId w' = 0 + List.length (Expected.calls [names_call; text_item; names_again])
    /\ received w' = [] ++ replies
    /\ pipe w' = []
    /\ Forall2 (fun reply text => reply_text reply = ok (JStr text)) replies texts
    /\ List.length texts
       = List.length (Expected.calls [names_call; text_item; names_again])
    /\ toolCallHistory c2 = [] ++ map (Expected.formatted Decoder.JSON_parse) texts
    /\ messages c2
       = initial_messages question
           ++ Expected.assistant_message [names_call; text_item; names_again]
           :: Expected.tool_messages
                (filter Expected.requested [names_call; text_item; names_again])
                (map (Expected.formatted Decoder.JSON_parse) texts)
    /\ asked w' = messages c2 :: [].
Proof.
  apply (every_requested_tool_call_is_executed_in_order Server.step direct
           Decoder.JSON_parse at_start (initial_conversation question)
           (JArr [names_call; text_item; names_again]) (JStr answer)
           "getDrinkNames:{}|undefined:undefined|getDrinkNames:{ }" []
           (fresh Server.initial_store)).
  - intros s H. discriminate H.
  - repeat constructor; discriminate.
  - reflexivity.
  - now right.
  - reflexivity.
  - reflexivity.
  - intros p [<-|[<-|[]]]; apply names_call_expected.
  - reflexivity.
Defined.

(** The same turn, run: what is written, read and kept. *)
Example a_turn_on_the_wire :
  sent (snd (turn Server.step direct Decoder.JSON_parse (initial_conversation question)
               (JArr [names_call; text_item; names_again]) []
               (fresh Server.initial_store)))
  = [names_request 0 (JStr "{}"); names_request 1 (JStr "{ }")]
  /\ received (snd (turn Server.step direct Decoder.JSON_parse
                      (initial_conversation question)
                      (JArr [names_call; text_item; names_again]) []
                      (fresh Server.initial_store)))
     = [names_reply 0; names_reply 1]
  /\ exists c2,
       fst (turn Server.step direct Decoder.JSON_parse (initial_conversation question)
              (JArr [names_call; text_item; names_again]) []
              (fresh Server.initial_store))
       = Done (Again c2 (JStr answer) [0])
       /\ toolCallHistory c2 = [JStr names_text; JStr names_text]
       /\ skipn 3 (messages c2) = [names_result "call_1"; names_result "call_2"].
Proof.
  split; [vm_compute; reflexivity|]. split; [vm_compute; reflexivity|].
  eexists. split; [vm_compute; reflexivity|]. split; vm_compute; reflexivity.
Qed.

(** C5 as stated fails for [client.ts]: asked for two tools in one
    completion, its [ai] action calls the one of the last block only; the
    text that comes back is kept as it is, in a user message with a
    [tool_result] block, and there is no history. *)
Lemma client_ts_invokes_the_last_block_only :
  sent (snd (ask_once Server.step eager question (fresh Server.initial_store)))
  = [names_request 0 (JObj [("all", JBool true)])]
  /\ received (snd (ask_once Server.step eager question (fresh Server.initial_store)))
     = [names_reply 0]
  /\ fst (ask_once Server.step eager question (fresh Server.initial_store))
     = Done [JObj [("role", JStr "user"); ("content", JStr question)];
             JObj [("role", JStr "assistant"); ("content", two_uses)];
             JObj [("role", JStr "user");
                   ("content",
                    JArr [JObj [("type", JStr "tool_result");
                                ("tool_use_id", JStr "toolu_2");
                                ("content", JStr names_text)]])]].
Proof.
  split; [|split]; vm_compute; reflexivity.
Qed.

End LoopContractWitnesses.

(** * More properties of the code *)

Module DispatchFacts.
Import Server ServerFacts.

Lemma on_line_dispatch (st : store) (json : value) :
  on_line st (Json json)
  = match dispatch st json with
    | (o, inl e) => {| stdout := o; stderr := [e] |}
    | (o, inr _) => {| stdout := o; stderr := [] |}
    end.
Proof. unfold on_line. cbn. destruct (dispatch st json) as [o [e|u]]; reflexivity. Qed.

Lemma dispatch_resources_read (st : store) (json id params : value) :
  JS.prop json "method" = ok (JStr "resources/read") ->
  JS.prop json "id" = ok id ->
  JS.prop json "params" = ok params ->
  dispatch st json
  = (u <- plift (JS.prop params "uri") ;;
     match find (fun r => JS.is_str u (uri r)) (resources st) with
     | Some r => sendResponse id (get r (drinks st))
     | None => resource_not_found id
     end)%proc.
Proof.
  intros Em Ei Ep.
  destruct (prop_ok_not_null _ _ _ Em) as [U N].
  destruct (prop_defined json "jsonrpc" U N) as [jsonrpc Ej].
  rewrite (dispatch_methods _ _ _ _ _ Ej Em Ei), Ep, !pbind_ok.
  destruct (JS.prop params "uri") as [e|u].
  { destruct (JS.is_str jsonrpc "2.0"); reflexivity. }
  rewrite !pbind_ok.
  destruct (find _ (resources st)); destruct (JS.is_str jsonrpc "2.0"); reflexivity.
Qed.

(** X1: a [resources/read] request is answered with the menu, the drinks
    as JSON text, when its [uri] is [menu://app]; with any other [uri], a
    missing one too, the answer is a result that holds the error object, not
    an error response; when the [params] have no properties to read, the
    request fails and nothing is written. *)
Theorem resources_read_answers (json id params : value) :
  JS.prop json "method" = ok (JStr "resources/read") ->
  JS.prop json "id" = ok id ->
  JS.prop json "params" = ok params ->
  match JS.prop params "uri" with
  | inl e => on_line initial_store (Json json) = {| stdout := []; stderr := [e] |}
  | inr u =>
      exists doc,
        on_line initial_store (Json json) = {| stdout := [Json doc]; stderr := [] |}
        /\ JS.prop doc "error" = ok JUndef
        /\ JS.prop doc "result"
           = ok (if JS.is_str u "menu://app" then menu_contents else resource_error)
  end.
Proof.
  intros Em Ei Ep.
  pose proof (dispatch_resources_read initial_store _ id params Em Ei Ep) as D.
  destruct (JS.prop params "uri") as [e|u].
  { rewrite on_line_dispatch, D. reflexivity. }
  rewrite pbind_ok in D.
  assert (F : find (fun r => JS.is_str u (uri r)) (resources initial_store)
              = if JS.is_str u "menu://app" then Some menu else None).
  { cbn [resources initial_store find uri menu].
    destruct (JS.is_str u "menu://app"); reflexivity. }
  rewrite F in D.
  exists (response id (if JS.is_str u "menu://app" then menu_contents
                       else resource_error)).
  split; [|split; [apply response_error|]].
  - rewrite on_line_dispatch, D.
    destruct (JS.is_str u "menu://app"); reflexivity.
  - rewrite response_result. destruct (JS.is_str u "menu://app"); reflexivity.
Qed.

(** X2: only [initialize] looks at the [jsonrpc] member.  With a version
    other than [2.0] an [initialize] request is passed over without an
    answer, while [ping], [tools/list] and [resources/list] are answered
    whatever the version is, a missing one too. *)
Theorem only_initialize_checks_the_version (st : store) (json jsonrpc id : value) :
  JS.prop json "jsonrpc" = ok jsonrpc ->
  JS.prop json "id" = ok id ->
  (JS.prop json "method" = ok (JStr "initialize") ->
   on_line st (Json json)
   = if JS.is_str jsonrpc "2.0"
     then {| stdout := [Json (response id initialize_result)]; stderr := [] |}
     else {| stdout := []; stderr := [] |})
  /\ (JS.prop json "method" = ok (JStr "ping") ->
      on_line st (Json json)
      = {| stdout := [Json (response id (JObj []))]; stderr := [] |})
  /\ (JS.prop json "method" = ok (JStr "tools/list") ->
      on_line st (Json json)
      = {| stdout := [Json (response id
                              (JObj [("tools", JArr (map tool_entry (tools st)))]))];
           stderr := [] |})
  /\ (JS.prop json "method" = ok (JStr "resources/list") ->
      on_line st (Json json)
      = {| stdout := [Json (response id
                              (JObj [("resources",
                                      JArr (map resource_entry (resources st)))]))];
           stderr := [] |}).
Proof.
  intros Ej Ei. repeat split; intros Em;
    rewrite on_line_dispatch, (dispatch_methods _ _ _ _ _ Ej Em Ei);
    destruct (JS.is_str jsonrpc "2.0"); reflexivity.
Qed.

Lemma getDrinkInfo_logs (ds : list Drink) (args arg : value) (inputName : string) :
  JS.prop args "name" = ok arg ->
  normalize arg = ok inputName ->
  exists debug r, execute getDrinkInfo ds args = (map Text debug, ok r).
Proof.
  intros Ea En. simpl. rewrite Ea. simpl. rewrite En. simpl.
  eexists (_ :: _ :: map _ ds), _. rewrite app_nil_r. simpl. rewrite map_map.
  reflexivity.
Qed.

Lemma pbind_ok' {A B} (o : list line) (a : A) (k : A -> proc B) :
  pbind (o, ok a) k = (o ++ fst (k a), snd (k a)).
Proof. unfold pbind, ok. destruct (k a); reflexivity. Qed.

Lemma dispatch_handled_as (json : value) :
  handled_as json (dispatch initial_store json).
Proof.
  destruct (JS.prop json "jsonrpc") as [e|jsonrpc] eqn:Ej.
  { unfold dispatch. rewrite Ej. apply Failed. }
  destruct (prop_ok_not_null _ _ _ Ej) as [U N].
  destruct (prop_defined json "method" U N) as [method Em].
  destruct (prop_defined json "id" U N) as [id Ei].
  destruct (JS.is_str method "tools/call") eqn:Ec.
  { apply is_str_true in Ec. subst method.
    destruct (JS.prop json "params") as [e|params] eqn:Ep.
    { rewrite (dispatch_methods _ _ _ _ _ Ej Em Ei), Ep.
      destruct (JS.is_str jsonrpc "2.0"); apply Failed. }
    destruct (JS.prop params "name") as [e|n] eqn:En.
    { rewrite (dispatch_methods _ _ _ _ _ Ej Em Ei), Ep. cbn. rewrite En.
      destruct (JS.is_str jsonrpc "2.0"); apply Failed. }
    rewrite (dispatch_tools_call _ _ id params n Em Ei Ep En).
    destruct (find _ (tools initial_store)) as [t|] eqn:Ef.
    - destruct (JS.prop params "arguments") as [e|args]; [apply Failed|].
      rewrite pbind_ok. apply find_some in Ef. destruct Ef as [[<-|[<-|[]]] _].
      + apply (Answered json [] id); exact Ei.
      + destruct (JS.prop args "name") as [e|arg] eqn:Ea.
        { cbn [execute getDrinkInfo]. rewrite Ea. apply Failed. }
        destruct (normalize arg) as [e|inputName] eqn:En'.
        { cbn [execute getDrinkInfo]. rewrite Ea, pbind_ok, En'. apply Failed. }
        destruct (getDrinkInfo_logs (drinks initial_store) args arg inputName Ea En')
          as (debug & r & ->).
        rewrite pbind_ok'. apply Answered; exact Ei.
    - unfold tool_not_found. destruct (JS.to_string n); [apply Failed|].
      apply (Answered json [] id); exact Ei. }
  destruct (JS.is_str method "resources/read") eqn:Er.
  { apply is_str_true in Er. subst method.
    destruct (JS.prop json "params") as [e|params] eqn:Ep.
    { rewrite (dispatch_methods _ _ _ _ _ Ej Em Ei), Ep.
      destruct (JS.is_str jsonrpc "2.0"); apply Failed. }
    rewrite (dispatch_resources_read _ _ id params Em Ei Ep).
    destruct (JS.prop params "uri") as [e|u]; [apply Failed|].
    rewrite pbind_ok.
    destruct (find _ (resources initial_store));
      apply (Answered json [] id); exact Ei. }
  rewrite (dispatch_methods _ _ _ _ _ Ej Em Ei), Ec, Er.
  destruct (JS.is_str method "initialize") eqn:E1.
  { apply is_str_true in E1. subst method.
    destruct (JS.is_str jsonrpc "2.0");
      [apply (Answered json [] id); exact Ei|apply Ignored]. }
  destruct (JS.is_str method "tools/list") eqn:E2.
  { apply is_str_true in E2. subst method.
    destruct (JS.is_str jsonrpc "2.0"); apply (Answered json [] id); exact Ei. }
  destruct (JS.is_str method "resources/list") eqn:E3.
  { apply is_str_true in E3. subst method.
    destruct (JS.is_str jsonrpc "2.0"); apply (Answered json [] id); exact Ei. }
  destruct (JS.is_str method "ping") eqn:E4.
  { apply is_str_true in E4. subst method.
    destruct (JS.is_str jsonrpc "2.0"); apply (Answered json [] id); exact Ei. }
  destruct (JS.is_str jsonrpc "2.0"); apply Ignored.
Qed.

(** X3: the server as started writes at most one response for a line.
    Every line either fails with nothing written, or is passed over in
    silence, or is answered with one response that carries the request's
    [id] and comes last, after the tool's debug text if there is any. *)
Theorem a_line_gets_one_response_at_most (l : line) :
  (exists e, on_line initial_store l = {| stdout := []; stderr := [e] |})
  \/ on_line initial_store l = {| stdout := []; stderr := [] |}
  \/ (exists json debug id r,
        l = Json json
        /\ JS.prop json "id" = ok id
        /\ on_line initial_store l
           = {| stdout := map Text debug ++ [Json (response id r)]; stderr := [] |}).
Proof.
  destruct l as [json|s]; [|left; now exists SyntaxError].
  rewrite on_line_dispatch.
  destruct (dispatch_handled_as json) as [e| |debug id r Ei].
  - left. now exists e.
  - right. now left.
  - right. right. now exists json, debug, id, r.
Qed.

End DispatchFacts.

Module DrinkFacts.
Import Server ServerFacts DispatchFacts.

Lemma normalize_falsy (arg : value) :
  JS.truthy arg = false -> normalize arg = ok "".
Proof. intros H. unfold normalize, JS.or. rewrite H. reflexivity. Qed.

Lemma normalize_not_a_string (arg : value) :
  JS.truthy arg = true -> (forall s, arg <> JStr s) -> normalize arg = throw TypeError.
Proof.
  intros H N. unfold normalize, JS.or. rewrite H.
  destruct arg; try reflexivity. exfalso. now apply (N s).
Qed.

(** X4: a name that is missing or otherwise falsy is looked up as the empty
    name and not found; a name that is a number, an object, an array or
    [true] makes the tool throw, and the request is not answered. *)
Theorem getDrinkInfo_name_that_is_no_string (json id params args arg : value) :
  JS.prop json "method" = ok (JStr "tools/call") ->
  JS.prop json "id" = ok id ->
  JS.prop json "params" = ok params ->
  JS.prop params "name" = ok (JStr "getDrinkInfo") ->
  JS.prop params "arguments" = ok args ->
  JS.prop args "name" = ok arg ->
  if JS.truthy arg
  then (forall s, arg <> JStr s) ->
       on_line initial_store (Json json) = {| stdout := []; stderr := [TypeError] |}
  else exists debug,
         on_line initial_store (Json json)
         = {| stdout := map Text debug
                        ++ [Json (response id
                                    (text_content (JStr Spec.not_found_literal)))];
              stderr := [] |}.
Proof.
  intros Em Ei Ep En Ea Eg.
  pose proof (dispatch_tools_call initial_store json id params _ Em Ei Ep En) as D.
  cbn [find tools initial_store tool_name getDrinkNames getDrinkInfo JS.is_str
       String.eqb Ascii.eqb Bool.eqb] in D.
  rewrite Ea, pbind_ok in D.
  destruct (JS.truthy arg) eqn:T.
  - intros N. rewrite on_line_dispatch, D.
    cbn [execute getDrinkInfo]. rewrite Eg, pbind_ok, (normalize_not_a_string arg T N).
    reflexivity.
  - assert (X : exists debug,
               execute getDrinkInfo the_drinks args
               = (map Text debug, ok (text_content (JStr Spec.not_found_literal)))).
    { simpl. rewrite Eg. simpl. rewrite (normalize_falsy arg T). simpl.
      eexists [_; _; _; _; _]. reflexivity. }
    destruct X as [debug X]. exists debug.
    rewrite on_line_dispatch, D. cbn [drinks initial_store]. rewrite X, pbind_ok'.
    reflexivity.
Qed.

Lemma lower_char_kept_bool (c : ascii) :
  implb (alnum (lower_char c))
    (Ascii.eqb (lower_char (lower_char c)) (lower_char c)
     && (Spec.is_digit (lower_char c) || Spec.is_lower (lower_char c))) = true.
Proof. destruct c as [[] [] [] [] [] [] [] []]; reflexivity. Qed.

Lemma lower_char_kept (c : ascii) :
  alnum (lower_char c) = true ->
  lower_char (lower_char c) = lower_char c
  /\ (Spec.is_digit (lower_char c) = true \/ Spec.is_lower (lower_char c) = true).
Proof.
  intros H. pose proof (lower_char_kept_bool c) as K. rewrite H in K.
  cbn [implb] in K. apply andb_prop in K. destruct K as [K1 K2].
  split; [now apply Ascii.eqb_eq|now apply orb_prop].
Qed.

Lemma strip_app (a b : string) : strip (a ++ b) = (strip a ++ strip b)%string.
Proof.
  induction a as [|c a IH]; simpl; [reflexivity|].
  destruct (alnum c); simpl; now rewrite IH.
Qed.

Lemma toLowerCase_app (a b : string) :
  toLowerCase (a ++ b) = (toLowerCase a ++ toLowerCase b)%string.
Proof. induction a as [|c a IH]; simpl; [reflexivity|]. now rewrite IH. Qed.

Lemma strip_length (s : string) : String.length (strip s) <= String.length s.
Proof.
  induction s as [|c s IH]; simpl; [lia|]. destruct (alnum c); simpl; lia.
Qed.

Lemma toLowerCase_length (s : string) :
  String.length (toLowerCase s) = String.length s.
Proof. induction s as [|c s IH]; simpl; [reflexivity|]. now rewrite IH. Qed.

Lemma normalized_again (s : string) :
  strip (toLowerCase (strip (toLowerCase s))) = strip (toLowerCase s)
  /\ Forall (fun c => Spec.is_digit c = true \/ Spec.is_lower c = true)
       (list_ascii_of_string (strip (toLowerCase s))).
Proof.
  induction s as [|c s [IH1 IH2]]; simpl; [split; [reflexivity|constructor]|].
  destruct (alnum (lower_char c)) eqn:E; simpl; [|now split].
  destruct (lower_char_kept c E) as [K1 K2].
  rewrite K1, E, IH1. split; [reflexivity|]. now constructor.
Qed.

(** [normalize] on the strings of the model. *)
Lemma normalize_on_model_strings (s s' : string) :
  exists t t',
    normalize (JStr s) = ok t
    /\ normalize (JStr s') = ok t'
    /\ normalize (JStr t) = ok t
    /\ Forall (fun c => Spec.is_digit c = true \/ Spec.is_lower c = true)
         (list_ascii_of_string t)
    /\ String.length t <= String.length s
    /\ normalize (JStr (s ++ s')) = ok (t ++ t')%string.
Proof.
  exists (strip (toLowerCase s)), (strip (toLowerCase s')).
  rewrite !normalize_string.
  destruct (normalized_again s) as [H1 H2].
  repeat split.
  - now rewrite H1.
  - exact H2.
  - pose proof (strip_length (toLowerCase s)). now rewrite toLowerCase_length in H.
  - now rewrite toLowerCase_app, strip_app.
Qed.

Lemma find_first_of_its_kind {A} (key : A -> string) (l : list A) (a : A) :
  NoDup (map key l) -> In a l ->
  find (fun x => String.eqb (key x) (key a)) l = Some a.
Proof.
  induction l as [|x l IH]; intros Hn Hi; [destruct Hi|].
  simpl in Hn. inversion Hn as [|? ? Hx Hn']; subst.
  simpl. destruct Hi as [->|Hi]; [now rewrite String.eqb_refl|].
  destruct (String.eqb (key x) (key a)) eqn:E; [|now apply IH].
  apply String.eqb_eq in E. exfalso. apply Hx. rewrite E. now apply in_map.
Qed.

(** X6: when no two drinks have the same normalized name, every name
    that [getDrinkNames] lists is answered by [getDrinkInfo] with the record
    of that very drink. *)
Theorem listed_names_are_found (ds : list Drink) (d : Drink) (args names : value) :
  NoDup (map normalized_name ds) ->
  In d ds ->
  JS.prop args "name" = ok (JStr (name d)) ->
  exists debug,
    execute getDrinkNames ds names
    = ([], ok (text_content
                 (JSON.stringify
                    (JObj [("names", JArr (map (fun d => JStr (name d)) ds))]))))
    /\ In (JStr (name d)) (map (fun d => JStr (name d)) ds)
    /\ execute getDrinkInfo ds args
       = (map Text debug, ok (text_content (JSON.stringify (drink_value d)))).
Proof.
  intros Hn Hi Ea.
  destruct (getDrinkInfo_execute ds args (name d) Ea) as [debug E].
  exists debug. split; [reflexivity|].
  split; [now apply (in_map (fun d => JStr (name d)))|].
  rewrite E. unfold Spec.lookup_text. rewrite <- find_same_name.
  change (fun d0 => String.eqb (normalized_name d0) (strip (toLowerCase (name d))))
    with (fun d0 => String.eqb (normalized_name d0) (normalized_name d)).
  now rewrite (find_first_of_its_kind normalized_name ds d Hn Hi).
Qed.

End DrinkFacts.

Module DebugLineFacts.
Import Client Server ServerFacts SendFacts SessionFacts DispatchFacts DrinkFacts.

Lemma lookup_wire (k : string) (fields : list (string * value)) :
  JS.lookup k fields <> JUndef ->
  JS.prop (JSON.wire (JObj fields)) k = ok (JSON.wire (JS.lookup k fields)).
Proof.
  induction fields as [|[k' v] fields IH]; intros H; [now contradiction H|].
  cbn [JS.lookup] in *. destruct (String.eqb k' k) eqn:E.
  - destruct v; try (now contradiction H); cbn; rewrite E; reflexivity.
  - specialize (IH H). cbn in IH. destruct v; cbn; rewrite ?E; exact IH.
Qed.

(** The first line the server writes for a [getDrinkInfo] call is never a
    response. *)
Lemma getDrinkInfo_output (id : nat) (arguments : value) :
  let o := stdout (on_line initial_store
                     (call_line id "tools/call"
                        (JObj [("name", JStr "getDrinkInfo");
                               ("arguments", arguments)]))) in
  (o = [] \/ exists s rest, o = Text s :: rest)
  /\ (forall s, JS.prop arguments "name" = ok (JStr s) ->
      exists rest, o = Text ("Raw input: " ++ s) :: rest).
Proof.
  cbv zeta. unfold call_line, write_json. rewrite on_line_json.
  set (json := JSON.wire _).
  assert (Em : JS.prop json "method" = ok (JStr "tools/call")) by apply request_method.
  assert (Ei : JS.prop json "id" = ok (JNum (Z.of_nat id))) by apply request_id.
  assert (Ep : JS.prop json "params"
               = ok (JSON.wire (JObj [("name", JStr "getDrinkInfo");
                                      ("arguments", arguments)])))
    by apply request_params.
  assert (En : JS.prop (JSON.wire (JObj [("name", JStr "getDrinkInfo");
                                         ("arguments", arguments)])) "name"
               = ok (JStr "getDrinkInfo")) by (destruct arguments; reflexivity).
  rewrite (dispatch_tools_call _ _ _ _ _ Em Ei Ep En).
  cbn [find tools initial_store tool_name getDrinkNames getDrinkInfo JS.is_str
       String.eqb Ascii.eqb Bool.eqb].
  destruct (JS.prop (JSON.wire (JObj [("name", JStr "getDrinkInfo");
                                      ("arguments", arguments)])) "arguments")
    as [e|args] eqn:Ea.
  { destruct arguments; discriminate Ea. }
  rewrite pbind_ok. split.
  - destruct (JS.prop args "name") as [e|arg] eqn:Eg.
    { left. cbn [execute getDrinkInfo]. rewrite Eg. reflexivity. }
    destruct (normalize arg) as [e|inputName] eqn:En'.
    { left. cbn [execute getDrinkInfo]. rewrite Eg, pbind_ok, En'. reflexivity. }
    right. cbn [execute getDrinkInfo]. rewrite Eg, pbind_ok, En', pbind_ok.
    eexists _, _. reflexivity.
  - intros s Hs.
    assert (Eg : JS.prop args "name" = ok (JStr s)).
    { destruct arguments as [| | | | |items|fields];
        try discriminate Hs; try (cbn in Hs; discriminate Hs).
      assert (A : args = JSON.wire (JObj fields)).
      { cbn in Ea. injection Ea as <-. reflexivity. }
      rewrite A. cbn [JS.prop] in Hs. injection Hs as Hs.
      rewrite (lookup_wire "name" fields); rewrite Hs; [reflexivity|discriminate]. }
    cbn [execute getDrinkInfo]. rewrite Eg, pbind_ok, normalize_string, pbind_ok.
    eexists. reflexivity.
Qed.

Lemma getDrinkInfo_output_string (id : nat) (a : string) :
  exists rest,
    stdout (on_line initial_store
              (call_line id "tools/call"
                 (JObj [("name", JStr "getDrinkInfo"); ("arguments", JStr a)])))
    = Text "Raw input: undefined" :: rest
    /\ exists debug,
         rest = map Text debug
                ++ [Json (response (JNum (Z.of_nat id))
                            (text_content (JStr Spec.not_found_literal)))].
Proof.
  unfold call_line, write_json. rewrite on_line_json.
  set (json := JSON.wire _).
  assert (Em : JS.prop json "method" = ok (JStr "tools/call")) by apply request_method.
  assert (Ei : JS.prop json "id" = ok (JNum (Z.of_nat id))) by apply request_id.
  assert (Ep : JS.prop json "params"
               = ok (JObj [("name", JStr "getDrinkInfo"); ("arguments", JStr a)]))
    by apply request_params.
  rewrite (dispatch_tools_call _ _ _ _ (JStr "getDrinkInfo") Em Ei Ep eq_refl).
  cbn [find tools initial_store tool_name getDrinkNames getDrinkInfo JS.is_str
       String.eqb Ascii.eqb Bool.eqb].
  change (JS.prop (JObj [("name", JStr "getDrinkInfo"); ("arguments", JStr a)])
            "arguments") with (ok (JStr a)).
  rewrite pbind_ok. cbn [execute getDrinkInfo].
  change (JS.prop (JStr a) "name") with (ok JUndef).
  rewrite pbind_ok. change (normalize JUndef) with (ok ""). rewrite pbind_ok.
  eexists. split; [reflexivity|]. eexists [_; _; _; _]. reflexivity.
Qed.

(** What [send] comes to for a [getDrinkInfo] call. *)
Lemma getDrinkInfo_send_outcome (arguments : value) (w : world store) :
  srv w = initial_store ->
  pipe w = [] ->
  (fst (send Server.step "tools/call"
          (JObj [("name", JStr "getDrinkInfo"); ("arguments", arguments)]) false w)
   = Blocked
   \/ fst (send Server.step "tools/call"
             (JObj [("name", JStr "getDrinkInfo"); ("arguments", arguments)]) false w)
      = Threw SyntaxError)
  /\ ((exists s, JS.prop arguments "name" = ok (JStr s) \/ arguments = JStr s) ->
      fst (send Server.step "tools/call"
             (JObj [("name", JStr "getDrinkInfo"); ("arguments", arguments)]) false w)
      = Threw SyntaxError).
Proof.
  intros Hs Hp. rewrite send_call. cbv zeta. rewrite step_eq, Hs, Hp.
  cbn [fst snd app].
  destruct (getDrinkInfo_output (lastId w) arguments) as [H1 H2]. cbv zeta in H1, H2.
  split.
  - destruct H1 as [->|(s & rest & ->)]; [now left|now right].
  - intros [s [H| ->]].
    + destruct (H2 s H) as [rest ->]. reflexivity.
    + destruct (getDrinkInfo_output_string (lastId w) s) as (rest & -> & _).
      reflexivity.
Qed.

(** X7: a call of [getDrinkInfo] never returns to the client: the tool's
    debug output comes first on the server's standard output, so [send]
    throws a SyntaxError on it (or waits forever when the tool threw and
    nothing was written). *)
Theorem getDrinkInfo_call_never_returns (arguments : value) (w : world store) :
  srv w = initial_store ->
  pipe w = [] ->
  (fst (send Server.step "tools/call"
          (JObj [("name", JStr "getDrinkInfo"); ("arguments", arguments)]) false w)
   = Blocked
   \/ fst (send Server.step "tools/call"
             (JObj [("name", JStr "getDrinkInfo"); ("arguments", arguments)]) false w)
      = Threw SyntaxError)
  /\ ((exists s, JS.prop arguments "name" = ok (JStr s) \/ arguments = JStr s) ->
      fst (send Server.step "tools/call"
             (JObj [("name", JStr "getDrinkInfo"); ("arguments", arguments)]) false w)
      = Threw SyntaxError).
Proof.
  intros Hs Hp. rewrite send_call. cbv zeta. rewrite step_eq, Hs, Hp.
  cbn [fst snd app].
  destruct (getDrinkInfo_output (lastId w) arguments) as [H1 H2]. cbv zeta in H1, H2.
  split.
  - destruct H1 as [->|(s & rest & ->)]; [now left|now right].
  - intros [s [H| ->]].
    + destruct (H2 s H) as [rest ->]. reflexivity.
    + destruct (getDrinkInfo_output_string (lastId w) s) as (rest & -> & _).
      reflexivity.
Qed.

(** X9: a tool call whose arguments are a string, not an object, is passed on
    as it is, and [getDrinkInfo] then looks for no name at all: whatever the
    string says, the server answers [Drink not found], after debug text that
    begins with [Raw input: undefined]. *)
Theorem string_arguments_find_no_drink (tc : value) (a : string) (id : nat) :
  callable tc = true ->
  call_name tc = ok (JStr "getDrinkInfo") ->
  call_arguments tc = ok (JStr a) ->
  planned_calls [tc]
  = [JObj [("name", JStr "getDrinkInfo"); ("arguments", JStr a)]]
  /\ exists debug,
       stdout (on_line initial_store (call_line id "tools/call" (call_params tc)))
       = Text "Raw input: undefined"
         :: map Text debug
            ++ [Json (response (JNum (Z.of_nat id))
                        (text_content (JStr Spec.not_found_literal)))].
Proof.
  intros Hc Hn Ha.
  assert (P : call_params tc
              = JObj [("name", JStr "getDrinkInfo"); ("arguments", JStr a)]).
  { unfold call_params. rewrite Hn, Ha. reflexivity. }
  split.
  - unfold planned_calls. cbn [filter]. rewrite Hc. cbn [map]. now rewrite P.
  - rewrite P. destruct (getDrinkInfo_output_string id a) as (rest & -> & debug & ->).
    now exists debug.
Qed.

End DebugLineFacts.

Module BootstrapFacts.
Import Client SendFacts LoopFacts.

Section AnyRemote.
Context {R : Type}.
Variable remote : R -> line -> R * list line.

Lemma bootstrap_start (w : world R) :
  bootstrap remote w
  = bind (send remote "initialize" handshake false)
      (fun r =>
         bind (lift (JS.prop r "serverInfo")) (fun info =>
         bind (lift (JS.prop r "capabilities")) (fun capabilities =>
         bind (send remote "notifications/initialized" (JObj []) true) (fun _ =>
         bind (lift (JS.prop capabilities "tools")) (fun declared_tools =>
         bind (if JS.truthy declared_tools
               then bind (send remote "tools/list" empty_meta false)
                      (fun r => lift (JS.prop r "tools"))
               else ret (JArr [])) (fun tl =>
         bind (lift (JS.prop capabilities "resources")) (fun declared_resources =>
         bind (if JS.truthy declared_resources
               then bind (send remote "resources/list" empty_meta false)
                      (fun r => lift (JS.prop r "resources"))
               else ret (JArr [])) (fun rs =>
         bind (lift (JS.prop info "name")) (fun n =>
         bind (lift (JS.prop info "version")) (fun v =>
         bind (lift (JS.to_string n)) (fun _ =>
         bind (lift (JS.to_string v)) (fun _ =>
         ret {| serverInfo := info; tools := tl; resources := rs |}))))))))))))
      w.
Proof. reflexivity. Qed.

Lemma send_read (method : string) (params doc v : value) (w : world R) (s1 : R)
  (rest : list line) :
  pipe w = [] ->
  remote (srv w) (call_line (lastId w) method params) = (s1, Json doc :: rest) ->
  JS.prop doc "result" = ok v ->
  send remote method params false w
  = (Done v,
     {| lastId := S (lastId w); srv := s1; pipe := rest;
        sent := sent w ++ [call_line (lastId w) method params];
        received := received w ++ [Json doc];
        asked := asked w; console := console w |}).
Proof.
  intros Hp Hr Hd. rewrite send_call. cbv zeta. rewrite Hr, Hp. cbn [fst snd app].
  unfold lift. cbn [parse_line rbind ok]. now rewrite Hd.
Qed.

(** X10: when the result of [initialize] has no [capabilities], the
    bootstrap throws a TypeError, after it has sent the
    [notifications/initialized] notification. *)
Theorem bootstrap_without_capabilities (w : world R) (s1 : R) (doc r caps : value)
  (rest : list line) :
  pipe w = [] ->
  remote (srv w) (call_line (lastId w) "initialize" handshake) = (s1, Json doc :: rest) ->
  JS.prop doc "result" = ok r ->
  JS.prop r "capabilities" = ok caps ->
  caps = JUndef \/ caps = JNull ->
  exists w',
    bootstrap remote w = (Threw TypeError, w')
    /\ sent w' = sent w ++ [call_line (lastId w) "initialize" handshake;
                            notification_line "notifications/initialized" (JObj [])]
    /\ lastId w' = S (lastId w).
Proof.
  intros Hp Hr Hd Hc Hn. rewrite bootstrap_start.
  rewrite (bind_Done _ _ _ _ _ (send_read _ _ doc r w s1 rest Hp Hr Hd)).
  cbv beta.
  destruct (prop_ok_not_null _ _ _ Hc) as [U N].
  destruct (prop_defined r "serverInfo" U N) as [info Hi].
  rewrite Hi, bind_lift_ok, Hc, bind_lift_ok.
  unfold bind at 1. rewrite send_notification.
  assert (E : JS.prop caps "tools" = throw TypeError) by (destruct Hn; subst; reflexivity).
  rewrite E, bind_lift. eexists. split; [reflexivity|].
  cbn [sent lastId]. rewrite <- app_assoc. split; reflexivity.
Qed.

(** X11: when the server declares neither tools nor resources, the
    bootstrap asks for neither list: it sends the [initialize] call and the
    notification, nothing else, and both catalogs are empty. *)
Theorem bootstrap_skips_undeclared_lists (w : world R) (s1 : R)
  (doc r info caps t rs n v : value) (rest : list line) (sn sv : string) :
  pipe w = [] ->
  remote (srv w) (call_line (lastId w) "initialize" handshake) = (s1, Json doc :: rest) ->
  JS.prop doc "result" = ok r ->
  JS.prop r "serverInfo" = ok info ->
  JS.prop r "capabilities" = ok caps ->
  JS.prop caps "tools" = ok t -> JS.truthy t = false ->
  JS.prop caps "resources" = ok rs -> JS.truthy rs = false ->
  JS.prop info "name" = ok n -> JS.to_string n = ok sn ->
  JS.prop info "version" = ok v -> JS.to_string v = ok sv ->
  exists w',
    bootstrap remote w
    = (Done {| serverInfo := info; tools := JArr []; resources := JArr [] |}, w')
    /\ sent w' = sent w ++ [call_line (lastId w) "initialize" handshake;
                            notification_line "notifications/initialized" (JObj [])]
    /\ received w' = received w ++ [Json doc]
    /\ lastId w' = S (lastId w).
Proof.
  intros Hp Hr Hd Hi Hc Ht Ft Hrs Frs Hn Sn Hv Sv. rewrite bootstrap_start.
  rewrite (bind_Done _ _ _ _ _ (send_read _ _ doc r w s1 rest Hp Hr Hd)).
  cbv beta.
  rewrite Hi, bind_lift_ok, Hc, bind_lift_ok.
  unfold bind at 1. rewrite send_notification.
  rewrite Ht, bind_lift_ok, Ft. unfold bind at 1, ret at 1.
  rewrite Hrs, bind_lift_ok, Frs. unfold bind at 1, ret at 1.
  rewrite Hn, bind_lift_ok, Hv, bind_lift_ok, Sn, bind_lift_ok, Sv, bind_lift_ok.
  eexists. split; [reflexivity|].
  cbn [sent lastId received]. rewrite <- app_assoc. repeat split; reflexivity.
Qed.

End AnyRemote.
End BootstrapFacts.

Module SingleCallFacts.
Import Client SendFacts LoopFacts.

Section AnySession.
Context {R : Type}.
Variable remote : R -> line -> R * list line.
Variable callAI : list (list value) -> res value.

Lemma callAIWithTools_ok (ms : list value) (v : value) (w : world R) :
  callAI (ms :: asked w) = ok v ->
  callAIWithTools callAI ms w = (Done v, asked_more w ms).
Proof. intros H. rewrite callAIWithTools_eq, H. reflexivity. Qed.

Lemma print_texts_done (blocks : list value) :
  Forall has_properties blocks ->
  forall w : world R,
    exists evs,
      print_texts blocks w
      = (Done tt,
         {| lastId := lastId w; srv := srv w; pipe := pipe w; sent := sent w;
            received := received w; asked := asked w;
            console := console w ++ evs |}).
Proof.
  induction 1 as [|b blocks [U N] _ IH]; intros w.
  - exists []. rewrite app_nil_r. destruct w; reflexivity.
  - cbn [print_texts]. destruct (prop_defined b "type" U N) as [ty Et].
    rewrite Et, bind_lift_ok. unfold bind at 1.
    destruct (JS.is_str ty "text").
    + destruct (prop_defined b "text" U N) as [t Ex].
      rewrite Ex, bind_lift_ok. unfold print.
      destruct (IH {| lastId := lastId w; srv := srv w; pipe := pipe w;
                      sent := sent w; received := received w; asked := asked w;
                      console := console w ++ [Said t] |}) as [evs E].
      rewrite E. exists (Said t :: evs). cbn [lastId srv pipe sent received asked console].
      now rewrite <- app_assoc.
    + unfold ret. apply IH.
Qed.

(** X13: the [ai] action of [client.ts] needs a last content block: when
    the completion is no list (an API error leaves [data.content]
    undefined) or an empty one, the action throws a TypeError, having asked
    once and called no tool. *)
Theorem ask_once_needs_a_last_block (prompt : string) (promptResult : value)
  (w : world R) :
  callAI ([user_message prompt] :: asked w) = ok promptResult ->
  JS.iterate promptResult = throw TypeError
  \/ promptResult = JArr [] \/ promptResult = JStr "" ->
  ask_once remote callAI prompt w
  = (Threw TypeError, asked_more w [user_message prompt]).
Proof.
  intros Hc H. unfold ask_once.
  rewrite (bind_Done _ _ _ _ _ (callAIWithTools_ok _ _ _ Hc)). cbv beta.
  destruct H as [H|[->| ->]].
  - rewrite H, bind_lift. reflexivity.
  - reflexivity.
  - reflexivity.
Qed.

(** X14: when the last block is a [tool_use] and the remote answers, the
    action calls that one tool, appends the text of the first content item
    as it is to the conversation, under the block's identifier and in a
    user message, and asks once more. *)
Theorem ask_once_feeds_the_result_back (prompt shown : string)
  (blocks followups : list value)
  (toolUse n input id doc r content item text : value)
  (s1 : R) (rest : list line) (w : world R) :
  pipe w = [] ->
  callAI ([user_message prompt] :: asked w) = ok (JArr (blocks ++ [toolUse])) ->
  Forall has_properties blocks ->
  JS.prop toolUse "type" = ok (JStr "tool_use") ->
  JS.prop toolUse "name" = ok n ->
  JS.to_string n = ok shown ->
  JS.prop toolUse "input" = ok input ->
  JS.prop toolUse "id" = ok id ->
  remote (srv w)
    (call_line (lastId w) "tools/call" (JObj [("name", n); ("arguments", input)]))
  = (s1, Json doc :: rest) ->
  JS.prop doc "result" = ok r ->
  JS.prop r "content" = ok content ->
  JS.first content = ok item ->
  JS.prop item "text" = ok text ->
  callAI ([user_message prompt; assistant_blocks (JArr (blocks ++ [toolUse]));
           tool_result_message id text]
            :: [user_message prompt] :: asked w) = ok (JArr followups) ->
  Forall has_properties followups ->
  exists w',
    ask_once remote callAI prompt w
    = (Done [user_message prompt; assistant_blocks (JArr (blocks ++ [toolUse]));
             tool_result_message id text], w')
    /\ sent w'
       = sent w ++ [call_line (lastId w) "tools/call"
                      (JObj [("name", n); ("arguments", input)])]
    /\ received w' = received w ++ [Json doc]
    /\ asked w'
       = [user_message prompt; assistant_blocks (JArr (blocks ++ [toolUse]));
          tool_result_message id text]
           :: [user_message prompt] :: asked w.
Proof.
  intros Hp Hc Hb Ht Hn Hs Hi Hid Hr Hd Hcn Hf Htx Hc2 Hfs.
  assert (Hu : has_properties toolUse).
  { exact (prop_ok_not_null _ _ _ Ht). }
  unfold ask_once.
  rewrite (bind_Done _ _ _ _ _ (callAIWithTools_ok _ _ _ Hc)). cbv beta.
  cbn [JS.iterate]. rewrite bind_lift_ok.
  destruct (print_texts_done (blocks ++ [toolUse]))
    with (w := asked_more w [user_message prompt]) as [evs E].
  { apply Forall_app. split; [exact Hb|]. now constructor. }
  rewrite (bind_Done _ _ _ _ _ E). cbv beta.
  rewrite last_last, Ht, bind_lift_ok. cbn [JS.is_str String.eqb Ascii.eqb Bool.eqb].
  rewrite Hn, bind_lift_ok, Hs, bind_lift_ok, Hi, bind_lift_ok, bind_print.
  erewrite bind_Done.
  2:{ apply (BootstrapFacts.send_read remote _ _ doc r _ s1 rest); [exact Hp|exact Hr|exact Hd]. }
  cbv beta. rewrite Hcn, bind_lift_ok, Hid, bind_lift_ok, Hf, bind_lift_ok, Htx, bind_lift_ok.
  erewrite bind_Done.
  2:{ apply callAIWithTools_ok. cbn [asked asked_more printed app]. exact Hc2. }
  cbv beta. cbn [JS.iterate]. rewrite bind_lift_ok.
  match goal with
  | |- context [bind (print_texts followups) _ ?w0] =>
      destruct (print_texts_done followups Hfs w0) as [evs2 E2]
  end.
  rewrite (bind_Done _ _ _ _ _ E2). eexists. split; [reflexivity|].
  cbn [sent received asked asked_more printed lastId]. repeat split; reflexivity.
Qed.

(** X12: the [ai] action of [client.ts] writes at most one request, whatever
    the completion returns: the [tools/call] for the last content block, with
    that block's [name] and [input]. Tool uses in earlier blocks are not
    called. *)
Theorem client_ts_calls_one_tool_at_most (prompt : string) (w : world R) :
  sent (snd (ask_once remote callAI prompt w)) = sent w
  \/ exists promptResult blocks,
       callAI ([user_message prompt] :: asked w) = ok promptResult
       /\ JS.iterate promptResult = ok blocks
       /\ sent (snd (ask_once remote callAI prompt w))
          = sent w ++ [call_line (lastId w) "tools/call"
                         (tool_use_params (List.last blocks JUndef))].
Proof.
  destruct (ask_once remote callAI prompt w) as [o w'] eqn:E. cbn [snd].
  exact (ask_once_calls_the_last_block_only remote callAI prompt w w' o E).
Qed.

End AnySession.
End SingleCallFacts.

Module ResultFacts.
Import Client SendFacts LoopFacts DebugLineFacts.

Lemma bind_stops {R A B} (m : M R A) (k : A -> M R B) (w : world R) :
  fst (m w) = Blocked \/ (exists e, fst (m w) = Threw e) ->
  forall b, fst (bind m k w) <> Done b.
Proof.
  unfold bind. destruct (m w) as [[a| | |] w1]; cbn [fst]; intros [H|[x H]] b;
    try discriminate H; discriminate.
Qed.

Lemma bind_throws {R A B} (m : M R A) (k : A -> M R B) (w : world R) (e : exn) :
  fst (m w) = Threw e -> fst (bind m k w) = Threw e.
Proof.
  unfold bind. destruct (m w) as [[a| | |] w1]; cbn [fst]; intros H;
    try discriminate H. now injection H as ->.
Qed.

Section AnyParser.
Variable JSON_parse : string -> option value.

(** The text of a tool result is reformatted only when it parses to
    something with a truthy [name], [price] and [description]; every other
    text, [{"error":"Drink not found"}] and a record priced 0 among them,
    goes into the conversation as it is. *)
Lemma toolResultString_changes_drink_records_only (text : value) :
  toolResultString JSON_parse text = text
  \/ exists s parsed n p d ns ps ds,
       JS.to_string text = ok s
       /\ JSON_parse s = Some parsed
       /\ JS.truthy parsed = true
       /\ JS.prop parsed "name" = ok n /\ JS.truthy n = true
       /\ JS.prop parsed "price" = ok p /\ JS.truthy p = true
       /\ JS.prop parsed "description" = ok d /\ JS.truthy d = true
       /\ JS.to_string n = ok ns /\ JS.to_string p = ok ps /\ JS.to_string d = ok ds
       /\ toolResultString JSON_parse text
          = JStr (ns ++ ": $" ++ ps ++ " - " ++ ds).
Proof.
  unfold toolResultString.
  destruct (JS.to_string text) as [e|s] eqn:Es; [now left|].
  cbn [rbind]. destruct (JSON_parse s) as [parsed|] eqn:Ep; [|now left].
  destruct (JS.truthy parsed) eqn:Tp; [|now left].
  destruct (JS.prop parsed "name") as [e|n] eqn:En; [now left|]. cbn [rbind].
  destruct (JS.truthy n) eqn:Tn; [|now left].
  destruct (JS.prop parsed "price") as [e|p] eqn:Epr; [now left|]. cbn [rbind].
  destruct (JS.truthy p) eqn:Tpr; [|now left].
  destruct (JS.prop parsed "description") as [e|d] eqn:Ed; [now left|]. cbn [rbind].
  destruct (JS.truthy d) eqn:Td; [|now left].
  destruct (JS.to_string n) as [e|ns] eqn:Sn; [now left|]. cbn [rbind].
  destruct (JS.to_string p) as [e|ps] eqn:Sp; [now left|]. cbn [rbind].
  destruct (JS.to_string d) as [e|ds] eqn:Sd; [now left|]. cbn [rbind].
  right. exists s, parsed, n, p, d, ns, ps, ds. repeat split; auto.
Qed.

(** X8: in the loop of [client_open_ai.ts] a request for [getDrinkInfo]
    never yields a tool result: the iteration of the for-loop does not
    complete. *)
Theorem a_getDrinkInfo_request_ends_the_session
  (c : conversation) (tc : value) (w : world Server.store) :
  srv w = Server.initial_store ->
  pipe w = [] ->
  callable tc = true ->
  call_name tc = ok (JStr "getDrinkInfo") ->
  (forall c', fst (run_tool_call Server.step JSON_parse c tc w) <> Done c')
  /\ (forall a,
        call_arguments tc = ok a ->
        (exists s, JS.prop a "name" = ok (JStr s) \/ a = JStr s) ->
        fst (run_tool_call Server.step JSON_parse c tc w) = Threw SyntaxError).
Proof.
  intros Hs Hp Hc Hn. unfold callable in Hc.
  destruct (JS.prop tc "type") as [e|ty] eqn:Et; [discriminate Hc|].
  unfold run_tool_call. rewrite Et, bind_lift_ok, Hc, Hn, bind_lift_ok.
  cbn [JS.to_string]. rewrite bind_lift_ok.
  destruct (call_arguments tc) as [e|a] eqn:Ea.
  { rewrite bind_lift. split; [intros c' H; discriminate H|intros a H; discriminate H]. }
  rewrite bind_lift_ok, bind_print.
  destruct (getDrinkInfo_send_outcome a
              (printed w (Requesting (JStr "getDrinkInfo") a)) Hs Hp) as [H1 H2].
  unfold printed in H1, H2. split.
  - intros c'. apply bind_stops. destruct H1 as [H1|H1]; [now left|right; now exists SyntaxError].
  - intros a' Ha' Hx. injection Ha' as <-. apply bind_throws. exact (H2 Hx).
Qed.

End AnyParser.
End ResultFacts.

Module GuardFacts.
Import Client LoopFacts.

Section AnySession.
Context {R : Type}.
Variable remote : R -> line -> R * list line.
Variable callAI : list (list value) -> res value.
Variable JSON_parse : string -> option value.
Variable ready : R -> Prop.

(** A turn whose signature does not bring the repeat count to 2. *)
Lemma turn_goes_on (c : conversation) (r r' : value) (sig : string)
  (seen : list nat) (w : world R) :
  not_text r ->
  toolCallSignature (results_of r) = ok sig ->
  (if String.eqb sig (lastToolCallSignature c)
   then S (toolCallRepeatCount c) else 0) < 2 ->
  pipe w = [] ->
  ready (srv w) ->
  (forall p, In p (planned_calls (results_of r)) ->
             answers_with_text remote ready p) ->
  (forall ms, callAI (ms :: asked w) = ok r') ->
  exists c2 w',
    turn remote callAI JSON_parse c r seen w
    = (Done (Again c2 r'
               (seen ++ [if String.eqb sig (lastToolCallSignature c)
                         then S (toolCallRepeatCount c) else 0])), w')
    /\ toolCallRepeatCount c2
       = (if String.eqb sig (lastToolCallSignature c)
          then S (toolCallRepeatCount c) else 0)
    /\ lastToolCallSignature c2 = sig
    /\ pipe w' = []
    /\ ready (srv w')
    /\ trace w w' (planned_calls (results_of r))
    /\ List.length (asked w') = S (List.length (asked w)).
Proof.
  intros Hr Hsig Hg Hp Hready Ha Hc.
  pose proof (signature_well_formed _ _ Hsig) as Hw.
  destruct (well_formed_entries _ Hw) as [entries He].
  set (c1 := note_signature c sig (messages c ++ [assistant_message entries])).
  assert (Hn : toolCallRepeatCount c1
               = if String.eqb sig (lastToolCallSignature c)
                 then S (toolCallRepeatCount c) else 0)
    by apply note_signature_count.
  assert (Hl1 : lastToolCallSignature c1 = sig) by apply note_signature_last.
  destruct (invoke_all_answered remote callAI JSON_parse ready c1 (results_of r)
              (seen ++ [toolCallRepeatCount c1]) w r' Hp Hready Hw Ha Hc)
    as (c2 & w' & E & P & Q & _).
  destruct (invoke_all_effect _ _ _ _ _ _ _ _ _ E) as (_ & ps & T & _ & _ & D).
  destruct (D _ eq_refl) as (-> & c2' & r2 & Hag & (rs & _ & _ & _ & _ & C2 & L2) & A2 & _).
  injection Hag as <- <-.
  exists c2, w'. rewrite <- Hn.
  split.
  { rewrite (turn_step remote callAI JSON_parse c r seen w entries sig Hr He Hsig).
    cbv zeta. fold c1. rewrite <- Hn in Hg. apply Nat.leb_gt in Hg. rewrite Hg.
    exact E. }
  split; [exact C2|]. split; [congruence|].
  split; [exact P|]. split; [exact Q|]. split; [exact T|].
  rewrite A2. reflexivity.
Qed.

Lemma within_guard_step (c : conversation) (sig : string) (sigs : list string) :
  within_guard c (sig :: sigs) ->
  (if String.eqb sig (lastToolCallSignature c)
   then S (toolCallRepeatCount c) else 0) < 2
  /\ forall c2,
       toolCallRepeatCount c2
       = (if String.eqb sig (lastToolCallSignature c)
          then S (toolCallRepeatCount c) else 0) ->
       lastToolCallSignature c2 = sig ->
       within_guard c2 sigs.
Proof.
  intros [[H0 Hn]|[H1 Hn]]; destruct (String.eqb sig (lastToolCallSignature c)) eqn:E.
  - apply String.eqb_eq in E. split; [lia|]. intros c2 Hc Hl. right.
    rewrite Hc, Hl, H0. split; [reflexivity|]. rewrite <- E in Hn. exact Hn.
  - split; [lia|]. intros c2 Hc Hl. left. rewrite Hc, Hl. split; [reflexivity|].
    apply Hn.
  - apply String.eqb_eq in E. exfalso. destruct Hn as [Hn _]. apply Hn. now split.
  - split; [lia|]. intros c2 Hc Hl. left. rewrite Hc, Hl. split; [reflexivity|].
    apply Hn.
Qed.

Lemma loop_within_guard (answer : string) (todo : list value) :
  forall (sigs : list string) (c : conversation) (seen : list nat)
         (w : world R) (fuel : nat),
    Forall not_text todo ->
    signatures_of todo sigs ->
    within_guard c sigs ->
    pipe w = [] ->
    ready (srv w) ->
    (forall r p, In r todo -> In p (planned_calls (results_of r)) ->
                 answers_with_text remote ready p) ->
    (forall k ms log,
        List.length log = List.length (asked w) + k ->
        k < List.length todo ->
        callAI (ms :: log) = ok (nth (S k) todo (JStr answer))) ->
    List.length todo < fuel ->
    exists f w' seen' evs,
      loop remote callAI JSON_parse fuel c (nth 0 todo (JStr answer)) seen w
      = (Done f, w')
      /\ promptResult f = JStr answer
      /\ finalAnswerGiven f = true
      /\ console w' = evs ++ [Answer answer]
      /\ trace w w' (scripted_calls todo)
      /\ counts f = seen ++ seen'
      /\ Forall (fun n => n < 2) seen'
      /\ List.length seen' = List.length todo.
Proof.
  induction todo as [|r rest IH]; intros sigs c seen w fuel Ht Hs Hg Hp Hrd Ha Hai Hf.
  - destruct fuel as [|fuel]; [simpl in Hf; lia|].
    cbn [nth]. rewrite loop_unfold, turn_text.
    eexists _, _, [], (console w). split; [reflexivity|].
    cbn [promptResult finalAnswerGiven counts].
    repeat split; auto.
    + apply trace_same; reflexivity.
    + now rewrite app_nil_r.
  - destruct fuel as [|fuel]; [simpl in Hf; lia|].
    inversion Ht as [|? ? Hr Ht']; subst.
    inversion Hs as [|? sig ? sigs' Hsig Hs']; subst.
    destruct (within_guard_step c sig sigs' Hg) as [Hlt Hnext].
    cbn [nth]. rewrite loop_unfold.
    destruct (turn_goes_on c r (nth 0 rest (JStr answer)) sig seen w Hr Hsig Hlt Hp Hrd)
      as (c2 & w1 & E & Hc2 & Hl2 & P1 & Q1 & T1 & A1).
    { intros p Hin. apply (Ha r p); [now left|exact Hin]. }
    { intros ms. apply (Hai 0 ms (asked w)); [lia|simpl; lia]. }
    rewrite E.
    destruct (IH sigs' c2 (seen ++ [toolCallRepeatCount c2]) w1 fuel Ht' Hs'
                (Hnext c2 Hc2 Hl2) P1 Q1)
      as (f & w' & seen' & evs & E2 & Pr & Fa & Co & T2 & Cn & Fo & Le).
    { intros r0 p Hr0 Hin. apply (Ha r0 p); [now right|exact Hin]. }
    { intros k ms log Hl Hk. apply (Hai (S k) ms log); [lia|simpl; lia]. }
    { simpl in Hf. lia. }
    exists f, w', (toolCallRepeatCount c2 :: seen'), evs.
    rewrite <- Hc2. split; [exact E2|].
    split; [exact Pr|]. split; [exact Fa|]. split; [exact Co|].
    split; [unfold scripted_calls; cbn [map List.concat]; now apply (trace_trans w w1 w')|].
    split; [rewrite Cn, <- app_assoc; reflexivity|].
    split; [constructor; [rewrite Hc2; exact Hlt|exact Fo]|]. simpl. now rewrite Le.
Qed.

(** X15: the guard counts repeats in a row only.  As long as no signature
    comes three times in a row (the empty signature, which the guard starts
    from, counting once), every turn's calls are executed, in order, and the
    text that ends the script is the final answer. *)
Theorem requests_pass_unless_three_in_a_row
  (script : list value) (sigs : list string) (answer prompt : string)
  (fuel : nat) (w : world R) :
  Forall not_text script ->
  signatures_of script sigs ->
  no_three_in_a_row ("" :: sigs) ->
  pipe w = [] ->
  ready (srv w) ->
  (forall r p, In r script -> In p (planned_calls (results_of r)) ->
               answers_with_text remote ready p) ->
  (forall k ms log,
      List.length log = List.length (asked w) + k ->
      k <= List.length script ->
      callAI (ms :: log) = ok (nth k script (JStr answer))) ->
  List.length script < fuel ->
  exists f w' evs,
    ask remote callAI JSON_parse fuel prompt w = (Done f, w')
    /\ promptResult f = JStr answer
    /\ finalAnswerGiven f = true
    /\ console w' = evs ++ [Answer answer]
    /\ trace w w' (scripted_calls script)
    /\ Forall (fun n => n < 2) (counts f)
    /\ List.length (counts f) = List.length script.
Proof.
  intros Ht Hs Hn Hp Hrd Ha Hai Hf.
  rewrite ask_eq, (Hai 0) by lia.
  destruct (loop_within_guard answer script sigs (initial_conversation prompt) []
              (asked_more w (initial_messages prompt)) fuel Ht Hs)
    as (f & w' & seen' & evs & E & Pr & Fa & Co & T & Cn & Fo & Le); auto.
  { left. split; [reflexivity|exact Hn]. }
  { intros k ms log Hl Hk. apply (Hai (S k) ms log); [simpl in Hl; lia|lia]. }
  exists f, w', evs. split; [exact E|]. split; [exact Pr|]. split; [exact Fa|].
  split; [exact Co|]. split; [exact T|]. simpl in Cn. rewrite Cn.
  split; [exact Fo|exact Le].
Qed.

Section Alternation.

Variables (a b : value) (sa sb : string) (n0 : nat).
Hypothesis Ha : not_text a.
Hypothesis Hb : not_text b.
Hypothesis Hsa : toolCallSignature (results_of a) = ok sa.
Hypothesis Hsb : toolCallSignature (results_of b) = ok sb.
Hypothesis Hab : sa <> sb.
Hypothesis Hanswers :
  forall p, In p (planned_calls (results_of a) ++ planned_calls (results_of b)) ->
            answers_with_text remote ready p.
Hypothesis Hai :
  forall ms log,
    callAI (ms :: log) = ok (if Nat.even (List.length log - n0) then a else b).

Lemma loop_alternating (fuel : nat) :
  forall (c : conversation) (seen : list nat) (w : world R),
    n0 + 1 <= List.length (asked w) ->
    String.eqb (if Nat.even (List.length (asked w) - n0 - 1) then sa else sb)
      (lastToolCallSignature c) = false
    \/ toolCallRepeatCount c = 0 ->
    pipe w = [] ->
    ready (srv w) ->
    exists w',
      loop remote callAI JSON_parse fuel c
        (if Nat.even (List.length (asked w) - n0 - 1) then a else b) seen w
      = (OutOfFuel, w')
      /\ List.length (asked w') = List.length (asked w) + fuel.
Proof.
  induction fuel as [|fuel IH]; intros c seen w Hl Hg Hp Hrd.
  - exists w. split; [reflexivity|]. lia.
  - rewrite loop_unfold.
    set (j := List.length (asked w) - n0 - 1) in *.
    destruct (turn_executes remote callAI JSON_parse ready c
                (if Nat.even j then a else b)
                (if Nat.even (S j) then a else b)
                (if Nat.even j then sa else sb) seen w)
      as (c2 & n & w1 & E & Hn2 & Hc2 & Hl2 & P1 & Q1 & T1 & A1); auto.
    { destruct (Nat.even j); assumption. }
    { destruct (Nat.even j); assumption. }
    { intros p Hin. apply Hanswers. apply in_or_app.
      destruct (Nat.even j); [now left|now right]. }
    { intros ms. rewrite Hai. replace (List.length (asked w) - n0) with (S j) by lia.
      reflexivity. }
    rewrite E.
    assert (J : List.length (asked w1) - n0 - 1 = S j) by lia.
    destruct (IH c2 (seen ++ [n]) w1) as (w' & E' & L'); auto; try lia.
    { left. rewrite J, Hl2. apply String.eqb_neq. rewrite Nat.even_succ.
      rewrite <- Nat.negb_even. destruct (Nat.even j); cbn; congruence. }
    rewrite J in E'. exists w'. split; [exact E'|]. lia.
Qed.

End Alternation.

(** X16: two tool-call requests that take turns never trip the guard: the
    loop goes on for as long as the completion client keeps alternating,
    whatever number of iterations it is given. *)
Theorem alternating_requests_are_never_cut_off
  (a b : value) (sa sb prompt : string) (fuel : nat) (w : world R) :
  not_text a -> not_text b ->
  toolCallSignature (results_of a) = ok sa ->
  toolCallSignature (results_of b) = ok sb ->
  sa <> sb ->
  pipe w = [] ->
  ready (srv w) ->
  (forall p, In p (planned_calls (results_of a) ++ planned_calls (results_of b)) ->
             answers_with_text remote ready p) ->
  (forall ms log,
      callAI (ms :: log)
      = ok (if Nat.even (List.length log - List.length (asked w)) then a else b)) ->
  exists w',
    ask remote callAI JSON_parse fuel prompt w = (OutOfFuel, w')
    /\ List.length (asked w') = List.length (asked w) + 1 + fuel.
Proof.
  intros Ha Hb Hsa Hsb Hab Hp Hrd Hans Hai.
  rewrite ask_eq, Hai, Nat.sub_diag. cbn [Nat.even].
  destruct (loop_alternating a b sa sb (List.length (asked w)) Ha Hb Hsa Hsb Hab
              Hans Hai fuel (initial_conversation prompt) []
              (asked_more w (initial_messages prompt)))
    as (w' & E & L).
  - simpl. lia.
  - now right.
  - exact Hp.
  - exact Hrd.
  - cbn [asked_more asked List.length] in E, L.
    replace (S (List.length (asked w)) - List.length (asked w) - 1) with 0 in E by lia.
    exists w'. split; [exact E|]. lia.
Qed.

End AnySession.
End GuardFacts.

Module ActionFacts.
Import Client SendFacts LoopFacts Actions.

Section AnySession.
Context {R : Type}.
Variable remote : R -> line -> R * list line.
Variable JSON_parse : string -> option value.

Lemma dump_line_shown (line : value) (w : world R) :
  has_properties line ->
  dump_line JSON_parse line w = (Done tt, printed w (Said (shown_item JSON_parse line))).
Proof.
  intros [U N]. unfold dump_line, shown_item.
  destruct (parsed_text JSON_parse line) as [e|parsed]; [|reflexivity].
  destruct (prop_defined line "text" U N) as [t Et]. rewrite Et, bind_lift_ok.
  reflexivity.
Qed.

Lemma dump_line_nothing (line : value) (w : world R) :
  ~ has_properties line ->
  dump_line JSON_parse line w = (Threw TypeError, w).
Proof.
  intros H. assert (E : line = JUndef \/ line = JNull).
  { destruct line; try (exfalso; apply H; split; discriminate); auto. }
  destruct E as [-> | ->]; reflexivity.
Qed.

Lemma dump_lines_shown (items : list value) :
  Forall has_properties items ->
  forall w : world R,
    dump_lines JSON_parse items w
    = (Done tt,
       {| lastId := lastId w; srv := srv w; pipe := pipe w; sent := sent w;
          received := received w; asked := asked w;
          console := console w ++ map (fun l => Said (shown_item JSON_parse l)) items |}).
Proof.
  induction 1 as [|item items H _ IH]; intros w.
  - cbn. rewrite app_nil_r. destruct w; reflexivity.
  - cbn [dump_lines]. rewrite (bind_Done _ _ _ _ _ (dump_line_shown item w H)).
    rewrite IH. cbn [printed lastId srv pipe sent received asked console map].
    now rewrite <- app_assoc.
Qed.

(** [dumpContent] on a list of items that all have properties. *)
Lemma dumpContent_shown (content : value) (items : list value) (w : world R) :
  JS.iterate content = ok items ->
  Forall has_properties items ->
  dumpContent JSON_parse content w
  = (Done tt,
     {| lastId := lastId w; srv := srv w; pipe := pipe w; sent := sent w;
        received := received w; asked := asked w;
        console := console w
                   ++ map (fun l => Said (shown_item JSON_parse l)) items |}).
Proof.
  intros E H. unfold dumpContent. rewrite E, bind_lift_ok. now apply dump_lines_shown.
Qed.

(** X17: [dumpContent] prints one line for each item, what the item's
    text parses to or else the text itself, and changes nothing else.  It
    throws a TypeError when the content is no list (a result without
    content), and at the first item that is [null], after printing the
    items before it. *)
Theorem dumpContent_prints_every_item (content : value) (w : world R) :
  match JS.iterate content with
  | inl e => dumpContent JSON_parse content w = (Threw e, w)
  | inr items =>
      (Forall has_properties items ->
       dumpContent JSON_parse content w
       = (Done tt,
          {| lastId := lastId w; srv := srv w; pipe := pipe w; sent := sent w;
             received := received w; asked := asked w;
             console := console w
                        ++ map (fun l => Said (shown_item JSON_parse l)) items |}))
      /\ (forall before item after,
            items = before ++ item :: after ->
            Forall has_properties before ->
            ~ has_properties item ->
            dumpContent JSON_parse content w
            = (Threw TypeError,
               {| lastId := lastId w; srv := srv w; pipe := pipe w; sent := sent w;
                  received := received w; asked := asked w;
                  console := console w
                             ++ map (fun l => Said (shown_item JSON_parse l)) before |}))
  end.
Proof.
  unfold dumpContent. rewrite bind_lift.
  destruct (JS.iterate content) as [e|items]; [reflexivity|]. split.
  - intros H. now apply dump_lines_shown.
  - intros before item after -> Hb Hi. clear content.
    revert w. induction Hb as [|b before Hb _ IH]; intros w.
    + cbn [app dump_lines map]. unfold bind. rewrite (dump_line_nothing item w Hi).
      rewrite app_nil_r. destruct w; reflexivity.
    + cbn [app dump_lines]. rewrite (bind_Done _ _ _ _ _ (dump_line_shown b w Hb)).
      rewrite IH. cbn [printed lastId srv pipe sent received asked console map].
      now rewrite <- app_assoc.
Qed.

End AnySession.
End ActionFacts.

Module ServerActionFacts.
Import Client Server ServerFacts SendFacts SessionFacts LoopFacts Actions ActionFacts
  DebugLineFacts ResultFacts.

Section AnyUser.
Variable JSON_parse : string -> option value.
Variable select : string -> list (value * value) -> option value.
Variable text : string -> option value.

Lemma tool_options :
  labelled (Client.tools (catalog_of initial_store))
  = ok [(names_entry, JStr "getDrinkNames"); (info_entry, JStr "getDrinkInfo")].
Proof. reflexivity. Qed.

Lemma getDrinkNames_line (id : nat) :
  stdout (on_line initial_store
            (call_line id "tools/call"
               (JObj [("name", JStr "getDrinkNames"); ("arguments", JObj [])])))
  = [Json (response (JNum (Z.of_nat id)) (JObj [("content", JArr [names_item])]))].
Proof. reflexivity. Qed.

(** X18: the [tool] action against the server.  Picking [getDrinkNames]
    asks for no argument, calls the tool with [{}] and prints its list of
    names.  Picking [getDrinkInfo] asks for the name; cancelling exits with
    nothing sent, and any answer ends with the client throwing a SyntaxError
    on the tool's debug output. *)
Theorem running_a_tool (w : world store) :
  srv w = initial_store ->
  pipe w = [] ->
  match select "Select a tool."
          [(names_entry, JStr "getDrinkNames"); (info_entry, JStr "getDrinkInfo")]
  with
  | None =>
      tool_action Server.step JSON_parse select text
        (Client.tools (catalog_of initial_store)) w = (Done Exited, w)
  | Some tool =>
      (tool = names_entry ->
       tool_action Server.step JSON_parse select text
         (Client.tools (catalog_of initial_store)) w
       = (Done Returned,
          {| lastId := S (lastId w); srv := initial_store; pipe := [];
             sent := sent w
                     ++ [call_line (lastId w) "tools/call"
                           (JObj [("name", JStr "getDrinkNames");
                                  ("arguments", JObj [])])];
             received := received w
                         ++ [Json (response (JNum (Z.of_nat (lastId w)))
                                     (JObj [("content", JArr [names_item])]))];
             asked := asked w;
             console := console w ++ [Said (shown_item JSON_parse names_item)] |}))
      /\ (tool = info_entry ->
          match text "name:" with
          | None =>
              tool_action Server.step JSON_parse select text
                (Client.tools (catalog_of initial_store)) w = (Done Exited, w)
          | Some answer =>
              (fst (tool_action Server.step JSON_parse select text
                      (Client.tools (catalog_of initial_store)) w) = Blocked
               \/ fst (tool_action Server.step JSON_parse select text
                         (Client.tools (catalog_of initial_store)) w)
                  = Threw SyntaxError)
              /\ ((exists s, answer = JStr s) ->
                  fst (tool_action Server.step JSON_parse select text
                         (Client.tools (catalog_of initial_store)) w)
                  = Threw SyntaxError)
          end)
  end.
Proof.
  intros Hs Hp. unfold tool_action. rewrite tool_options, bind_lift_ok.
  destruct (select "Select a tool." _) as [tool|]; [|reflexivity]. split.
  - intros ->.
    change (schema_properties names_entry) with (ok (JObj [])).
    rewrite bind_lift_ok.
    change (Keys.keys (JObj [])) with (ok (@nil string)). rewrite bind_lift_ok.
    cbn [filter ask_arguments].
    change (JS.prop names_entry "name") with (ok (JStr "getDrinkNames")).
    rewrite bind_lift_ok. change (Keys.ordered []) with (@nil (string * value)).
    erewrite bind_Done.
    2:{ apply (send_replied "tools/call"
                 (JObj [("name", JStr "getDrinkNames"); ("arguments", JObj [])])
                 (response (JNum (Z.of_nat (lastId w)))
                    (JObj [("content", JArr [names_item])]))
                 (JObj [("content", JArr [names_item])]) w);
          [exact Hp|rewrite Hs; apply getDrinkNames_line|].
        rewrite response_result. reflexivity. }
    cbv beta.
    rewrite (bind_lift_ok (JArr [names_item])).
    match goal with
    | |- bind (dumpContent _ _) _ ?w0 = _ =>
        pose proof (dumpContent_shown JSON_parse (JArr [names_item]) [names_item] w0
                      eq_refl ltac:(repeat constructor; discriminate)) as D
    end.
    rewrite (bind_Done _ _ _ _ _ D).
    cbn [lastId srv pipe sent received asked console map]. rewrite Hs. reflexivity.
  - intros ->.
    change (schema_properties info_entry)
      with (ok (JObj [("name", JObj [("type", JStr "string")])])).
    rewrite bind_lift_ok.
    change (Keys.keys (JObj [("name", JObj [("type", JStr "string")])]))
      with (ok ["name"]).
    rewrite bind_lift_ok.
    change (filter (string_typed (JObj [("name", JObj [("type", JStr "string")])]))
              ["name"]) with ["name"].
    cbn [ask_arguments].
    change ("name" ++ ":")%string with "name:".
    destruct (text "name:") as [answer|]; [|reflexivity].
    cbn [ask_arguments].
    change (assign [] "name" answer) with [("name", answer)].
    change (JS.prop info_entry "name") with (ok (JStr "getDrinkInfo")).
    rewrite bind_lift_ok.
    change (Keys.ordered [("name", answer)]) with [("name", answer)].
    destruct (getDrinkInfo_send_outcome (JObj [("name", answer)]) w Hs Hp)
      as [H1 H2].
    split.
    + destruct H1 as [H1|H1].
      * left. revert H1. unfold bind.
        destruct (send Server.step "tools/call" _ false w) as [[a| | |] w1];
          cbn [fst]; intros H; try discriminate H. reflexivity.
      * right. now apply bind_throws.
    + intros [s ->]. apply bind_throws. apply H2. exists s. now left.
Qed.

Lemma resource_options :
  labelled (Client.resources (catalog_of initial_store)) = ok [(menu_entry, JStr "menu")].
Proof. reflexivity. Qed.

Lemma read_line (id : nat) (u : value) :
  stdout (on_line initial_store (call_line id "resources/read" (JObj [("uri", u)])))
  = [Json (response (JNum (Z.of_nat id))
             (if JS.is_str u "menu://app" then menu_contents
              else resource_error))].
Proof.
  destruct u as [| | | |s| |]; try reflexivity.
  unfold call_line, write_json. rewrite on_line_json.
  rewrite (DispatchFacts.dispatch_resources_read _ _ (JNum (Z.of_nat id))
             (JObj [("uri", JStr s)]));
    [|apply request_method|apply request_id|apply request_params].
  change (JS.prop (JObj [("uri", JStr s)]) "uri") with (ok (JStr s)).
  rewrite pbind_ok. cbn [find resources initial_store uri menu].
  destruct (JS.is_str (JStr s) "menu://app"); reflexivity.
Qed.

(** X19: the [resource] action against the server.  Picking the menu
    reads [menu://app] and prints the one item that comes back, the list of
    drinks; cancelling exits with nothing sent. *)
Theorem reading_the_menu (w : world store) :
  srv w = initial_store ->
  pipe w = [] ->
  match select "Select a resource." [(menu_entry, JStr "menu")] with
  | None =>
      resource_action Server.step JSON_parse select
        (Client.resources (catalog_of initial_store)) w = (Done Exited, w)
  | Some resource =>
      resource = menu_entry ->
      resource_action Server.step JSON_parse select
        (Client.resources (catalog_of initial_store)) w
      = (Done Returned,
         {| lastId := S (lastId w); srv := initial_store; pipe := [];
            sent := sent w
                    ++ [call_line (lastId w) "resources/read"
                          (JObj [("uri", JStr "menu://app")])];
            received := received w
                        ++ [Json (response (JNum (Z.of_nat (lastId w)))
                                    menu_contents)];
            asked := asked w;
            console := console w ++ [Said (shown_item JSON_parse menu_item)] |})
  end.
Proof.
  intros Hs Hp. unfold resource_action. rewrite resource_options, bind_lift_ok.
  destruct (select "Select a resource." _) as [resource|]; [|reflexivity].
  intros ->. rewrite (bind_lift_ok (JStr "menu://app")).
  erewrite bind_Done.
  2:{ apply (send_replied "resources/read" (JObj [("uri", JStr "menu://app")])
               (response (JNum (Z.of_nat (lastId w))) menu_contents)
               menu_contents w);
        [exact Hp|rewrite Hs; apply (read_line _ (JStr "menu://app"))|].
      rewrite response_result. reflexivity. }
  cbv beta. rewrite (bind_lift_ok (JArr [menu_item])).
  match goal with
  | |- bind (dumpContent _ _) _ ?w0 = _ =>
      pose proof (dumpContent_shown JSON_parse (JArr [menu_item]) [menu_item] w0
                    eq_refl ltac:(repeat constructor; discriminate)) as D
  end.
  rewrite (bind_Done _ _ _ _ _ D).
  cbn [lastId srv pipe sent received asked console map]. rewrite Hs. reflexivity.
Qed.

End AnyUser.
End ServerActionFacts.

Module KeysFacts.
Import Keys.

Lemma lookup_set_own (k k' : string) (v : value) (l : list (string * value)) :
  JS.lookup k (set_own k' v l) = if String.eqb k' k then v else JS.lookup k l.
Proof.
  induction l as [|[j x] l IH]; cbn [set_own JS.lookup].
  - destruct (String.eqb k' k); reflexivity.
  - destruct (String.eqb j k') eqn:E; cbn [JS.lookup].
    + apply String.eqb_eq in E. subst j. destruct (String.eqb k' k); reflexivity.
    + destruct (String.eqb j k) eqn:E2; [|exact IH].
      apply String.eqb_eq in E2. subst j. now rewrite String.eqb_sym, E.
Qed.

Lemma lookup_assigned (f : string -> value) (ks : list string) :
  forall (target : list (string * value)) (k : string),
    JS.lookup k (fold_left (fun acc k' => set_own k' (f k') acc) ks target)
    = if existsb (String.eqb k) ks then f k else JS.lookup k target.
Proof.
  induction ks as [|j ks IH]; intros target k; cbn [fold_left existsb]; [reflexivity|].
  rewrite IH, lookup_set_own. rewrite (String.eqb_sym k j).
  destruct (existsb (String.eqb k) ks); destruct (String.eqb j k) eqn:E; cbn;
    try reflexivity.
  apply String.eqb_eq in E. now subst.
Qed.

Lemma lookup_listed (g : string -> value) (ks : list string) (k : string) :
  JS.lookup k (map (fun k' => (k', g k')) ks)
  = if existsb (String.eqb k) ks then g k else JUndef.
Proof.
  induction ks as [|j ks IH]; cbn [map JS.lookup existsb]; [reflexivity|].
  rewrite (String.eqb_sym k j). destruct (String.eqb j k) eqn:E; cbn.
  - apply String.eqb_eq in E. now subst.
  - exact IH.
Qed.

Lemma in_first_of_each (ks seen : list string) (k : string) :
  In k (first_of_each ks seen) <-> In k ks /\ ~ In k seen.
Proof.
  revert seen. induction ks as [|j ks IH]; intros seen; cbn [first_of_each].
  - cbn. tauto.
  - destruct (existsb (String.eqb j) seen) eqn:E.
    + rewrite IH. apply existsb_exists in E. destruct E as (x & Hx & Ex).
      apply String.eqb_eq in Ex. subst x. cbn. split.
      * tauto.
      * intros [[->|H] N]; [contradiction|tauto].
    + assert (N : ~ In j seen).
      { intros H. assert (X : existsb (String.eqb j) seen = true).
        { apply existsb_exists. exists j. split; [exact H|apply String.eqb_refl]. }
        congruence. }
      cbn [In]. rewrite IH. cbn [In].
      destruct (string_dec j k) as [->|D]; tauto.
Qed.

Lemma in_insert_index (n : N) (k j : string) (l : list (N * string)) :
  In j (map snd (insert_index n k l)) <-> j = k \/ In j (map snd l).
Proof.
  induction l as [|[m x] l IH]; cbn [insert_index map In].
  - cbn. intuition.
  - destruct (N.leb n m); cbn [map snd In]; [intuition|]. rewrite IH. intuition.
Qed.

Lemma in_own_keys (fields : list (string * value)) (k : string) :
  In k (own_keys fields) <-> In k (map fst fields).
Proof.
  unfold own_keys. set (ks := first_of_each (map fst fields) []).
  assert (K : In k ks <-> In k (map fst fields)).
  { unfold ks. rewrite in_first_of_each. cbn. tauto. }
  rewrite <- K. clear K. rewrite in_app_iff, filter_In.
  assert (I : In k (map snd
                      (fold_right (fun k acc => match array_index k with
                                                | Some n => insert_index n k acc
                                                | None => acc
                                                end) [] ks))
              <-> In k ks /\ is_index k = true).
  { generalize ks. intros l. induction l as [|j l IH]; cbn [fold_right In map].
    - tauto.
    - unfold is_index in *. destruct (array_index j) as [n|] eqn:E.
      + rewrite in_insert_index, IH. split.
        * intros [->|[H1 H2]]; [rewrite E|]; tauto.
        * intros [[->|H1] H2]; tauto.
      + rewrite IH. split; [tauto|].
        intros [[->|H1] H2]; [rewrite E in H2; discriminate|tauto]. }
  rewrite I. destruct (is_index k); cbn; intuition congruence.
Qed.

Lemma has_own_in (fields : list (string * value)) (k : string) :
  JS.has_own k fields = true <-> In k (map fst fields).
Proof.
  unfold JS.has_own. rewrite existsb_exists. split.
  - intros ([j v] & H & E). cbn in E. apply String.eqb_eq in E. subst j.
    apply in_map_iff. now exists (k, v).
  - intros H. apply in_map_iff in H. destruct H as ([j v] & E & H). cbn in E. subst j.
    exists (k, v). split; [exact H|apply String.eqb_refl].
Qed.

Lemma listed_own (fields : list (string * value)) (k : string) :
  existsb (String.eqb k) (own_keys fields) = JS.has_own k fields.
Proof.
  apply eq_true_iff_eq. rewrite has_own_in, <- in_own_keys, existsb_exists. split.
  - intros (x & H & E). apply String.eqb_eq in E. now subst.
  - intros H. exists k. split; [exact H|apply String.eqb_refl].
Qed.

Lemma lookup_missing (fields : list (string * value)) (k : string) :
  JS.has_own k fields = false -> JS.lookup k fields = JUndef.
Proof.
  induction fields as [|[j v] l IH]; cbn; [reflexivity|].
  destruct (String.eqb j k); cbn; [discriminate|exact IH].
Qed.

Lemma lookup_ordered (fields : list (string * value)) (k : string) :
  JS.lookup k (ordered fields) = JS.lookup k fields.
Proof.
  unfold ordered. rewrite lookup_listed, listed_own.
  destruct (JS.has_own k fields) eqn:E; [reflexivity|].
  symmetry. now apply lookup_missing.
Qed.

(** The properties of [{...target, ...source}] when [source] is an object:
    those of the source, and of the target the ones the source has not. *)
Lemma lookup_spread (target fields : list (string * value)) (k : string) :
  JS.lookup k (spread target (JObj fields))
  = if JS.has_own k fields then JS.lookup k fields else JS.lookup k target.
Proof.
  unfold spread. cbn [keys]. unfold ok. rewrite lookup_ordered.
  rewrite (lookup_assigned (fun k' => element (JObj fields) k')).
  now rewrite listed_own.
Qed.

End KeysFacts.

Module CompletionFacts.
Import OpenAI KeysFacts.

Section AnyApi.
Variable OPEN_AI_API_KEY : option string.
Variable fetch : string -> string -> res http_response.

Lemma tool_spec_shape (tool spec : value) :
  tool_spec tool = ok spec ->
  exists fn, spec = JObj [("type", JStr "function"); ("function", JObj fn)].
Proof.
  unfold tool_spec.
  destruct (JS.prop tool "name") as [e|n]; [discriminate|]. cbn [rbind].
  destruct (JS.prop tool "description") as [e|d]; [discriminate|]. cbn [rbind].
  destruct (JS.prop tool "inputSchema") as [e|s]; [discriminate|]. cbn [rbind].
  intros H. injection H as <-. eexists. reflexivity.
Qed.

Lemma validate_spec (index : nat) (tool spec : value) :
  tool_spec tool = ok spec -> validate index spec = inr spec.
Proof.
  intros H. destruct (tool_spec_shape tool spec H) as [fn ->]. reflexivity.
Qed.

Lemma specs_are_valid (entries : list value) :
  forall specs index,
    Client.mapM tool_spec entries = ok specs ->
    validate_from index specs = inr specs.
Proof.
  induction entries as [|tool entries IH]; intros specs index; cbn [Client.mapM].
  - intros H. injection H as <-. reflexivity.
  - destruct (tool_spec tool) as [e|spec] eqn:E; [discriminate|].
    destruct (Client.mapM tool_spec entries) as [e|rest]; [discriminate|].
    intros H. injection H as <-. cbn [validate_from].
    rewrite (validate_spec index tool spec E). cbn [abind].
    rewrite (IH rest (S index) eq_refl). reflexivity.
Qed.

(** X20: the tools that [callAIWithTools] builds from the catalog always
    pass the validation in [callAI]: none of its three errors is ever
    thrown.  The request carries [tools] and [tool_choice] exactly when the
    catalog is not empty. *)
Theorem catalog_tools_pass_validation (tools : value) (messages : list value) :
  (forall message,
      callAIWithTools OPEN_AI_API_KEY fetch tools messages
      <> inl (InvalidTool message))
  /\ (forall entries specs,
        tools = JArr entries ->
        Client.mapM tool_spec entries = ok specs ->
        List.length specs = List.length entries
        /\ requestBody messages (Some specs)
           = inr (JObj ([("model", JStr "gpt-3.5-turbo");
                         ("messages", JArr messages);
                         ("max_tokens", JNum 4096)]
                          ++ match entries with
                             | [] => []
                             | _ => [("tools", JArr specs);
                                     ("tool_choice", JStr "auto")]
                             end))).
Proof.
  assert (B : forall entries specs,
             Client.mapM tool_spec entries = ok specs ->
             List.length specs = List.length entries
             /\ requestBody messages (Some specs)
                = inr (JObj ([("model", JStr "gpt-3.5-turbo");
                              ("messages", JArr messages);
                              ("max_tokens", JNum 4096)]
                               ++ match entries with
                                  | [] => []
                                  | _ => [("tools", JArr specs);
                                          ("tool_choice", JStr "auto")]
                                  end))).
  { intros entries specs H. split.
    - revert specs H. induction entries as [|t entries IH]; intros specs;
        cbn [Client.mapM].
      + intros H. now injection H as <-.
      + destruct (tool_spec t); [discriminate|].
        destruct (Client.mapM tool_spec entries) as [e|rest]; [discriminate|].
        intros H. injection H as <-. cbn. now rewrite (IH rest eq_refl).
    - pose proof (specs_are_valid entries specs 0 H) as V.
      destruct entries as [|t entries].
      + cbn in H. injection H as <-. reflexivity.
      + destruct specs as [|s specs].
        * cbn in H. destruct (tool_spec t); [discriminate|].
          destruct (Client.mapM tool_spec entries); discriminate.
        * unfold requestBody. rewrite V. reflexivity. }
  split.
  - intros message. unfold callAIWithTools.
    destruct tools as [| | | | |entries|]; try discriminate.
    destruct (Client.mapM tool_spec entries) as [e|specs] eqn:E; [discriminate|].
    cbn [raise abind]. unfold callAI.
    destruct OPEN_AI_API_KEY as [[|c key]|]; try discriminate.
    destruct (B entries specs E) as [_ ->]. cbn [abind].
    destruct (fetch _ _) as [e|response]; [discriminate|]. cbn [raise abind].
    destruct (is_ok response); cbn [negb].
    + destruct (body_json response) as [e|data]; [discriminate|]. cbn [raise abind].
      destruct (result_of data); discriminate.
    + destruct (body_text response) as [e|error]; [discriminate|]. cbn [raise abind].
      destruct (JS.to_string (status response)); discriminate.
  - intros entries specs -> H. exact (B entries specs H).
Qed.

(** X21: the [parameters] of a tool are its input schema: every property
    of the schema as it is, and the type [object] only when the schema names
    no type of its own. *)
Theorem parameters_are_the_input_schema (tool : value) (fields : list (string * value)) :
  JS.prop tool "inputSchema" = ok (JObj fields) ->
  exists n d parameters,
    tool_spec tool
    = ok (JObj [("type", JStr "function");
                ("function",
                 JObj [("name", n); ("description", d);
                       ("parameters", JObj parameters)])])
    /\ JS.prop tool "name" = ok n
    /\ JS.prop tool "description" = ok d
    /\ forall k,
         JS.lookup k parameters
         = if JS.has_own k fields then JS.lookup k fields
           else if String.eqb k "type" then JStr "object" else JUndef.
Proof.
  intros H. destruct (prop_ok_not_null _ _ _ H) as [U N].
  destruct (prop_defined tool "name" U N) as [n En].
  destruct (prop_defined tool "description" U N) as [d Ed].
  exists n, d, (Keys.spread [("type", JStr "object")] (JObj fields)).
  split; [|split; [exact En|split; [exact Ed|]]].
  - unfold tool_spec. rewrite En, Ed, H. reflexivity.
  - intros k. rewrite lookup_spread. cbn [JS.lookup].
    rewrite (String.eqb_sym k "type"). reflexivity.
Qed.

End AnyApi.
End CompletionFacts.

(** ** The properties at work on the server of the repository *)

Module MoreWitnesses.
Import Client Server Sample Cases Actions OpenAI.
Import DispatchFacts DrinkFacts DebugLineFacts BootstrapFacts SingleCallFacts
  ResultFacts GuardFacts ActionFacts ServerActionFacts CompletionFacts.

Lemma resources_read_answers_witness :
  (exists doc,
      on_line initial_store (Json (read_request "menu://app"))
      = {| stdout := [Json doc]; stderr := [] |}
      /\ JS.prop doc "error" = ok JUndef
      /\ JS.prop doc "result" = ok menu_contents)
  /\ (exists doc,
         on_line initial_store (Json (read_request "menu://bar"))
         = {| stdout := [Json doc]; stderr := [] |}
         /\ JS.prop doc "error" = ok JUndef
         /\ JS.prop doc "result" = ok resource_error).
Proof.
  split.
  - exact (resources_read_answers (read_request "menu://app") (JNum 7)
             (JObj [("uri", JStr "menu://app")]) eq_refl eq_refl eq_refl).
  - exact (resources_read_answers (read_request "menu://bar") (JNum 7)
             (JObj [("uri", JStr "menu://bar")]) eq_refl eq_refl eq_refl).
Defined.

Lemma only_initialize_checks_the_version_witness :
  on_line initial_store (Json (old_request "initialize"))
  = {| stdout := []; stderr := [] |}
  /\ on_line initial_store (Json (old_request "ping"))
     = {| stdout := [Json (response (JNum 7) (JObj []))]; stderr := [] |}.
Proof.
  split.
  - exact (proj1 (only_initialize_checks_the_version initial_store
                    (old_request "initialize") (JStr "1.0") (JNum 7) eq_refl eq_refl)
             eq_refl).
  - exact (proj1 (proj2 (only_initialize_checks_the_version initial_store
                           (old_request "ping") (JStr "1.0") (JNum 7) eq_refl eq_refl))
             eq_refl).
Defined.

Lemma getDrinkInfo_name_that_is_no_string_witness :
  on_line initial_store (Json (info_request (JObj [("name", JNum 5)])))
  = {| stdout := []; stderr := [TypeError] |}
  /\ exists debug,
       on_line initial_store (Json (info_request (JObj [])))
       = {| stdout := map Text debug
                      ++ [Json (response (JNum 7)
                                  (text_content (JStr Spec.not_found_literal)))];
            stderr := [] |}.
Proof.
  split.
  - apply (getDrinkInfo_name_that_is_no_string
             (info_request (JObj [("name", JNum 5)])) (JNum 7)
             (JObj [("name", JStr "getDrinkInfo");
                    ("arguments", JObj [("name", JNum 5)])])
             (JObj [("name", JNum 5)]) (JNum 5)
             eq_refl eq_refl eq_refl eq_refl eq_refl eq_refl).
    intros s H. discriminate H.
  - exact (getDrinkInfo_name_that_is_no_string
             (info_request (JObj [])) (JNum 7)
             (JObj [("name", JStr "getDrinkInfo"); ("arguments", JObj [])])
             (JObj []) JUndef
             eq_refl eq_refl eq_refl eq_refl eq_refl eq_refl).
Defined.

Lemma listed_names_are_found_witness :
  exists debug,
    execute getDrinkNames the_drinks (JObj [])
    = ([], ok (text_content
                 (JSON.stringify
                    (JObj [("names", JArr [JStr "Latte"; JStr "Mocha";
                                           JStr "Flat White"])]))))
    /\ In (JStr "Mocha") [JStr "Latte"; JStr "Mocha"; JStr "Flat White"]
    /\ execute getDrinkInfo the_drinks (JObj [("name", JStr "Mocha")])
       = (map Text debug,
          ok (text_content
                (JSON.stringify (drink_value (nth 1 the_drinks (nth 0 the_drinks
                   {| name := ""; price := 0; description := "" |})))))).
Proof.
  apply (listed_names_are_found the_drinks
           (nth 1 the_drinks (nth 0 the_drinks
              {| name := ""; price := 0; description := "" |}))
           (JObj [("name", JStr "Mocha")]) (JObj [])).
  - repeat constructor; cbn; intuition discriminate.
  - right. left. reflexivity.
  - reflexivity.
Defined.

Lemma getDrinkInfo_call_never_returns_witness :
  fst (send Server.step "tools/call"
         (JObj [("name", JStr "getDrinkInfo");
                ("arguments", JObj [("name", JStr "Latte")])])
         false (fresh initial_store))
  = Threw SyntaxError.
Proof.
  apply (getDrinkInfo_call_never_returns (JObj [("name", JStr "Latte")])
           (fresh initial_store) eq_refl eq_refl).
  exists "Latte". left. reflexivity.
Defined.

Lemma a_getDrinkInfo_request_ends_the_session_witness :
  fst (run_tool_call Server.step Decoder.JSON_parse (initial_conversation question)
         latte_call (fresh initial_store))
  = Threw SyntaxError.
Proof.
  apply (proj2 (a_getDrinkInfo_request_ends_the_session Decoder.JSON_parse
                  (initial_conversation question) latte_call (fresh initial_store)
                  eq_refl eq_refl eq_refl eq_refl)
           (JStr (JSON.text (JObj [("name", JStr "Latte")]))) eq_refl).
  eexists. right. reflexivity.
Defined.

Lemma string_arguments_find_no_drink_witness :
  planned_calls [latte_call]
  = [JObj [("name", JStr "getDrinkInfo");
           ("arguments", JStr (JSON.text (JObj [("name", JStr "Latte")])))]]
  /\ exists debug,
       stdout (on_line initial_store
                 (call_line 0 "tools/call" (call_params latte_call)))
       = Text "Raw input: undefined"
         :: map Text debug
            ++ [Json (response (JNum 0) (text_content (JStr Spec.not_found_literal)))].
Proof.
  exact (string_arguments_find_no_drink latte_call
           (JSON.text (JObj [("name", JStr "Latte")])) 0 eq_refl eq_refl eq_refl).
Defined.

Lemma bootstrap_without_capabilities_witness :
  exists w',
    bootstrap (answering bare_result) (fresh tt) = (Threw TypeError, w')
    /\ sent w' = [] ++ [call_line 0 "initialize" handshake;
                        notification_line "notifications/initialized" (JObj [])]
    /\ lastId w' = 1.
Proof.
  apply (bootstrap_without_capabilities (answering bare_result) (fresh tt) tt
           (JObj [("result", bare_result); ("jsonrpc", JStr "2.0"); ("id", JNum 0)])
           bare_result JUndef []);
    try reflexivity.
  now left.
Defined.

Lemma bootstrap_skips_undeclared_lists_witness :
  exists w',
    bootstrap (answering idle_result) (fresh tt)
    = (Done {| Client.serverInfo :=
                 JObj [("name", JStr "idle"); ("version", JStr "0.0.1")];
               Client.tools := JArr []; Client.resources := JArr [] |}, w')
    /\ sent w' = [] ++ [call_line 0 "initialize" handshake;
                        notification_line "notifications/initialized" (JObj [])]
    /\ received w'
       = [] ++ [Json (JObj [("result", idle_result); ("jsonrpc", JStr "2.0");
                            ("id", JNum 0)])]
    /\ lastId w' = 1.
Proof.
  apply (bootstrap_skips_undeclared_lists (answering idle_result) (fresh tt) tt
           (JObj [("result", idle_result); ("jsonrpc", JStr "2.0"); ("id", JNum 0)])
           idle_result
           (JObj [("name", JStr "idle"); ("version", JStr "0.0.1")])
           (JObj []) JUndef JUndef (JStr "idle") (JStr "0.0.1") [] "idle" "0.0.1");
    reflexivity.
Defined.

Lemma ask_once_needs_a_last_block_witness :
  ask_once Server.step silent question (fresh initial_store)
  = (Threw TypeError, asked_more (fresh initial_store) [user_message question]).
Proof.
  apply (ask_once_needs_a_last_block Server.step silent question (JArr [])
           (fresh initial_store)).
  - reflexivity.
  - right. left. reflexivity.
Defined.

Lemma ask_once_feeds_the_result_back_witness :
  exists w',
    ask_once Server.step eager question (fresh initial_store)
    = (Done [user_message question;
             assistant_blocks
               (JArr ([text_item; tool_use "toolu_1" "getDrinkNames" (JObj [])]
                        ++ [tool_use "toolu_2" "getDrinkNames"
                              (JObj [("all", JBool true)])]));
             tool_result_message (JStr "toolu_2") (get_or_undefined (JS.prop names_item "text"))],
       w')
    /\ sent w'
       = [] ++ [call_line 0 "tools/call"
                  (JObj [("name", JStr "getDrinkNames");
                         ("arguments", JObj [("all", JBool true)])])]
    /\ received w'
       = [] ++ [Json (response (JNum 0) (JObj [("content", JArr [names_item])]))]
    /\ asked w'
       = [user_message question;
          assistant_blocks
            (JArr ([text_item; tool_use "toolu_1" "getDrinkNames" (JObj [])]
                     ++ [tool_use "toolu_2" "getDrinkNames"
                           (JObj [("all", JBool true)])]));
          tool_result_message (JStr "toolu_2") (get_or_undefined (JS.prop names_item "text"))]
           :: [user_message question] :: [].
Proof.
  apply (ask_once_feeds_the_result_back Server.step eager question "getDrinkNames"
           [text_item; tool_use "toolu_1" "getDrinkNames" (JObj [])]
           [JObj [("type", JStr "text"); ("text", JStr answer)]]
           (tool_use "toolu_2" "getDrinkNames" (JObj [("all", JBool true)]))
           (JStr "getDrinkNames") (JObj [("all", JBool true)]) (JStr "toolu_2")
           (response (JNum 0) (JObj [("content", JArr [names_item])]))
           (JObj [("content", JArr [names_item])])
           (JArr [names_item]) names_item
           (get_or_undefined (JS.prop names_item "text"))
           initial_store [] (fresh initial_store));
    try reflexivity; repeat constructor; discriminate.
Defined.

Lemma repeating_script_signatures :
  signatures_of repeating_script
    ["getDrinkNames:{}"; "getDrinkNames:{}"; "getDrinkNames:{ }";
     "getDrinkNames:{}"; "getDrinkNames:{}"].
Proof. repeat constructor. Qed.

Lemma requests_pass_unless_three_in_a_row_witness :
  exists f w' evs,
    ask Server.step (replayed repeating_script) Decoder.JSON_parse 6 question
      (fresh initial_store) = (Done f, w')
    /\ promptResult f = JStr answer
    /\ finalAnswerGiven f = true
    /\ console w' = evs ++ [Answer answer]
    /\ trace (fresh initial_store) w' (scripted_calls repeating_script)
    /\ Forall (fun n => n < 2) (counts f)
    /\ List.length (counts f) = 5.
Proof.
  apply (requests_pass_unless_three_in_a_row Server.step (replayed repeating_script)
           Decoder.JSON_parse at_start repeating_script
           ["getDrinkNames:{}"; "getDrinkNames:{}"; "getDrinkNames:{ }";
            "getDrinkNames:{}"; "getDrinkNames:{}"]
           answer question 6 (fresh initial_store)).
  - repeat constructor; intros s H; discriminate H.
  - exact repeating_script_signatures.
  - cbn. repeat split; intros [H1 H2]; discriminate.
  - reflexivity.
  - reflexivity.
  - intros r p [<-|[<-|[<-|[<-|[<-|[]]]]]] [<-|[]];
      apply LoopWitnesses.names_call_answered.
  - intros k ms log Hl Hk. unfold replayed. cbn [List.length].
    rewrite Nat.sub_succ, Nat.sub_0_r, Hl. reflexivity.
  - simpl. lia.
Defined.

Lemma alternating_requests_are_never_cut_off_witness :
  exists w',
    ask Server.step alternating Decoder.JSON_parse 5 question (fresh initial_store)
    = (OutOfFuel, w')
    /\ List.length (asked w') = 0 + 1 + 5.
Proof.
  apply (alternating_requests_are_never_cut_off Server.step alternating
           Decoder.JSON_parse at_start (JArr [names_call]) (JArr [names_again])
           "getDrinkNames:{}" "getDrinkNames:{ }" question 5 (fresh initial_store)).
  - intros s H; discriminate H.
  - intros s H; discriminate H.
  - reflexivity.
  - reflexivity.
  - discriminate.
  - reflexivity.
  - reflexivity.
  - intros p [<-|[<-|[]]]; apply LoopWitnesses.names_call_answered.
  - intros ms log. reflexivity.
Defined.

Lemma running_a_tool_witness :
  tool_action Server.step Decoder.JSON_parse pick_first (typed "Latte")
    (Client.tools (catalog_of initial_store)) (fresh initial_store)
  = (Done Returned,
     {| lastId := 1; srv := initial_store; pipe := [];
        sent := [] ++ [call_line 0 "tools/call"
                         (JObj [("name", JStr "getDrinkNames");
                                ("arguments", JObj [])])];
        received := [] ++ [Json (response (JNum 0)
                                   (JObj [("content", JArr [names_item])]))];
        asked := [];
        console := [] ++ [Said (shown_item Decoder.JSON_parse names_item)] |})
  /\ fst (tool_action Server.step Decoder.JSON_parse pick_second (typed "Latte")
            (Client.tools (catalog_of initial_store)) (fresh initial_store))
     = Threw SyntaxError.
Proof.
  split.
  - exact (proj1 (running_a_tool Decoder.JSON_parse pick_first (typed "Latte")
                    (fresh initial_store) eq_refl eq_refl) eq_refl).
  - apply (proj2 (proj2 (running_a_tool Decoder.JSON_parse pick_second (typed "Latte")
                           (fresh initial_store) eq_refl eq_refl) eq_refl)).
    now exists "Latte".
Defined.

Lemma reading_the_menu_witness :
  resource_action Server.step Decoder.JSON_parse pick_first
    (Client.resources (catalog_of initial_store)) (fresh initial_store)
  = (Done Returned,
     {| lastId := 1; srv := initial_store; pipe := [];
        sent := [] ++ [call_line 0 "resources/read"
                         (JObj [("uri", JStr "menu://app")])];
        received := [] ++ [Json (response (JNum 0) menu_contents)];
        asked := [];
        console := [] ++ [Said (shown_item Decoder.JSON_parse menu_item)] |}).
Proof.
  exact (reading_the_menu Decoder.JSON_parse pick_first (fresh initial_store)
           eq_refl eq_refl eq_refl).
Defined.

Lemma parameters_are_the_input_schema_witness :
  exists n d parameters,
    tool_spec info_entry
    = ok (JObj [("type", JStr "function");
                ("function",
                 JObj [("name", n); ("description", d);
                       ("parameters", JObj parameters)])])
    /\ JS.prop info_entry "name" = ok n
    /\ JS.prop info_entry "description" = ok d
    /\ forall k,
         JS.lookup k parameters
         = if JS.has_own k
                [("type", JStr "object");
                 ("properties", JObj [("name", JObj [("type", JStr "string")])]);
                 ("required", JArr [JStr "name"])]
           then JS.lookup k
                  [("type", JStr "object");
                   ("properties", JObj [("name", JObj [("type", JStr "string")])]);
                   ("required", JArr [JStr "name"])]
           else if String.eqb k "type" then JStr "object" else JUndef.
Proof.
  exact (parameters_are_the_input_schema info_entry _ eq_refl).
Defined.

End MoreWitnesses.

(** ** Names with code units beyond U+0100 *)

Module WideFacts.
Import Server ServerFacts Wide.

Lemma unit_eqb_eq (a b : unit) : unit_eqb a b = true <-> a = b.
Proof.
  destruct a, b; cbn; try (split; [discriminate|discriminate]); try tauto.
  rewrite Ascii.eqb_eq. split; [now intros ->|now intros [= ->]].
Qed.

Lemma eqb_eq (a b : text) : eqb a b = true <-> a = b.
Proof.
  revert b. induction a as [|x a IH]; intros [|y b]; cbn;
    try (split; [discriminate|discriminate]); try tauto.
  rewrite andb_true_iff, unit_eqb_eq, IH.
  split; [now intros [-> ->]|now intros [= -> ->]].
Qed.

Lemma latin_part_widen (s : string) : latin_part (widen s) = s.
Proof.
  unfold widen. induction s as [|c s IH]; [reflexivity|].
  cbn [list_ascii_of_string map latin_part]. now rewrite IH.
Qed.


Lemma widen_app (a b : string) : widen (a ++ b) = widen a ++ widen b.
Proof.
  unfold widen. induction a as [|c a IH]; [reflexivity|].
  cbn [append list_ascii_of_string map app]. now rewrite IH.
Qed.

Lemma toLowerCase_widen (s : string) :
  Wide.toLowerCase (widen s) = widen (Server.toLowerCase s).
Proof.
  unfold widen, Wide.toLowerCase. induction s as [|c s IH]; [reflexivity|].
  cbn [list_ascii_of_string map flat_map lower_unit Server.toLowerCase app].
  now rewrite IH.
Qed.

Lemma strip_widen (s : string) : Wide.strip (widen s) = widen (Server.strip s).
Proof.
  unfold widen, Wide.strip. induction s as [|c s IH]; [reflexivity|].
  cbn [list_ascii_of_string map filter alnum Server.strip].
  destruct (Server.alnum c); cbn [list_ascii_of_string map]; now rewrite IH.
Qed.

(** On the strings of the model the two models of [normalize] agree. *)
Lemma normalize_widen (s : string) :
  Wide.normalize (widen s) = widen (Server.strip (Server.toLowerCase s)).
Proof. unfold Wide.normalize. now rewrite toLowerCase_widen, strip_widen. Qed.




End WideFacts.

Module NameFacts.
Import Server ServerFacts DrinkFacts WideFacts.

Lemma normalize_cons (u : Wide.unit) (s : Wide.text) :
  Wide.normalize (u :: s) = Wide.strip (Wide.lower_unit u) ++ Wide.normalize s.
Proof.
  unfold Wide.normalize, Wide.toLowerCase, Wide.strip. cbn [flat_map].
  apply filter_app.
Qed.

Lemma normalize_app (s s' : Wide.text) :
  Wide.normalize (s ++ s') = Wide.normalize s ++ Wide.normalize s'.
Proof.
  unfold Wide.normalize, Wide.toLowerCase, Wide.strip.
  now rewrite flat_map_app, filter_app.
Qed.

(** What one unit comes to: nothing, or one unit that is kept and that
    [normalize] leaves as it is. *)
Lemma normalize_unit (u : Wide.unit) :
  Wide.strip (Wide.lower_unit u) = []
  \/ exists c,
       Wide.strip (Wide.lower_unit u) = [Wide.Latin c]
       /\ kept (Wide.Latin c)
       /\ Wide.normalize [Wide.Latin c] = [Wide.Latin c].
Proof.
  destruct u as [c| | |].
  - cbn [Wide.lower_unit Wide.strip filter Wide.alnum].
    destruct (alnum (lower_char c)) eqn:E; [|now left].
    right. exists (lower_char c). destruct (lower_char_kept c E) as [K1 K2].
    split; [reflexivity|]. split; [now exists (lower_char c)|].
    unfold Wide.normalize, Wide.toLowerCase, Wide.strip.
    cbn [flat_map Wide.lower_unit app filter Wide.alnum]. now rewrite K1, E.
  - right. exists "i"%char. split; [reflexivity|].
    split; [exists "i"%char; split; [reflexivity|now right]|reflexivity].
  - now left.
  - right. exists "k"%char. split; [reflexivity|].
    split; [exists "k"%char; split; [reflexivity|now right]|reflexivity].
Qed.

Lemma normalize_normalized (s : Wide.text) :
  Wide.normalize (Wide.normalize s) = Wide.normalize s
  /\ Forall kept (Wide.normalize s)
  /\ List.length (Wide.normalize s) <= List.length s.
Proof.
  induction s as [|u s (I1 & I2 & I3)].
  { split; [reflexivity|]. split; [constructor|reflexivity]. }
  rewrite normalize_cons.
  destruct (normalize_unit u) as [->|(c & -> & K & N)].
  - cbn [app List.length]. repeat split; auto.
  - change ([Wide.Latin c] ++ Wide.normalize s)
      with (Wide.Latin c :: Wide.normalize s).
    split; [|split; [now constructor|cbn [List.length]; lia]].
    change (Wide.Latin c :: Wide.normalize s)
      with ([Wide.Latin c] ++ Wide.normalize s).
    now rewrite normalize_app, N, I1.
Qed.

(** X5: on strings whose code units are below U+0100 or are U+0130, U+0307
    or U+212A, [normalize] is idempotent, leaves only digits and lower-case
    letters of [a-z], never lengthens, although lower-casing may, and takes
    a concatenation to the concatenation of what it makes of the parts; on
    the strings of the model it is the [normalize] of the server. *)
Theorem normalize_is_idempotent (s s' : Wide.text) :
  Wide.normalize (Wide.normalize s) = Wide.normalize s
  /\ Forall kept (Wide.normalize s)
  /\ List.length (Wide.normalize s) <= List.length s
  /\ Wide.normalize (s ++ s') = Wide.normalize s ++ Wide.normalize s'
  /\ List.length (Wide.toLowerCase [Wide.CapitalIDot]) = 2
  /\ (forall a : string,
        Server.normalize (JStr a)
        = ok (Wide.latin_part (Wide.normalize (Wide.widen a)))).
Proof.
  destruct (normalize_normalized s) as (H1 & H2 & H3).
  split; [exact H1|]. split; [exact H2|]. split; [exact H3|].
  split; [apply normalize_app|]. split; [reflexivity|].
  intros a. now rewrite normalize_string, normalize_widen, latin_part_widen.
Qed.




End NameFacts.
